(** * MetaDao-Pool-Sniper: the trigger detector, the Yellowstone stream
      client, the transaction executor and the two orchestrators.

    Strings are Rocq [string]s, read as sequences of code units below 256
    (program logs and error messages are ASCII text). *)

From stdpp Require Import base gmap strings list.
From Stdlib Require Import ZArith Lia Ascii String List Bool.
Import ListNotations.

Local Open Scope string_scope.
Local Open Scope bool_scope.

(** ** JavaScript string primitives *)
Module Js.

(** [String.prototype.toLowerCase] on one code unit below 256: A-Z and the
    Latin-1 capitals (all of 192..222 but the multiplication sign 215). *)
Definition lowerChar (c : ascii) : ascii :=
  let n := N_of_ascii c in
  if ((65 <=? n) && (n <=? 90)
      || (192 <=? n) && (n <=? 222) && negb (n =? 215))%N
  then ascii_of_N (n + 32) else c.

Fixpoint toLowerCase (s : string) : string :=
  match s with
  | EmptyString => EmptyString
  | String c s' => String (lowerChar c) (toLowerCase s')
  end.

(** [arr.join(sep)] on an array of strings. *)
Fixpoint join (sep : string) (l : list string) : string :=
  match l with
  | [] => EmptyString
  | [x] => x
  | x :: rest => x +:+ sep +:+ join sep rest
  end.

(** [s.includes(m)]: [m] starts at some position of [s]. *)
Fixpoint includes (s m : string) : bool :=
  String.prefix m s
  || match s with
     | EmptyString => false
     | String _ s' => includes s' m
     end.

(** [arr.some(f)] *)
Definition some {A} (f : A -> bool) (l : list A) : bool := existsb f l.

End Js.

(** ** services/transactionParser.ts *)
Module Parser.
Import Js.

Record Pattern := { name : string; match_ : list string }.

Definition patterns : list Pattern :=
  [ {| name := "completeLaunch"; match_ := ["completelaunch"; "complete launch"] |};
    {| name := "initializeLaunch"; match_ := ["initializelaunch"] |};
    {| name := "startLaunch"; match_ := ["startlaunch"] |};
    {| name := "fund"; match_ := ["fund"] |};
    {| name := "refund"; match_ := ["refund"] |};
    {| name := "claim"; match_ := ["claim"] |} ].

(** The [for (const { name, match } of patterns)] loop. *)
Fixpoint scan (allLogs : string) (ps : list Pattern) : string :=
  match ps with
  | [] => "unknown"
  | p :: rest =>
      if some (fun m => includes allLogs m) (match_ p) then name p
      else scan allLogs rest
  end.

Definition detectInstruction (logs : list string) : string :=
  let allLogs := toLowerCase (join " " logs) in
  scan allLogs patterns.

Record ParsedTransactionData := { instructionType : string }.

Definition parseMetaDAOTransaction (logs : list string) : ParsedTransactionData :=
  {| instructionType := detectInstruction logs |}.

Definition isCompleteLaunchTransaction (parsed : ParsedTransactionData) : bool :=
  String.eqb (instructionType parsed) "completeLaunch".

End Parser.

(** ** services/geyserClient.ts: log predicates of the WebSocket client *)
Module Geyser.
Import Js.

Definition isCompleteLaunchTransaction (logs : list string) : bool :=
  some (fun log =>
          includes log "Instruction: CompleteLaunch"
          || includes log "complete_launch"
          || includes log "CompleteLaunch") logs.

(** *** The three regular expressions of [extractLaunchPubkey]

    Each is a literal prefix, runs of white space or digits, and one
    capture group [[1-9A-HJ-NP-Za-km-z]{32,44}] at the very end.  The
    greedy runs never overlap what follows them, so matching at a fixed
    start position is a single left-to-right pass. *)

Definition inRange (lo hi : N) (c : ascii) : bool :=
  ((lo <=? N_of_ascii c) && (N_of_ascii c <=? hi))%N.

(** [\s] on code units below 256 *)
Definition isSpace (c : ascii) : bool :=
  inRange 9 13 c || (N_of_ascii c =? 32)%N || (N_of_ascii c =? 160)%N.

(** [\d] *)
Definition isDigit (c : ascii) : bool := inRange 48 57 c.

(** [[1-9A-HJ-NP-Za-km-z]] *)
Definition isBase58 (c : ascii) : bool :=
  inRange 49 57 c
  || inRange 65 72 c || inRange 74 78 c || inRange 80 90 c
  || inRange 97 107 c || inRange 109 122 c.

(** The same class under the [i] flag: a code unit matches when its other
    case is in the class, which adds [I], [O] and [l]. *)
Definition isBase58_i (c : ascii) : bool :=
  inRange 49 57 c || inRange 65 90 c || inRange 97 122 c.

Definition charEq (ci : bool) (p c : ascii) : bool :=
  if ci then Ascii.eqb (lowerChar p) (lowerChar c) else Ascii.eqb p c.

(** Literal [p] at the start of [s]; the rest of [s] on success. *)
Fixpoint lit (ci : bool) (p s : string) : option string :=
  match p, s with
  | EmptyString, _ => Some s
  | String _ _, EmptyString => None
  | String a p', String c s' => if charEq ci a c then lit ci p' s' else None
  end.

(** A greedy run [f*]: the rest of the string and the length of the run. *)
Fixpoint run (f : ascii -> bool) (s : string) : string * nat :=
  match s with
  | String c s' => if f c then let '(r, n) := run f s' in (r, S n) else (s, O)
  | EmptyString => (s, O)
  end.

Fixpoint takeUpTo (n : nat) (f : ascii -> bool) (s : string) : string :=
  match n, s with
  | S n', String c s' => if f c then String c (takeUpTo n' f s') else EmptyString
  | _, _ => EmptyString
  end.

(** [\s*([...]{32,44})] *)
Definition capture (ci : bool) (s : string) : option string :=
  let c := takeUpTo 44 (if ci then isBase58_i else isBase58) (fst (run isSpace s)) in
  if (32 <=? String.length c)%nat then Some c else None.

(** [f+] *)
Definition run1 (f : ascii -> bool) (s : string) : option string :=
  let '(r, n) := run f s in
  match n with O => None | S _ => Some r end.

Definition obind {A B} (o : option A) (k : A -> option B) : option B :=
  match o with Some a => k a | None => None end.

(** [/Launch:\s*(...)/i] *)
Definition reLaunch (s : string) : option string :=
  obind (lit true "launch:" s) (capture true).

(** [/launch\s+account:\s*(...)/i] *)
Definition reLaunchAccount (s : string) : option string :=
  obind (lit true "launch" s) (fun r =>
  obind (run1 isSpace r) (fun r =>
  obind (lit true "account:" r) (capture true))).

(** [/account\s+#\d+:\s*(...)/] *)
Definition reAccountN (s : string) : option string :=
  obind (lit false "account" s) (fun r =>
  obind (run1 isSpace r) (fun r =>
  obind (lit false "#" r) (fun r =>
  obind (run1 isDigit r) (fun r =>
  obind (lit false ":" r) (capture false))))).

(** [log.match(re)]: the leftmost start position where [re] matches;
    the result is the capture group [match[1]]. *)
Fixpoint search (re : string -> option string) (s : string) : option string :=
  match re s with
  | Some c => Some c
  | None =>
      match s with
      | EmptyString => None
      | String _ s' => search re s'
      end
  end.

Definition launchPatterns : list (string -> option string) :=
  [reLaunch; reLaunchAccount; reAccountN].

Fixpoint firstPattern (ps : list (string -> option string)) (log : string)
  : option string :=
  match ps with
  | [] => None
  | re :: rest =>
      match search re log with
      | Some c => Some c
      | None => firstPattern rest log
      end
  end.

Fixpoint extractLaunchPubkey (logs : list string) : option string :=
  match logs with
  | [] => None
  | log :: rest =>
      match firstPattern launchPatterns log with
      | Some c => Some c
      | None => extractLaunchPubkey rest
      end
  end.

End Geyser.

(** ** Errors, results and the outside world *)

(** A thrown JavaScript error: [error.message] and the optional
    [error.logs] of a failed send. *)
Record Error := { message : string; logs : option (list string) }.

Definition mkError (msg : string) : Error := {| message := msg; logs := None |}.

(** What an awaited external call settles to. *)
Inductive Res (A : Type) : Type :=
| Ok (a : A)
| Throw (e : Error).
Arguments Ok {A} a.
Arguments Throw {A} e.

(** A public key is its 32-byte buffer; [Buffer.compare] is the bytewise
    lexicographic order. *)
Definition PublicKey := string.
Record Keypair := { publicKey : PublicKey }.

(** [Transaction]: the instructions are opaque; the executor stamps
    [recentBlockhash] and the signatures. *)
Record Transaction := {
  instructions : list string;
  feePayer : option PublicKey;
  recentBlockhash : option string;
  signatures : list PublicKey;
}.

Record SendOptions := { skipPreflight : bool; maxRetries : Z }.

Record PoolState := {
  tokenAMint : PublicKey;
  tokenBMint : PublicKey;
  sqrtMinPrice : Z;
  sqrtMaxPrice : Z;
  sqrtPrice : Z;
}.

Record DepositQuoteParams := {
  dq_inAmount : Z;
  dq_isTokenA : bool;
  dq_minSqrtPrice : Z;
  dq_maxSqrtPrice : Z;
  dq_sqrtPrice : Z;
}.

Record DepositQuote := { outputAmount : Z; liquidityDelta : Z }.

Record AddLiquidityParams := {
  al_owner : PublicKey;
  al_pool : PublicKey;
  al_positionNft : PublicKey;
  al_liquidityDelta : Z;
  al_maxAmountTokenA : Z;
  al_maxAmountTokenB : Z;
  al_tokenAAmountThreshold : Z;
  al_tokenBAmountThreshold : Z;
  al_tokenAMint : PublicKey;
  al_tokenBMint : PublicKey;
}.

Record PoolCreationResult := {
  signature : string;
  res_poolPda : PublicKey;
  res_positionPda : PublicKey;
  res_tokenAccount : option PublicKey;
  res_baseMint : PublicKey;
}.

(** Calls that leave the process, in the order they are made. *)
Inductive Call :=
| CGetLatestBlockhash                (* connection.getLatestBlockhash('finalized') *)
| CSendRawTransaction (tx : Transaction) (opts : SendOptions)
| CConfirmTransaction (sig : string)
| CGetAccountInfo (addr : PublicKey)
| CFetchPoolState (pool : PublicKey)
| CCreatePositionAndAddLiquidity (params : AddLiquidityParams)
| CKeypairGenerate
| CStreamEnd                         (* stream.end() *)
| CRemoveListener (id : Z)           (* connection.removeAccountChangeListener *)
| CLoyalExecuteInSingleSlot.         (* MetaDAOLoyalPoolCreator.executeInSingleSlot *)

(** The environment answers the [n]-th call of a run; the SDK functions
    that compute without I/O are part of it.  Whether web3.js accepts the
    signers of a transaction ([tx_sign]: an unknown signer throws) and
    whether the signed transaction serializes ([tx_serialize]: a missing
    signature throws) depends on the compiled message, which stays
    opaque here. *)
Record Env := {
  rpc_getLatestBlockhash : nat -> Res (string * Z);
  rpc_sendRawTransaction : nat -> Transaction -> SendOptions -> Res string;
  rpc_confirmTransaction : nat -> string -> Res unit;
  rpc_getAccountInfo : nat -> PublicKey -> Res bool;
  amm_fetchPoolState : nat -> PublicKey -> Res PoolState;
  amm_createPositionAndAddLiquidity : nat -> AddLiquidityParams -> Res Transaction;
  keypair_generate : nat -> Keypair;
  rpc_removeListener : nat -> Z -> Res unit;
  loyal_executeInSingleSlot : nat -> Res PoolCreationResult;
  findProgramAddressSync : list string -> PublicKey -> PublicKey;
  getDepositQuote : DepositQuoteParams -> DepositQuote;
  tx_sign : Transaction -> list Keypair -> Res unit;
  tx_serialize : Transaction -> Res unit;
}.

(** ** JavaScript's [Map] with string keys

    A [Map] keeps its entries in insertion order: [set] on a key that is
    there replaces the value where it stands, [set] on a new key appends
    the entry, and [forEach] visits the entries in that order. *)
Module JsMap.

Record t (V : Type) := Make { entries : list (string * V) }.
Arguments Make {V} entries.
Arguments entries {V} _.

Definition get {V} (k : string) (m : t V) : option V :=
  match List.find (fun kv => String.eqb (fst kv) k) (entries m) with
  | Some kv => Some (snd kv)
  | None => None
  end.

Definition has {V} (k : string) (m : t V) : bool :=
  existsb (fun kv => String.eqb (fst kv) k) (entries m).

Definition set {V} (k : string) (v : V) (m : t V) : t V :=
  if has k m
  then Make (List.map (fun kv => if String.eqb (fst kv) k then (k, v) else kv)
               (entries m))
  else Make (List.app (entries m) [(k, v)]).

Definition delete {V} (k : string) (m : t V) : t V :=
  Make (List.filter (fun kv => negb (String.eqb (fst kv) k)) (entries m)).

(** The values in the order [forEach] visits them. *)
Definition values {V} (m : t V) : list V := List.map snd (entries m).

End JsMap.

#[global] Instance jsmap_lookup {V : Type} : Lookup string V (JsMap.t V) := JsMap.get.
#[global] Instance jsmap_empty {V : Type} : Empty (JsMap.t V) := JsMap.Make [].

(** ** services/yellowstoneGrpc.ts *)
Module Yellowstone.
Import Js.

(** A height as it comes off the wire ([any]): missing, a number, or the
    [{ blockHeight }] wrapper of a block-meta frame. *)
Inductive Height :=
| HUndefined
| HNum (n : Z)
| HObj (inner : option Z).

Definition truthy (h : Height) : bool :=
  match h with
  | HUndefined => false
  | HNum n => negb (n =? 0)%Z
  | HObj _ => true
  end.

(** [a || b] *)
Definition or_else (a b : Height) : Height := if truthy a then a else b.

(** [h?.blockHeight] *)
Definition innerHeight (h : Height) : Height :=
  match h with
  | HObj (Some n) => HNum n
  | _ => HUndefined
  end.

Definition truthyStr (o : option string) : bool :=
  match o with
  | Some s => negb (String.eqb s "")
  | None => false
  end.

Record YellowstoneTransactionData := {
  td_signature : string;
  td_slot : Z;
  td_accounts : list string;
  td_logs : list string;
  td_err : option string;
}.

(** The listeners the repository registers, by what they call. *)
Inductive Callback :=
| CbHandleTransaction      (* autoPool: this.handleTransaction(txData) *)
| CbMintTrigger.           (* test/testInstantFire *)

Record YellowstoneUnifiedStream := {
  endpoint : string;
  xToken : option string;
  stream : option nat;
  latestBlockhash : option string;
  latestBlockHeight : Height;
  blockhashLastUpdate : Z;
  isStreaming : bool;
  txCallbacks : JsMap.t Callback;
}.

Definition newStream (endpoint : string) (xToken : option string)
  : YellowstoneUnifiedStream :=
  {| endpoint := endpoint; xToken := xToken; stream := None;
     latestBlockhash := None; latestBlockHeight := HNum 0;
     blockhashLastUpdate := 0; isStreaming := false; txCallbacks := ∅ |}.

(** The three assignments every writer of the cache performs. *)
Definition setBlockhash (s : YellowstoneUnifiedStream) (hash : string)
    (height : Height) (now : Z) (streaming : bool) : YellowstoneUnifiedStream :=
  {| endpoint := endpoint s; xToken := xToken s; stream := stream s;
     latestBlockhash := Some hash; latestBlockHeight := height;
     blockhashLastUpdate := now; isStreaming := streaming;
     txCallbacks := txCallbacks s |}.

Record BlockFrame := {
  b_blockhash : option string;
  b_blockHeight : Height;
  b_slot : Height;
}.

(** What the handler reads of [data.transaction] when the nested
    [data.transaction.transaction] is there: the nested signature,
    account keys and meta, and [data.transaction.slot]. *)
Record TransactionFrame := {
  tf_signature : option string;
  tf_accountKeys : option (list (option string));
  tf_logMessages : option (list string);
  tf_err : option string;
  tf_slot : option Z;
}.

(** [data.transaction], with or without its nested [transaction]. *)
Inductive TransactionUpdate :=
| TxUpdate (tf : TransactionFrame)
| TxNoInner.

Record Frame := {
  f_block : option BlockFrame;
  f_blockMeta : option BlockFrame;
  f_transaction : option TransactionUpdate;
  f_slot : bool;
}.

Definition frameHash (b : option BlockFrame) : option string :=
  match b with
  | Some b => if truthyStr (b_blockhash b) then b_blockhash b else None
  | None => None
  end.

(** [if (data.block?.blockhash) { ... }] *)
Definition onBlock (now : Z) (data : Frame) (s : YellowstoneUnifiedStream)
  : YellowstoneUnifiedStream :=
  match f_block data, frameHash (f_block data) with
  | Some b, Some h =>
      setBlockhash s h
        (or_else (b_blockHeight b) (or_else (b_slot b) (HNum 0))) now true
  | _, _ => s
  end.

(** [if (data.blockMeta?.blockhash) { ... }] *)
Definition onBlockMeta (now : Z) (data : Frame) (s : YellowstoneUnifiedStream)
  : YellowstoneUnifiedStream :=
  match f_blockMeta data, frameHash (f_blockMeta data) with
  | Some b, Some h =>
      setBlockhash s h
        (or_else (innerHeight (b_blockHeight b))
           (or_else (b_blockHeight b) (or_else (b_slot b) (HNum 0)))) now true
  | _, _ => s
  end.

(** Decoding of [data.transaction]; [bs58] is [bs58.encode]. *)
Definition decode (bs58 : string -> string) (tf : TransactionFrame)
  : YellowstoneTransactionData :=
  {| td_signature := match tf_signature tf with
                     | Some sg => bs58 sg
                     | None => ""
                     end;
     td_slot := match tf_slot tf with Some n => n | None => 0%Z end;
     td_accounts :=
       List.filter (fun a => negb (String.eqb a ""))
         (List.map (fun key => match key with Some k => bs58 k | None => "" end)
            (match tf_accountKeys tf with Some ks => ks | None => [] end));
     td_logs := match tf_logMessages tf with Some l => l | None => [] end;
     td_err := tf_err tf |}.

(** The ['data'] handler: the new client state, the listener calls it
    makes in the order it makes them, and how it ends: it returns, having
    kicked off [fetchBlockhashFromSlot] or not, or it throws.  On a
    transaction update without the nested transaction [tx.signature]
    is read off [undefined]: the handler throws after the cache was
    written, before any listener is called. *)
Definition onData (bs58 : string -> string) (now : Z) (data : Frame)
    (s : YellowstoneUnifiedStream)
  : YellowstoneUnifiedStream * list (Callback * YellowstoneTransactionData) * Res bool :=
  let s1 := onBlock now data s in
  let s2 := onBlockMeta now data s1 in
  match f_transaction data with
  | Some TxNoInner =>
      (s2, [],
       Throw (mkError "Cannot read properties of undefined (reading 'signature')"))
  | Some (TxUpdate tf) =>
      (s2,
       List.map (fun callback => (callback, decode bs58 tf))
         (JsMap.values (txCallbacks s2)),
       Ok (f_slot data && negb (isStreaming s2)))
  | None => (s2, [], Ok (f_slot data && negb (isStreaming s2)))
  end.

(** The stream's ['error'] and ['end'] handlers. *)
Definition onErrorOrEnd (s : YellowstoneUnifiedStream) : YellowstoneUnifiedStream :=
  {| endpoint := endpoint s; xToken := xToken s; stream := stream s;
     latestBlockhash := latestBlockhash s; latestBlockHeight := latestBlockHeight s;
     blockhashLastUpdate := blockhashLastUpdate s; isStreaming := false;
     txCallbacks := txCallbacks s |}.

(** [fetchBlockhashFromSlot] and the 5-second refresh timer, once the RPC
    call has answered: a failed call is swallowed. *)
Definition onRpcBlockhash (now : Z) (r : Res (string * Z)) (markStreaming : bool)
    (s : YellowstoneUnifiedStream) : YellowstoneUnifiedStream :=
  match r with
  | Ok (h, height) =>
      setBlockhash s h (HNum height) now (isStreaming s || markStreaming)
  | Throw _ => s
  end.

Definition fetchBlockhashFromSlot now r s := onRpcBlockhash now r true s.
Definition blockhashRefresh now r s := onRpcBlockhash now r false s.

Definition onTransaction (id : string) (callback : Callback)
    (s : YellowstoneUnifiedStream) : YellowstoneUnifiedStream :=
  {| endpoint := endpoint s; xToken := xToken s; stream := stream s;
     latestBlockhash := latestBlockhash s; latestBlockHeight := latestBlockHeight s;
     blockhashLastUpdate := blockhashLastUpdate s; isStreaming := isStreaming s;
     txCallbacks := JsMap.set id callback (txCallbacks s) |}.

Definition offTransaction (id : string) (s : YellowstoneUnifiedStream)
  : YellowstoneUnifiedStream :=
  {| endpoint := endpoint s; xToken := xToken s; stream := stream s;
     latestBlockhash := latestBlockhash s; latestBlockHeight := latestBlockHeight s;
     blockhashLastUpdate := blockhashLastUpdate s; isStreaming := isStreaming s;
     txCallbacks := JsMap.delete id (txCallbacks s) |}.

Definition getLatestBlockhash (s : YellowstoneUnifiedStream)
  : option (string * Height) :=
  match latestBlockhash s with
  | Some h => if truthyStr (Some h) then Some (h, latestBlockHeight s) else None
  | None => None
  end.

Definition isActive (s : YellowstoneUnifiedStream) : bool :=
  isStreaming s && truthyStr (latestBlockhash s).

Definition getBlockhashAge (now : Z) (s : YellowstoneUnifiedStream) : Z :=
  (now - blockhashLastUpdate s)%Z.

(** [stopStreaming]: the new state and the calls made on the way. *)
Definition stopStreaming (s : YellowstoneUnifiedStream)
  : YellowstoneUnifiedStream * list Call :=
  ({| endpoint := endpoint s; xToken := xToken s; stream := None;
      latestBlockhash := latestBlockhash s; latestBlockHeight := latestBlockHeight s;
      blockhashLastUpdate := blockhashLastUpdate s; isStreaming := false;
      txCallbacks := ∅ |},
   match stream s with Some _ => [CStreamEnd] | None => [] end).

End Yellowstone.

(** ** The process state and the monad of asynchronous code *)

Record World := {
  now : Z;                                   (* Date.now() *)
  geyserRpcUrl : option string;              (* config.geyserRpcUrl *)
  geyserXToken : option string;              (* config.geyserXToken *)
  yellowstoneStream : option Yellowstone.YellowstoneUnifiedStream;
                                             (* the module-level singleton *)
  subscriptions : gmap string Z;             (* GeyserClient.subscriptions *)
  isExecuting : bool;                        (* the orchestrator's two flags *)
  hasExecuted : bool;
  trace : list Call;                         (* calls made so far, oldest first *)
}.

Definition withStream (o : option Yellowstone.YellowstoneUnifiedStream) (w : World) : World :=
  {| now := now w; geyserRpcUrl := geyserRpcUrl w; geyserXToken := geyserXToken w;
     yellowstoneStream := o; subscriptions := subscriptions w;
     isExecuting := isExecuting w; hasExecuted := hasExecuted w; trace := trace w |}.

Definition withSubscriptions (m : gmap string Z) (w : World) : World :=
  {| now := now w; geyserRpcUrl := geyserRpcUrl w; geyserXToken := geyserXToken w;
     yellowstoneStream := yellowstoneStream w; subscriptions := m;
     isExecuting := isExecuting w; hasExecuted := hasExecuted w; trace := trace w |}.

Definition withIsExecuting (b : bool) (w : World) : World :=
  {| now := now w; geyserRpcUrl := geyserRpcUrl w; geyserXToken := geyserXToken w;
     yellowstoneStream := yellowstoneStream w; subscriptions := subscriptions w;
     isExecuting := b; hasExecuted := hasExecuted w; trace := trace w |}.

Definition withHasExecuted (b : bool) (w : World) : World :=
  {| now := now w; geyserRpcUrl := geyserRpcUrl w; geyserXToken := geyserXToken w;
     yellowstoneStream := yellowstoneStream w; subscriptions := subscriptions w;
     isExecuting := isExecuting w; hasExecuted := b; trace := trace w |}.

Definition withTrace (t : list Call) (w : World) : World :=
  {| now := now w; geyserRpcUrl := geyserRpcUrl w; geyserXToken := geyserXToken w;
     yellowstoneStream := yellowstoneStream w; subscriptions := subscriptions w;
     isExecuting := isExecuting w; hasExecuted := hasExecuted w; trace := t |}.

(** How a piece of code ends: it returns, it throws, or the process is
    gone ([process.exit(code)]), which no [catch] sees. *)
Inductive Out (A : Type) : Type :=
| Ret (a : A)
| Raise (e : Error)
| Exit (code : Z).
Arguments Ret {A} a.
Arguments Raise {A} e.
Arguments Exit {A} code.

Definition M (A : Type) : Type := Env -> World -> Out A * World.

Definition ret {A} (a : A) : M A := fun _ w => (Ret a, w).

Definition bind {A B} (c : M A) (k : A -> M B) : M B :=
  fun env w =>
    match c env w with
    | (Ret a, w') => k a env w'
    | (Raise e, w') => (Raise e, w')
    | (Exit n, w') => (Exit n, w')
    end.

Notation "'do' x <- c ;; k" := (bind c (fun x => k))
  (at level 10, x name, c at level 99, k at level 200).

Definition throw {A} (e : Error) : M A := fun _ w => (Raise e, w).

(** [process.exit(code)] *)
Definition exit {A} (code : Z) : M A := fun _ w => (Exit code, w).

(** [try { c } catch (e) { h e }] *)
Definition tryCatch {A} (c : M A) (h : Error -> M A) : M A :=
  fun env w =>
    match c env w with
    | (Raise e, w') => h e env w'
    | r => r
    end.

Definition modify (f : World -> World) : M unit := fun _ w => (Ret tt, f w).

(** An awaited call to the outside: it is appended to the trace and the
    environment's answer for its position is returned or thrown. *)
Definition call {A} (c : Call) (answer : Env -> nat -> Res A) : M A :=
  fun env w =>
    let w' := withTrace (trace w ++ [c]) w in
    match answer env (List.length (trace w)) with
    | Ok a => (Ret a, w')
    | Throw e => (Raise e, w')
    end.

(** [this.cache.baseMint!] followed by [baseMint.toBuffer()]: on a value
    that is not there the method read throws. *)
Definition unwrap {A} (o : option A) : M A :=
  match o with
  | Some a => ret a
  | None => throw (mkError "Cannot read properties of undefined (reading 'toBuffer')")
  end.

(** [getYellowstoneStream()] *)
Definition getYellowstoneStream : M Yellowstone.YellowstoneUnifiedStream :=
  fun _ w =>
    match yellowstoneStream w with
    | Some s => (Ret s, w)
    | None =>
        match geyserRpcUrl w with
        | Some rawEndpoint =>
            if String.eqb rawEndpoint ""
            then (Raise (mkError "GEYSER_RPC_URL is not configured"), w)
            else let s := Yellowstone.newStream rawEndpoint (geyserXToken w) in
                 (Ret s, withStream (Some s) w)
        | None => (Raise (mkError "GEYSER_RPC_URL is not configured"), w)
        end
    end.

(** [await getYellowstoneStream().stopStreaming()] *)
Definition stopStreaming : M unit :=
  do s <- getYellowstoneStream ;;
  modify (fun w =>
            let '(s', calls) := Yellowstone.stopStreaming s in
            withTrace (trace w ++ calls) (withStream (Some s') w)).

(** ** services/transactionExecutor.ts *)
Module Executor.

Record TxExecutorConfig := {
  cfg_skipPreflight : option bool;
  cfg_maxRetries : option Z;
  useGrpcBlockhash : option bool;
}.

Record Options := { o_skipPreflight : option bool; o_maxRetries : option Z }.

(** [a ?? b] *)
Definition nullish {A} (a : option A) (b : A) : A :=
  match a with Some x => x | None => b end.

Definition fetchBlockhash : M string :=
  do r <- call CGetLatestBlockhash rpc_getLatestBlockhash ;;
  ret (fst r).

Definition getBlockhash (config : TxExecutorConfig) : M string :=
  match useGrpcBlockhash config with
  | Some false => fetchBlockhash
  | _ =>
      do yellowstone <- getYellowstoneStream ;;
      match Yellowstone.getLatestBlockhash yellowstone with
      | Some cached =>
          if Yellowstone.isActive yellowstone then ret (fst cached)
          else fetchBlockhash
      | None => fetchBlockhash
      end
  end.

(** [tx.sign(signer)] / [tx.partialSign(...signers)]: the signatures the
    transaction carries after a call that did not throw. *)
Definition sign (tx : Transaction) (signers : list Keypair) : Transaction :=
  {| instructions := instructions tx; feePayer := feePayer tx;
     recentBlockhash := recentBlockhash tx;
     signatures :=
       match signers with
       | [one] => [publicKey one]
       | _ => signatures tx
              ++ List.filter
                   (fun k => negb (existsb (String.eqb k) (signatures tx)))
                   (List.map publicKey signers)
       end |}.

Definition stamp (blockhash : string) (tx : Transaction) : Transaction :=
  {| instructions := instructions tx; feePayer := feePayer tx;
     recentBlockhash := Some blockhash; signatures := signatures tx |}.

(** [if (signers.length === 1) tx.sign(signers[0]) else
    tx.partialSign(...signers)]: with no signer at all web3.js throws
    "No signers"; otherwise it throws or signs as the environment says.
    Nothing leaves the process. *)
Definition signing (tx : Transaction) (signers : list Keypair) : M Transaction :=
  fun env w =>
    match signers with
    | [] => (Raise (mkError "No signers"), w)
    | _ =>
        match tx_sign env tx signers with
        | Ok _ => (Ret (sign tx signers), w)
        | Throw e => (Raise e, w)
        end
    end.

(** [tx.serialize()], evaluated before the send is made. *)
Definition serialize (tx : Transaction) : M unit :=
  fun env w =>
    match tx_serialize env tx with
    | Ok _ => (Ret tt, w)
    | Throw e => (Raise e, w)
    end.

Definition sendAndSign (config : TxExecutorConfig) (tx : Transaction)
    (signers : list Keypair) (options : option Options) : M string :=
  do blockhash <- getBlockhash config ;;
  do tx' <- signing (stamp blockhash tx) signers ;;
  let sendOptions :=
    {| skipPreflight :=
         nullish (match options with Some o => o_skipPreflight o | None => None end)
           (nullish (cfg_skipPreflight config) false);
       maxRetries :=
         nullish (match options with Some o => o_maxRetries o | None => None end)
           (nullish (cfg_maxRetries config) 2%Z) |} in
  do _ <- serialize tx' ;;
  call (CSendRawTransaction tx' sendOptions)
       (fun env n => rpc_sendRawTransaction env n tx' sendOptions).

Definition sendClaim (config : TxExecutorConfig) (tx : Transaction)
    (wallet : Keypair) : M string :=
  sendAndSign config tx [wallet]
    (Some {| o_skipPreflight := Some false; o_maxRetries := Some 2%Z |}).

Definition sendPoolCreation (config : TxExecutorConfig) (tx : Transaction)
    (wallet positionNft : Keypair) : M string :=
  sendAndSign config tx [wallet; positionNft]
    (Some {| o_skipPreflight := Some true; o_maxRetries := Some 0%Z |}).

Definition sendAddLiquidity (config : TxExecutorConfig) (tx : Transaction)
    (wallet positionNft : Keypair) : M string :=
  do sig <- sendAndSign config tx [wallet; positionNft]
           (Some {| o_skipPreflight := Some false; o_maxRetries := None |}) ;;
  do _ <- call (CConfirmTransaction sig) (fun env n => rpc_confirmTransaction env n sig) ;;
  ret sig.

End Executor.

(** ** automation/poolCreator.ts: the two submission paths *)
Module PoolCreator.

Record PoolConfig := {
  tokenAmount : Z;
  solAmount : Z;
  solMint : PublicKey;
  dammV2ProgramId : PublicKey;
}.

(** What [preBuildTransaction] stores.  It assigns the seven fields of
    [this.cache] in one statement, so they are null together ([None]
    below) or set together. *)
Record Cache := {
  claimTx : Transaction;
  createPoolTx : Transaction;
  positionNft : Keypair;
  poolPda : PublicKey;
  positionPda : PublicKey;
  tokenAccount : PublicKey;
  baseMint : PublicKey;
}.

Record MetaDAOPoolCreator := {
  config : PoolConfig;
  wallet : Keypair;
  cache : option Cache;
}.

(** [new TransactionExecutor({ connection, useGrpcBlockhash: true })] *)
Definition txExecutor : Executor.TxExecutorConfig :=
  {| Executor.cfg_skipPreflight := None; Executor.cfg_maxRetries := None;
     Executor.useGrpcBlockhash := Some true |}.

(** [Buffer.compare(buf1, buf2) === 1] *)
Definition bufferGreater (buf1 buf2 : PublicKey) : bool :=
  match String.compare buf1 buf2 with Gt => true | _ => false end.

Definition depositParams (pc : MetaDAOPoolCreator) (poolState : PoolState)
    (isTokenA : bool) : DepositQuoteParams :=
  {| dq_inAmount := tokenAmount (config pc); dq_isTokenA := isTokenA;
     dq_minSqrtPrice := sqrtMinPrice poolState;
     dq_maxSqrtPrice := sqrtMaxPrice poolState;
     dq_sqrtPrice := sqrtPrice poolState |}.

Definition addLiquidityParams (pc : MetaDAOPoolCreator) (pool : PublicKey)
    (poolState : PoolState) (isTokenA : bool) (depositQuote : DepositQuote)
    (nft : Keypair) : AddLiquidityParams :=
  let maxTokenA := if isTokenA then tokenAmount (config pc) else outputAmount depositQuote in
  let maxTokenB := if isTokenA then outputAmount depositQuote else tokenAmount (config pc) in
  {| al_owner := publicKey (wallet pc); al_pool := pool;
     al_positionNft := publicKey nft;
     al_liquidityDelta := liquidityDelta depositQuote;
     al_maxAmountTokenA := maxTokenA; al_maxAmountTokenB := maxTokenB;
     al_tokenAAmountThreshold := maxTokenA; al_tokenBAmountThreshold := maxTokenB;
     al_tokenAMint := tokenAMint poolState; al_tokenBMint := tokenBMint poolState |}.

Definition withFeePayer (payer : PublicKey) (tx : Transaction) : Transaction :=
  {| instructions := instructions tx; feePayer := Some payer;
     recentBlockhash := recentBlockhash tx; signatures := signatures tx |}.

(** The pool address the fallback derives from the two mints. *)
Definition existingPoolPda (env : Env) (pc : MetaDAOPoolCreator) (baseMint : PublicKey)
  : PublicKey :=
  let buf1 := baseMint in
  let buf2 := solMint (config pc) in
  let firstKey := if bufferGreater buf1 buf2 then buf1 else buf2 in
  let secondKey := if bufferGreater buf1 buf2 then buf2 else buf1 in
  findProgramAddressSync env ["cpool"; firstKey; secondKey] (dammV2ProgramId (config pc)).

Definition addLiquidityToExistingPool (pc : MetaDAOPoolCreator) : M PoolCreationResult :=
  do c <- unwrap (cache pc) ;;
  let baseMint := baseMint c in
  fun env =>
  let poolPda := existingPoolPda env pc baseMint in
  (do poolState <- call (CFetchPoolState poolPda)
                    (fun env n => amm_fetchPoolState env n poolPda) ;;
   let isTokenA := String.eqb (tokenAMint poolState) baseMint in
   let depositQuote := getDepositQuote env (depositParams pc poolState isTokenA) in
   do positionNft <- call CKeypairGenerate (fun env n => Ok (keypair_generate env n)) ;;
   let params := addLiquidityParams pc poolPda poolState isTokenA depositQuote positionNft in
   do tx <- call (CCreatePositionAndAddLiquidity params)
              (fun env n => amm_createPositionAndAddLiquidity env n params) ;;
   do signature <- Executor.sendAddLiquidity txExecutor
                     (withFeePayer (publicKey (wallet pc)) tx) (wallet pc) positionNft ;;
   let positionPda :=
     findProgramAddressSync env ["position"; publicKey positionNft]
       (dammV2ProgramId (config pc)) in
   ret {| signature := signature; res_poolPda := poolPda;
          res_positionPda := positionPda;
          res_tokenAccount := Some (tokenAccount c);
          res_baseMint := baseMint |}) env.

Definition executeInstantFire (pc : MetaDAOPoolCreator) : M PoolCreationResult :=
  match cache pc with
  | None => throw (mkError "Call preBuildTransaction() first")
  | Some c =>
      do claimSig <- Executor.sendClaim txExecutor (claimTx c) (wallet pc) ;;
      do poolExists <- call (CGetAccountInfo (poolPda c))
                         (fun env n => rpc_getAccountInfo env n (poolPda c)) ;;
      if negb poolExists then
        do poolSig <- Executor.sendPoolCreation txExecutor (createPoolTx c)
                        (wallet pc) (positionNft c) ;;
        ret {| signature := poolSig; res_poolPda := poolPda c;
               res_positionPda := positionPda c;
               res_tokenAccount := Some (tokenAccount c);
               res_baseMint := baseMint c |}
      else addLiquidityToExistingPool pc
  end.

Definition executeInSingleSlot (pc : MetaDAOPoolCreator) : M PoolCreationResult :=
  executeInstantFire pc.

End PoolCreator.

(** ** automation/autoPool.ts *)
Module AutoPool.
Import Js.

Definition alreadyInUse (error : Error) : bool :=
  includes (message error) "already in use"
  || match logs error with
     | Some l => some (fun log => includes log "already in use") l
     | None => false
     end.

Definition cannotProceed (error : Error) : bool :=
  includes (message error) "already claimed"
  || includes (message error) "No funding record".

(** [this.hasExecuted = true; await getYellowstoneStream().stopStreaming();
    process.exit(code)] *)
Definition finish {A} (code : Z) : M A :=
  do _ <- modify (withHasExecuted true) ;;
  do _ <- stopStreaming ;;
  exit code.

(** The inner [try]: the cached payloads, and once more if that throws. *)
Definition primary (pc : PoolCreator.MetaDAOPoolCreator) : M PoolCreationResult :=
  tryCatch (PoolCreator.executeInstantFire pc)
    (fun _ => PoolCreator.executeInSingleSlot pc).

(** The outer [catch (error)] block. *)
Definition onError (pc : PoolCreator.MetaDAOPoolCreator) (error : Error) : M unit :=
  do _ <- (if alreadyInUse error then
             tryCatch
               (do result <- PoolCreator.addLiquidityToExistingPool pc ;;
                finish 0)
               (fun addLiqError => ret tt)
           else ret tt) ;;
  do _ <- (if cannotProceed error then finish 1 else ret tt) ;;
  modify (withIsExecuting false).

(** [execute] after its first statement. *)
Definition executeBody (pc : PoolCreator.MetaDAOPoolCreator) : M unit :=
  tryCatch
    (do result <- primary pc ;;
     finish 0)
    (onError pc).

Definition execute (pc : PoolCreator.MetaDAOPoolCreator) : M unit :=
  do _ <- modify (withIsExecuting true) ;;
  executeBody pc.

(** The conditions under which [handleTransaction] goes on to [execute]. *)
Definition accepts (txData : Yellowstone.YellowstoneTransactionData) : bool :=
  Parser.isCompleteLaunchTransaction
    (Parser.parseMetaDAOTransaction (Yellowstone.td_logs txData)).

Definition handleTransaction (pc : PoolCreator.MetaDAOPoolCreator)
    (txData : Yellowstone.YellowstoneTransactionData) : M unit :=
  fun env w =>
    if isExecuting w || hasExecuted w then (Ret tt, w)
    else if negb (accepts txData) then (Ret tt, w)
    else execute pc env w.

End AutoPool.

(** ** automation/autoLoyalPool.ts *)
Module AutoLoyalPool.
Import Js.

Record LogData := {
  ld_signature : string;
  ld_slot : Z;
  ld_err : option string;
  ld_logs : list string;
}.

(** [GeyserClient.unsubscribeAll]: one removal per subscription, failures
    logged and ignored, then the map is cleared. *)
Fixpoint removeAll (ids : list Z) : M unit :=
  match ids with
  | [] => ret tt
  | id :: rest =>
      do _ <- tryCatch
                (call (CRemoveListener id) (fun env n => rpc_removeListener env n id))
                (fun _ => ret tt) ;;
      removeAll rest
  end.

Definition unsubscribeAll : M unit :=
  fun env w =>
    (do _ <- removeAll (List.map snd (map_to_list (subscriptions w))) ;;
     modify (withSubscriptions ∅)) env w.

Definition cannotProceed (error : Error) : bool :=
  includes (message error) "already claimed"
  || includes (message error) "No funding record".

Definition finish {A} (code : Z) : M A :=
  do _ <- modify (withHasExecuted true) ;;
  do _ <- unsubscribeAll ;;
  exit code.

(** [executeClaimAndPoolCreation] after its first statement.  The pool
    creator's [executeInSingleSlot] is a call whose answer (a result or
    any thrown error) the environment chooses. *)
Definition executeBody : M unit :=
  tryCatch
    (do result <- call CLoyalExecuteInSingleSlot loyal_executeInSingleSlot ;;
     finish 0)
    (fun error =>
       do _ <- (if cannotProceed error then finish 1 else ret tt) ;;
       modify (withIsExecuting false)).

Definition executeClaimAndPoolCreation : M unit :=
  do _ <- modify (withIsExecuting true) ;;
  executeBody.

Definition truthyStr (o : option string) : bool := Yellowstone.truthyStr o.

(** The conditions under which [handleTransaction] goes on to execute;
    [target] is [this.targetLaunchPubkey.toBase58()]. *)
Definition accepts (target : string) (logData : LogData) : bool :=
  if negb (Geyser.isCompleteLaunchTransaction (ld_logs logData)) then false
  else if match ld_err logData with Some _ => true | None => false end then false
  else
    let launchPubkey := Geyser.extractLaunchPubkey (ld_logs logData) in
    if truthyStr launchPubkey
       && negb (String.eqb (match launchPubkey with Some p => p | None => "" end) target)
    then false
    else true.

Definition handleTransaction (target : string) (logData : LogData) : M unit :=
  fun env w =>
    if isExecuting w || hasExecuted w then (Ret tt, w)
    else if negb (Geyser.isCompleteLaunchTransaction (ld_logs logData)) then (Ret tt, w)
    else if match ld_err logData with Some _ => true | None => false end then (Ret tt, w)
    else
      let launchPubkey := Geyser.extractLaunchPubkey (ld_logs logData) in
      if truthyStr launchPubkey
         && negb (String.eqb (match launchPubkey with Some p => p | None => "" end) target)
      then (Ret tt, w)
      else executeClaimAndPoolCreation env w.

End AutoLoyalPool.

(** ** What the trigger detector is meant to compute *)
Module ParserSpec.
Import Js Parser.

(** [m] occurs in [text] when case is ignored: some stretch [w] of [text]
    lower-cases to [m]. *)
Definition occursIgnoringCase (m text : string) : Prop :=
  exists pre w post, text = pre +:+ w +:+ post /\ toLowerCase w = m.

(** A pattern list matches when one of its substrings occurs. *)
Definition patternMatches (p : Pattern) (text : string) : Prop :=
  exists m, In m (match_ p) /\ occursIgnoringCase m text.

(** First match in priority order, ["unknown"] when none matches. *)
Definition firstMatch (kind : string) (text : string) : Prop :=
  (exists i p,
      nth_error patterns i = Some p /\ kind = name p /\ patternMatches p text
      /\ forall j q, (j < i)%nat -> nth_error patterns j = Some q ->
                     ~ patternMatches q text)
  \/ (kind = "unknown" /\ forall p, In p patterns -> ~ patternMatches p text).

End ParserSpec.

(** ** Runs of the stream client and readings of the trace *)
Module StreamRun.
Import Yellowstone.

(** The client after a sequence of delivered frames, each with its
    arrival time; a frame on which the handler throws has written the
    cache before it does. *)
Definition feed (bs58 : string -> string) (frames : list (Z * Frame))
    (s : YellowstoneUnifiedStream) : YellowstoneUnifiedStream :=
  fold_left (fun s tf => fst (fst (onData bs58 (fst tf) (snd tf) s))) frames s.

(** The client after a sequence of [onTransaction] calls. *)
Definition register (regs : list (string * Callback)) (s : YellowstoneUnifiedStream)
  : YellowstoneUnifiedStream :=
  fold_left (fun s reg => onTransaction (fst reg) (snd reg) s) regs s.

(** A frame that carries only a block with a hash and a height. *)
Definition blockOnly (hash : string) (height : Z) : Frame :=
  {| f_block := Some {| b_blockhash := Some hash; b_blockHeight := HNum height;
                        b_slot := HUndefined |};
     f_blockMeta := None; f_transaction := None; f_slot := false |}.

(** The anchor a frame carries, if any: the block-meta one when both a
    block and a block-meta part have a hash. *)
Definition anchorOf (data : Frame) : option (string * Height) :=
  match f_blockMeta data, frameHash (f_blockMeta data) with
  | Some b, Some h =>
      Some (h, or_else (innerHeight (b_blockHeight b))
                 (or_else (b_blockHeight b) (or_else (b_slot b) (HNum 0))))
  | _, _ =>
      match f_block data, frameHash (f_block data) with
      | Some b, Some h =>
          Some (h, or_else (b_blockHeight b) (or_else (b_slot b) (HNum 0)))
      | _, _ => None
      end
  end.

End StreamRun.

(** The options of the sends in a trace. *)
Definition sends (t : list Call) : list SendOptions :=
  flat_map (fun c => match c with
                     | CSendRawTransaction _ opts => [opts]
                     | _ => []
                     end) t.

(** ** Event delivery interleaved with a suspended execution

    JavaScript runs each handler to its first [await] without
    interruption.  Both orchestrators reach that point inside [execute],
    right after [this.isExecuting = true]; what follows runs later, and
    further events may be delivered before it does.  The rest of
    [execute] writes the two flags only in its last statements, so an
    event delivered between two of its awaits meets the same flags as one
    delivered before it resumes: [Settle] runs the rest in one step. *)
Module Run.

Inductive Action (Event : Type) : Type :=
| Deliver (e : Event)      (* the stream hands an event to the handler *)
| Settle.                  (* a suspended execution runs to its end *)
Arguments Deliver {Event} e.
Arguments Settle {Event}.

Record RunState := {
  world : World;
  pending : nat;           (* executions suspended at their first await *)
  exited : option Z;       (* the exit code once the process is gone *)
  started : nat;           (* executions started so far *)
  recovered : nat;         (* executions that ended with both flags clear *)
}.

Definition start (w : World) : RunState :=
  {| world := w; pending := 0; exited := None; started := 0; recovered := 0 |}.

(** What the scheduler keeps true: at most one execution is suspended,
    the flag is up while it is, and every start beyond the executions
    that went back to monitoring is covered by a raised flag. *)
Definition guardInv (rs : RunState) : Prop :=
  (pending rs <= 1)%nat
  /\ (pending rs = 1%nat -> isExecuting (world rs) = true)
  /\ (started rs
      <= recovered rs
         + (if isExecuting (world rs) || hasExecuted (world rs) then 1 else 0))%nat.

Section Scheduler.
Variable Event : Type.
Variable accepts : Event -> bool.
Variable body : M unit.

(** The handler up to its first [await]: the new world and whether an
    execution was started. *)
Definition enter (e : Event) (w : World) : World * bool :=
  if isExecuting w || hasExecuted w then (w, false)
  else if negb (accepts e) then (w, false)
  else (withIsExecuting true w, true).

Definition flagsClear (w : World) : bool :=
  negb (isExecuting w || hasExecuted w).

Definition step (env : Env) (rs : RunState) (a : Action Event) : RunState :=
  match exited rs with
  | Some _ => rs
  | None =>
      match a with
      | Deliver e =>
          let '(w', st) := enter e (world rs) in
          {| world := w';
             pending := pending rs + (if st then 1 else 0);
             exited := None;
             started := started rs + (if st then 1 else 0);
             recovered := recovered rs |}
      | Settle =>
          match pending rs with
          | O => rs
          | S p =>
              let '(out, w') := body env (world rs) in
              {| world := w';
                 pending := p;
                 exited := match out with Exit c => Some c | _ => None end;
                 started := started rs;
                 recovered := recovered rs + (if flagsClear w' then 1 else 0) |}
          end
      end
  end.

Definition run (env : Env) (actions : list (Action Event)) (rs : RunState)
  : RunState :=
  fold_left (step env) actions rs.

End Scheduler.

Arguments enter {Event} accepts e w.
Arguments step {Event} accepts body env rs a.
Arguments run {Event} accepts body env actions rs.

End Run.

(** ** Concrete environments, worlds and events *)
Module Scenario.

Definition poolState : PoolState :=
  {| tokenAMint := "TokenMint"; tokenBMint := "So11"; sqrtMinPrice := 1;
     sqrtMaxPrice := 1000; sqrtPrice := 10 |}.

Definition builtTx (what : string) : Transaction :=
  {| instructions := [what]; feePayer := Some "Wallet";
     recentBlockhash := None; signatures := [] |}.

Definition inUse : Error :=
  {| message := "failed to send transaction";
     logs := Some ["Allocate: account Address { address: Pool } already in use"] |}.

(** Every call succeeds. *)
Definition calm : Env :=
  {| rpc_getLatestBlockhash := fun _ => Ok ("FreshHash", 200%Z);
     rpc_sendRawTransaction := fun _ _ _ => Ok "sig";
     rpc_confirmTransaction := fun _ _ => Ok tt;
     rpc_getAccountInfo := fun _ _ => Ok false;
     amm_fetchPoolState := fun _ _ => Ok poolState;
     amm_createPositionAndAddLiquidity := fun _ _ => Ok (builtTx "addLiquidity");
     keypair_generate := fun _ => {| publicKey := "FreshNft" |};
     rpc_removeListener := fun _ _ => Ok tt;
     loyal_executeInSingleSlot := fun _ =>
       Ok {| signature := "sig"; res_poolPda := "Pool"; res_positionPda := "Position";
             res_tokenAccount := Some "Ata"; res_baseMint := "TokenMint" |};
     findProgramAddressSync := fun seeds program => Js.join "/" (program :: seeds);
     getDepositQuote := fun q =>
       {| outputAmount := (dq_inAmount q * dq_sqrtPrice q)%Z;
          liquidityDelta := dq_inAmount q |};
     tx_sign := fun _ _ => Ok tt;
     tx_serialize := fun _ => Ok tt |}.

Definition withSend (f : nat -> Transaction -> SendOptions -> Res string) (e : Env) : Env :=
  {| rpc_getLatestBlockhash := rpc_getLatestBlockhash e;
     rpc_sendRawTransaction := f;
     rpc_confirmTransaction := rpc_confirmTransaction e;
     rpc_getAccountInfo := rpc_getAccountInfo e;
     amm_fetchPoolState := amm_fetchPoolState e;
     amm_createPositionAndAddLiquidity := amm_createPositionAndAddLiquidity e;
     keypair_generate := keypair_generate e;
     rpc_removeListener := rpc_removeListener e;
     loyal_executeInSingleSlot := loyal_executeInSingleSlot e;
     findProgramAddressSync := findProgramAddressSync e;
     getDepositQuote := getDepositQuote e;
     tx_sign := tx_sign e;
     tx_serialize := tx_serialize e |}.

Definition withConfirm (f : nat -> string -> Res unit) (e : Env) : Env :=
  {| rpc_getLatestBlockhash := rpc_getLatestBlockhash e;
     rpc_sendRawTransaction := rpc_sendRawTransaction e;
     rpc_confirmTransaction := f;
     rpc_getAccountInfo := rpc_getAccountInfo e;
     amm_fetchPoolState := amm_fetchPoolState e;
     amm_createPositionAndAddLiquidity := amm_createPositionAndAddLiquidity e;
     keypair_generate := keypair_generate e;
     rpc_removeListener := rpc_removeListener e;
     loyal_executeInSingleSlot := loyal_executeInSingleSlot e;
     findProgramAddressSync := findProgramAddressSync e;
     getDepositQuote := getDepositQuote e;
     tx_sign := tx_sign e;
     tx_serialize := tx_serialize e |}.

Definition withLoyal (f : nat -> Res PoolCreationResult) (e : Env) : Env :=
  {| rpc_getLatestBlockhash := rpc_getLatestBlockhash e;
     rpc_sendRawTransaction := rpc_sendRawTransaction e;
     rpc_confirmTransaction := rpc_confirmTransaction e;
     rpc_getAccountInfo := rpc_getAccountInfo e;
     amm_fetchPoolState := amm_fetchPoolState e;
     amm_createPositionAndAddLiquidity := amm_createPositionAndAddLiquidity e;
     keypair_generate := keypair_generate e;
     rpc_removeListener := rpc_removeListener e;
     loyal_executeInSingleSlot := f;
     findProgramAddressSync := findProgramAddressSync e;
     getDepositQuote := getDepositQuote e;
     tx_sign := tx_sign e;
     tx_serialize := tx_serialize e |}.

Definition withSign (f : Transaction -> list Keypair -> Res unit) (e : Env) : Env :=
  {| rpc_getLatestBlockhash := rpc_getLatestBlockhash e;
     rpc_sendRawTransaction := rpc_sendRawTransaction e;
     rpc_confirmTransaction := rpc_confirmTransaction e;
     rpc_getAccountInfo := rpc_getAccountInfo e;
     amm_fetchPoolState := amm_fetchPoolState e;
     amm_createPositionAndAddLiquidity := amm_createPositionAndAddLiquidity e;
     keypair_generate := keypair_generate e;
     rpc_removeListener := rpc_removeListener e;
     loyal_executeInSingleSlot := loyal_executeInSingleSlot e;
     findProgramAddressSync := findProgramAddressSync e;
     getDepositQuote := getDepositQuote e;
     tx_sign := f;
     tx_serialize := tx_serialize e |}.

(** The transactions do not list the position key "Nft" among their
    accounts: signing with it throws. *)
Definition unknownNft : Env :=
  withSign (fun _ signers =>
              if existsb (fun k => String.eqb (publicKey k) "Nft") signers
              then Throw (mkError "unknown signer: Nft")
              else Ok tt)
    calm.

(** The pool-creation send (the one that skips pre-flight) fails because
    the pool address is taken; every other call succeeds. *)
Definition poolTaken : Env :=
  withSend (fun _ _ opts => if skipPreflight opts then Throw inUse else Ok "sig") calm.

(** As [poolTaken], and confirming the add-liquidity send times out. *)
Definition poolTakenConfirmTimeout : Env :=
  withConfirm (fun _ _ => Throw (mkError "Transaction was not confirmed in 30.00 seconds"))
    poolTaken.

(** No send gets through. *)
Definition offline : Env :=
  withSend (fun _ _ _ => Throw (mkError "fetch failed")) calm.

(** A stream whose cache was last written at time 0 and which is active. *)
Definition activeStream : Yellowstone.YellowstoneUnifiedStream :=
  Yellowstone.onTransaction "completeLaunch" Yellowstone.CbHandleTransaction
    (Yellowstone.setBlockhash
       {| Yellowstone.endpoint := "grpc.example:443"; Yellowstone.xToken := None;
          Yellowstone.stream := Some 1%nat; Yellowstone.latestBlockhash := None;
          Yellowstone.latestBlockHeight := Yellowstone.HNum 0;
          Yellowstone.blockhashLastUpdate := 0; Yellowstone.isStreaming := false;
          Yellowstone.txCallbacks := ∅ |}
       "CachedHash" (Yellowstone.HNum 100) 0 true).

(** Monitoring, ten seconds after the cache was written. *)
Definition monitoring : World :=
  {| now := 10000; geyserRpcUrl := Some "grpc.example:443"; geyserXToken := None;
     yellowstoneStream := Some activeStream;
     subscriptions := {[ "logs:Launchpad" := 7%Z ]};
     isExecuting := false; hasExecuted := false; trace := [] |}.

Definition creator : PoolCreator.MetaDAOPoolCreator :=
  {| PoolCreator.config :=
       {| PoolCreator.tokenAmount := 1000000000; PoolCreator.solAmount := 100000000;
          PoolCreator.solMint := "So11"; PoolCreator.dammV2ProgramId := "Damm" |};
     PoolCreator.wallet := {| publicKey := "Wallet" |};
     PoolCreator.cache :=
       Some {| PoolCreator.claimTx := builtTx "claim";
               PoolCreator.createPoolTx := builtTx "createPool";
               PoolCreator.positionNft := {| publicKey := "Nft" |};
               PoolCreator.poolPda := "Pool"; PoolCreator.positionPda := "Position";
               PoolCreator.tokenAccount := "Ata"; PoolCreator.baseMint := "TokenMint" |} |}.

Definition completeLaunchTx : Yellowstone.YellowstoneTransactionData :=
  {| Yellowstone.td_signature := "sig1"; Yellowstone.td_slot := 42;
     Yellowstone.td_accounts := [];
     Yellowstone.td_logs := ["Program log: Instruction: CompleteLaunch"];
     Yellowstone.td_err := None |}.

Definition completeLaunchLog : AutoLoyalPool.LogData :=
  {| AutoLoyalPool.ld_signature := "sig1"; AutoLoyalPool.ld_slot := 42;
     AutoLoyalPool.ld_err := None;
     AutoLoyalPool.ld_logs := ["Program log: Instruction: CompleteLaunch"] |}.

Definition target : string := "9xQeWvG816bUx9EPjHmaT23yvVM2ZWbrrpZb9PusVFin".

Definition otherLaunchLog : AutoLoyalPool.LogData :=
  {| AutoLoyalPool.ld_signature := "sig2"; AutoLoyalPool.ld_slot := 43;
     AutoLoyalPool.ld_err := None;
     AutoLoyalPool.ld_logs :=
       ["Program log: Instruction: CompleteLaunch";
        "Program log: Launch: So11111111111111111111111111111111111111112"] |}.

(** The first claim goes through and the pool creation finds the address
    taken; on the second try the claim is refused. *)
Definition poolTakenClaimGone : Env :=
  withSend (fun n _ opts =>
              if skipPreflight opts then Throw inUse
              else if (n =? 0)%nat then Ok "sig"
              else Throw (mkError "Transaction simulation failed: Tokens already claimed"))
    calm.

Definition claimedAndInUse : Error :=
  {| message := "Transaction simulation failed: Tokens already claimed";
     logs := Some ["Create Account: account Address { address: Ata } already in use"] |}.

(** The claim is refused with an error that also reports an address in
    use; every other call succeeds. *)
Definition claimRefused : Env :=
  withSend (fun _ tx _ =>
              match instructions tx with
              | [i] => if String.eqb i "claim" then Throw claimedAndInUse else Ok "sig"
              | _ => Ok "sig"
              end)
    calm.

(** The Loyal pool creator finds the tokens claimed. *)
Definition loyalClaimed : Env :=
  withLoyal (fun _ => Throw (mkError "Tokens already claimed!")) calm.

(** The world once [execute] has raised the flag. *)
Definition executing : World := withIsExecuting true monitoring.

End Scenario.

(** ** services/geyserClient.ts: the subscription registry

    [connection.onLogs] and its siblings register with the connection
    and hand back a number at once; that number is an argument here. *)
Module GeyserClient.

Definition programKey (address : string) : string := "program:" +:+ address.
Definition logsKey (address : string) : string := "logs:" +:+ address.
Definition signatureKey (sig : string) : string := "signature:" +:+ sig.

(** [this.subscriptions.set(key, subscriptionId); return subscriptionId] *)
Definition subscribe (key : string) (subscriptionId : Z) : M Z :=
  do _ <- modify (fun w => withSubscriptions (<[key := subscriptionId]> (subscriptions w)) w) ;;
  ret subscriptionId.

Definition subscribeToAccount (pubkey : string) (subscriptionId : Z) : M Z :=
  subscribe pubkey subscriptionId.

Definition subscribeToProgramAccounts (pubkey : string) (subscriptionId : Z) : M Z :=
  subscribe (programKey pubkey) subscriptionId.

Definition subscribeToLogs (addressStr : string) (subscriptionId : Z) : M Z :=
  subscribe (logsKey addressStr) subscriptionId.

Definition subscribeToSignature (sig : string) (subscriptionId : Z) : M Z :=
  subscribe (signatureKey sig) subscriptionId.

Definition unsubscribe (key : string) : M bool :=
  fun env w =>
    match subscriptions w !! key with
    | Some subscriptionId =>
        (do _ <- call (CRemoveListener subscriptionId)
                   (fun env n => rpc_removeListener env n subscriptionId) ;;
         do _ <- modify (fun w => withSubscriptions (delete key (subscriptions w)) w) ;;
         ret true) env w
    | None => (Ret false, w)
    end.

Definition unsubscribeAll : M unit := AutoLoyalPool.unsubscribeAll.

Definition getActiveSubscriptionsCount (w : World) : nat := size (subscriptions w).

(** [parseMetaDAOTransaction] and [parseDAMMTransaction] of this file. *)
Record ParsedFields := {
  pf_isCompleteLaunch : bool;
  pf_launchPubkey : option string;
}.

Record ParsedTransactionData := {
  isMetaDAOTx : bool;
  isDAMMTx : bool;
  p_logs : list string;
  parsed : option ParsedFields;      (* [None] is the empty object *)
}.

(** The [for (const log of logs)] loop with its [break]. *)
Fixpoint findLaunch (logs : list string) : option string :=
  match logs with
  | [] => None
  | log :: rest =>
      match Geyser.search Geyser.reLaunch log with
      | Some c => Some c
      | None => findLaunch rest
      end
  end.

Definition parseMetaDAOTransaction (logs : list string) : ParsedTransactionData :=
  let metadaoLogs :=
    List.filter (fun log => Js.includes log "Program meta"
                            || Js.includes log "MetaDAO"
                            || Js.includes log "Conditional") logs in
  let isCompleteLaunch :=
    Js.some (fun log => Js.includes log "Instruction: CompleteLaunch"
                        || Js.includes log "complete_launch"
                        || Js.includes log "CompleteLaunch") logs in
  let launchPubkey := if isCompleteLaunch then findLaunch logs else None in
  {| isMetaDAOTx := (0 <? List.length metadaoLogs)%nat;
     isDAMMTx := false;
     p_logs := metadaoLogs;
     parsed := Some {| pf_isCompleteLaunch := isCompleteLaunch;
                       pf_launchPubkey := launchPubkey |} |}.

Definition parseDAMMTransaction (logs : list string) : ParsedTransactionData :=
  let dammLogs :=
    List.filter (fun log => Js.includes log "Program damm"
                            || Js.includes log "DAMM"
                            || Js.includes log "Position") logs in
  {| isMetaDAOTx := false;
     isDAMMTx := (0 <? List.length dammLogs)%nat;
     p_logs := dammLogs;
     parsed := None |}.

End GeyserClient.

(** Every character of a string passes a test. *)
Fixpoint allChars (f : ascii -> bool) (s : string) : bool :=
  match s with
  | EmptyString => true
  | String c s' => f c && allChars f s'
  end.

(** The shape of a captured launch id. *)
Definition wellFormedId (c : string) : Prop :=
  (32 <= String.length c <= 44)%nat /\ allChars Geyser.isBase58_i c = true.

(** ** services/yellowstoneGrpc.ts: starting the stream, and the endpoint *)
Module StreamStart.
Import Yellowstone.

(** [startUnifiedStream] on the client's fields.  [subscribe] is how
    loading the client and [client.subscribe()] end, [grpc] how
    [client.getLatestBlockhash] ends (its answer may lack a blockhash),
    [rpc] how the fallback [connection.getLatestBlockhash] ends; no frame
    arrives before the function returns.  The result carries whether a
    refresh timer was started; a throw leaves the fields as they were. *)
Definition startUnifiedStream (now : Z) (subscribe : Res nat)
    (grpc : Res (option (string * Z))) (rpc : Res (string * Z))
    (s : YellowstoneUnifiedStream) : Res (YellowstoneUnifiedStream * bool) :=
  if isStreaming s then Ok (s, false)
  else if String.eqb (endpoint s) "" then
    Throw (mkError "GEYSER_RPC_URL required for gRPC streaming")
  else
    match subscribe with
    | Throw error => Throw error
    | Ok handle =>
        let s1 :=
          {| endpoint := endpoint s; xToken := xToken s; stream := Some handle;
             latestBlockhash := latestBlockhash s;
             latestBlockHeight := latestBlockHeight s;
             blockhashLastUpdate := blockhashLastUpdate s;
             isStreaming := isStreaming s; txCallbacks := txCallbacks s |} in
        match grpc with
        | Ok (Some (blockhash, lastValidBlockHeight)) =>
            if truthyStr (Some blockhash)
            then Ok (setBlockhash s1 blockhash (HNum lastValidBlockHeight) now true, true)
            else Ok (s1, false)
        | Ok None => Ok (s1, false)
        | Throw _ =>
            Ok (fetchBlockhashFromSlot now rpc s1,
                match rpc with
                | Ok _ => negb (isStreaming s1)
                | Throw _ => false
                end)
        end
    end.

Definition protocols : list string := ["grpc://"; "https://"; "http://"].

(** [endpoint.replace(/^(grpc:\/\/|https:\/\/|http:\/\/)/, '')] *)
Fixpoint stripProtocol (ps : list string) (endpoint : string) : string :=
  match ps with
  | [] => endpoint
  | p :: rest =>
      match Geyser.lit false p endpoint with
      | Some r => r
      | None => stripProtocol rest endpoint
      end
  end.

(** [endpoint.replace(/\/$/, '')] *)
Fixpoint stripTrailingSlash (endpoint : string) : string :=
  match endpoint with
  | EmptyString => EmptyString
  | String c rest =>
      match rest with
      | EmptyString => if Ascii.eqb c "/" then EmptyString else endpoint
      | String _ _ => String c (stripTrailingSlash rest)
      end
  end.

Definition parseGrpcEndpoint (endpoint : string) : string :=
  if String.eqb endpoint "" then endpoint
  else stripTrailingSlash (stripProtocol protocols endpoint).

(** The client after a stream error followed by [n] timer refreshes, each
    with its time and the answer of its RPC call. *)
Definition refreshes (ticks : list (Z * Res (string * Z)))
    (s : YellowstoneUnifiedStream) : YellowstoneUnifiedStream :=
  fold_left (fun s tr => blockhashRefresh (fst tr) (snd tr) s) ticks s.

End StreamStart.

(** ** services/transactionExecutor.ts: the fan-out *)
Module FanOut.

(** One endpoint of [sendToMultipleRPCs]: a failure becomes [null]. *)
Definition sendOne (send : string -> string -> SendOptions -> Res string)
    (rawTx endpoint : string) : option string :=
  match send endpoint rawTx {| skipPreflight := true; maxRetries := 0 |} with
  | Ok sig => Some sig
  | Throw _ => None
  end.

(** [send endpoint rawTx options] is how [sendRawTransaction] on a fresh
    connection to that endpoint ends.  Fulfilled, truthy values are kept,
    in the order of the endpoints. *)
Definition sendToMultipleRPCs (send : string -> string -> SendOptions -> Res string)
    (rawTx : string) (endpoints : list string) : list string :=
  List.map (fun v => match v with Some sig => sig | None => "" end)
    (List.filter Yellowstone.truthyStr (List.map (sendOne send rawTx) endpoints)).

End FanOut.

(** ** index.ts of the pool sniper *)
Module Main.

Record Config := {
  walletPrivateKey : option string;
  keypairPath : option string;
}.

(** [validateConfig]: no entry in [errors]. *)
Definition validateConfig (config : Config) : bool :=
  Yellowstone.truthyStr (walletPrivateKey config).

(** [main]; [showInfo] and [startAutoPool] are the two awaited calls. *)
Definition main (command : option string) (config : Config)
    (showInfo startAutoPool : M unit) : M unit :=
  if match command with Some c => String.eqb c "help" | None => false end then ret tt
  else if negb (validateConfig config) then exit 1
  else
    tryCatch
      (if match command with Some c => String.eqb c "info" | None => false end
       then showInfo else startAutoPool)
      (fun error => exit 1).

End Main.

(** ** services/connection.ts *)
Module Connection.

(** [getWallet]; [fromSecretKey] stands for
    [Keypair.fromSecretKey(bs58.decode(_))]. *)
Definition getWallet (fromSecretKey : string -> Res Keypair) (config : Main.Config)
  : Res Keypair :=
  if negb (Yellowstone.truthyStr (Main.walletPrivateKey config))
  then Throw (mkError "Wallet private key not configured")
  else
    match fromSecretKey (match Main.walletPrivateKey config with
                         | Some key => key
                         | None => ""
                         end) with
    | Ok keypair => Ok keypair
    | Throw error => Throw (mkError ("Failed to load wallet: " +:+ message error))
    end.

End Connection.

(** ** services/streamTransactions.ts *)
Module StreamTransactions.

(** [streamMetaDAOTransactions] up to the point where it waits; the
    three numbers are what the connection hands back for the three
    registrations. *)
Definition streamMetaDAOTransactions (metaDAOProgramId dammV2ProgramId : PublicKey)
    (id1 id2 id3 : Z) : M unit :=
  do _ <- GeyserClient.subscribeToLogs metaDAOProgramId id1 ;;
  do _ <- GeyserClient.subscribeToLogs dammV2ProgramId id2 ;;
  do _ <- GeyserClient.subscribeToProgramAccounts metaDAOProgramId id3 ;;
  ret tt.

(** The [SIGINT] handler. *)
Definition onSigint : M unit :=
  do _ <- GeyserClient.unsubscribeAll ;;
  exit 0.

End StreamTransactions.

(** ** What the submission paths leave alone *)

(** A computation that, in environment [env], never ends the process and
    leaves the two flags, an existing stream singleton and the
    subscriptions as they are. *)
Definition quiet {A} (env : Env) (c : M A) : Prop :=
  forall w out w',
    c env w = (out, w') ->
    (forall code, out <> Exit code)
    /\ isExecuting w' = isExecuting w
    /\ hasExecuted w' = hasExecuted w
    /\ subscriptions w' = subscriptions w
    /\ (forall s, yellowstoneStream w = Some s -> yellowstoneStream w' = Some s).

(** The claim, the pool creation and the add-liquidity options. *)
Definition claimOptions : SendOptions := {| skipPreflight := false; maxRetries := 2 |}.
Definition poolOptions : SendOptions := {| skipPreflight := true; maxRetries := 0 |}.

(** How a computation ended and what it sent: [sentBy w r l] says that
    the sends in the trace of [r] are those of [w] followed by [l]. *)
Definition sentBy {A} (w : World) (r : Out A * World) (l : list SendOptions) : Prop :=
  sends (trace (snd r)) = List.app (sends (trace w)) l.

Definition returned {A} (r : Out A * World) : Prop := exists a, fst r = Ret a.
Definition threw {A} (r : Out A * World) : Prop := exists e, fst r = Raise e.

(** [sendAndSign]'s [sendOptions]. *)
Definition sendOptionsOf (config : Executor.TxExecutorConfig)
    (options : option Executor.Options) : SendOptions :=
  {| skipPreflight :=
       Executor.nullish
         (match options with Some o => Executor.o_skipPreflight o | None => None end)
         (Executor.nullish (Executor.cfg_skipPreflight config) false);
     maxRetries :=
       Executor.nullish
         (match options with Some o => Executor.o_maxRetries o | None => None end)
         (Executor.nullish (Executor.cfg_maxRetries config) 2%Z) |}.

(** The two ways an execution of the pool sniper ends when the stream
    singleton [s] exists: the process exits, or the handler returns. *)
Definition exitedOrReturned (s : Yellowstone.YellowstoneUnifiedStream) (w : World)
    (r : Out unit * World) : Prop :=
  ((fst r = Exit 0 \/ fst r = Exit 1)
   /\ hasExecuted (snd r) = true
   /\ yellowstoneStream (snd r) = Some (fst (Yellowstone.stopStreaming s)))
  \/ (fst r = Ret tt
      /\ isExecuting (snd r) = false
      /\ hasExecuted (snd r) = hasExecuted w
      /\ yellowstoneStream (snd r) = Some s).

(** * Properties *)

Local Open Scope list_scope.

Example extract_none :
  Geyser.extractLaunchPubkey ["Program log: Instruction: CompleteLaunch"] = None.
Proof. reflexivity. Qed.

Example extract_launch :
  Geyser.extractLaunchPubkey
    ["Program log: launch:  9xQeWvG816bUx9EPjHmaT23yvVM2ZWbrrpZb9PusVFin done"]
  = Some "9xQeWvG816bUx9EPjHmaT23yvVM2ZWbrrpZb9PusVFin".
Proof. reflexivity. Qed.

Example extract_account :
  Geyser.extractLaunchPubkey
    ["x"; "account #12: So11111111111111111111111111111111111111112"]
  = Some "So11111111111111111111111111111111111111112".
Proof. reflexivity. Qed.

Example extract_short :
  Geyser.extractLaunchPubkey ["Launch: abc"] = None.
Proof. reflexivity. Qed.

Example lower_mixed : Js.toLowerCase "Instruction: FUND #1" = "instruction: fund #1".
Proof. reflexivity. Qed.

Example join_lines : Js.join " " ["a"; "b"; "c"] = "a b c".
Proof. reflexivity. Qed.

Example includes_inner : Js.includes "Program log: refund" "fund" = true.
Proof. reflexivity. Qed.

Example includes_absent : Js.includes "Program log: claim" "fund" = false.
Proof. reflexivity. Qed.

(** Under the [i] flag the capture class also takes [O], [I] and [l]. *)
Example extract_ignore_case :
  Geyser.extractLaunchPubkey ["LAUNCH:OIl11111111111111111111111111111112"]
  = Some "OIl11111111111111111111111111111112".
Proof. reflexivity. Qed.

(** Without the flag they end the capture, here before 32 characters. *)
Example extract_case_sensitive :
  Geyser.extractLaunchPubkey ["account #1: OIl11111111111111111111111111111112"] = None.
Proof. reflexivity. Qed.

(** At most 44 characters are captured. *)
Example extract_44 :
  Geyser.extractLaunchPubkey
    ["launch account: 11111111111111111111111111111111111111111111AAAA"]
  = Some "11111111111111111111111111111111111111111111".
Proof. reflexivity. Qed.

Example block_height_falls_back_to_slot :
  Yellowstone.getLatestBlockhash
    (fst (fst (Yellowstone.onData (fun x => x) 5
                 {| Yellowstone.f_block :=
                      Some {| Yellowstone.b_blockhash := Some "h";
                              Yellowstone.b_blockHeight := Yellowstone.HUndefined;
                              Yellowstone.b_slot := Yellowstone.HNum 77 |};
                    Yellowstone.f_blockMeta := None;
                    Yellowstone.f_transaction := None;
                    Yellowstone.f_slot := false |}
                 (Yellowstone.newStream "grpc.example:443" None))))
  = Some ("h", Yellowstone.HNum 77).
Proof. reflexivity. Qed.

Example empty_hash_is_skipped :
  Yellowstone.getLatestBlockhash
    (fst (fst (Yellowstone.onData (fun x => x) 5
                 {| Yellowstone.f_block :=
                      Some {| Yellowstone.b_blockhash := Some "";
                              Yellowstone.b_blockHeight := Yellowstone.HNum 3;
                              Yellowstone.b_slot := Yellowstone.HUndefined |};
                    Yellowstone.f_blockMeta := None;
                    Yellowstone.f_transaction := None;
                    Yellowstone.f_slot := false |}
                 (Yellowstone.newStream "grpc.example:443" None))))
  = None.
Proof. reflexivity. Qed.

(** The end-to-end scenario: one completeLaunch event, both cached
    payloads go out and the process exits with 0. *)
Example end_to_end :
  let r := AutoPool.handleTransaction Scenario.creator Scenario.completeLaunchTx
             Scenario.calm Scenario.monitoring in
  fst r = Exit 0
  /\ sends (trace (snd r))
     = [ {| skipPreflight := false; maxRetries := 2 |};
         {| skipPreflight := true; maxRetries := 0 |} ]
  /\ hasExecuted (snd r) = true.
Proof. vm_compute. repeat split; reflexivity. Qed.

(** ** Strings *)
Section StringFacts.
Import Js.

(** String append, unfolded on constructors. *)
Ltac sapp := cbv [String.append]; fold String.append.
Ltac sapp_in H := cbv [String.append] in H; fold String.append in H.

Lemma app_assoc_str (a b c : string) : (a +:+ b) +:+ c = a +:+ (b +:+ c).
Proof. induction a as [|x a IH]; sapp; [reflexivity | now rewrite IH]. Qed.

Lemma prefix_split (m s : string) :
  String.prefix m s = true <-> exists post, s = m +:+ post.
Proof.
  revert s. induction m as [|a m IH]; intros s.
  - split; [intros _; now exists s | intros _; now destruct s].
  - destruct s as [|c s]; simpl.
    + split; [discriminate | intros [post H]; sapp_in H; discriminate].
    + destruct (Ascii.ascii_dec a c) as [->|Hne].
      * rewrite IH. split; intros [post H]; exists post; sapp;
          [now rewrite H | sapp_in H; now inversion H].
      * split; [discriminate | intros [post H]; sapp_in H; inversion H; congruence].
Qed.

Lemma includes_unfold (s m : string) :
  includes s m
  = String.prefix m s
    || match s with
       | EmptyString => false
       | String _ s' => includes s' m
       end.
Proof. destruct s; reflexivity. Qed.

Lemma includes_split (s m : string) :
  includes s m = true <-> exists pre post, s = pre +:+ m +:+ post.
Proof.
  split.
  - induction s as [|c s IH]; rewrite includes_unfold, orb_true_iff; intros [H|H].
    + apply prefix_split in H as [post ->]. now exists EmptyString, post.
    + discriminate.
    + apply prefix_split in H as [post H]. rewrite H. now exists EmptyString, post.
    + destruct (IH H) as (pre & post & ->). now exists (String c pre), post.
  - intros (pre & post & ->). induction pre as [|c pre IH]; sapp.
    + rewrite includes_unfold.
      replace (String.prefix m (m +:+ post)) with true; [reflexivity|].
      symmetry. apply prefix_split. now exists post.
    + rewrite includes_unfold, IH. apply orb_true_r.
Qed.

(** Dropping the first character of the needle keeps it included. *)
Lemma includes_tail (s : string) (c : ascii) (m : string) :
  includes s (String c m) = true -> includes s m = true.
Proof.
  rewrite !includes_split. intros (pre & post & ->).
  exists (pre +:+ String c EmptyString), post.
  rewrite app_assoc_str. now sapp.
Qed.

Lemma toLowerCase_app (a b : string) :
  toLowerCase (a +:+ b) = toLowerCase a +:+ toLowerCase b.
Proof. induction a as [|x a IH]; sapp; simpl; [reflexivity | now rewrite IH]. Qed.

Lemma toLowerCase_app_inv (a b s : string) :
  toLowerCase s = a +:+ b ->
  exists sa sb, s = sa +:+ sb /\ toLowerCase sa = a /\ toLowerCase sb = b.
Proof.
  revert s. induction a as [|x a IH]; intros s H; sapp_in H.
  - now exists EmptyString, s.
  - destruct s as [|c s]; simpl in H; [discriminate|].
    inversion H as [[Hc Hs]].
    destruct (IH s Hs) as (sa & sb & -> & Ha & Hb).
    exists (String c sa), sb. sapp. simpl. now rewrite Ha.
Qed.

Lemma includes_lower_iff (text m : string) :
  includes (toLowerCase text) m = true <-> ParserSpec.occursIgnoringCase m text.
Proof.
  rewrite includes_split. unfold ParserSpec.occursIgnoringCase. split.
  - intros (pre & post & H).
    apply toLowerCase_app_inv in H as (spre & rest & -> & _ & H).
    apply toLowerCase_app_inv in H as (w & spost & -> & Hw & _).
    now exists spre, w, spost.
  - intros (pre & w & post & -> & <-).
    exists (toLowerCase pre), (toLowerCase post).
    now rewrite !toLowerCase_app.
Qed.

End StringFacts.

(** ** The trigger detector *)
Section ParserFacts.
Import Js Parser ParserSpec.

Lemma some_matches (p : Pattern) (text : string) :
  some (fun m => includes (toLowerCase text) m) (match_ p) = true
  <-> patternMatches p text.
Proof.
  unfold some, patternMatches. rewrite existsb_exists.
  split; intros (m & Hin & H); exists m; (split; [exact Hin|]);
    now apply includes_lower_iff.
Qed.

(** The loop returns the name of the first pattern of [ps] that matches. *)
Lemma scan_first (text : string) (ps : list Pattern) :
  (exists i p,
      nth_error ps i = Some p /\ scan (toLowerCase text) ps = name p
      /\ patternMatches p text
      /\ forall j q, (j < i)%nat -> nth_error ps j = Some q -> ~ patternMatches q text)
  \/ (scan (toLowerCase text) ps = "unknown"
      /\ forall p, In p ps -> ~ patternMatches p text).
Proof.
  induction ps as [|p ps IH]; simpl.
  - right. split; [reflexivity | intros p []].
  - destruct (some (fun m => includes (toLowerCase text) m) (match_ p)) eqn:Hp.
    + left. exists 0%nat, p. repeat split; try reflexivity.
      * now apply some_matches.
      * intros j q Hj. lia.
    + assert (Hno : ~ patternMatches p text).
      { intros H. apply some_matches in H. congruence. }
      destruct IH as [(i & q & Hi & Hs & Hm & Hfirst) | [Hu Hnone]].
      * left. exists (S i), q. repeat split; try assumption.
        intros [|j] r Hj Hr; simpl in Hr.
        -- now inversion Hr; subst.
        -- apply (Hfirst j r); [lia | assumption].
      * right. split; [assumption|].
        intros r [<-|Hr]; [assumption | now apply Hnone].
Qed.

End ParserFacts.

(** C7. For every list of log lines, [detectInstruction] returns the name
    of the first pattern list, in the fixed priority order, one of whose
    substrings occurs in the joined log text when case is ignored, and
    ["unknown"] when none does; it is a function of its input alone, so
    repeated calls on the same lines give the same kind. *)
Theorem detectInstruction_first_match (logs : list string) :
  ParserSpec.firstMatch (Parser.detectInstruction logs) (Js.join " " logs)
  /\ In (Parser.detectInstruction logs)
       ("unknown" :: List.map Parser.name Parser.patterns)
  /\ forall n : nat,
       List.map Parser.detectInstruction (repeat logs n)
       = repeat (Parser.detectInstruction logs) n.
Proof.
  unfold ParserSpec.firstMatch, Parser.detectInstruction.
  pose proof (scan_first (Js.join " " logs) Parser.patterns) as H.
  split; [|split].
  - destruct H as [(i & p & Hi & Hs & Hm & Hf) | [Hu Hn]].
    + left. exists i, p. now rewrite Hs.
    + right. now rewrite Hu.
  - destruct H as [(i & p & Hi & Hs & _) | [Hu _]].
    + right. rewrite Hs. apply in_map. eapply nth_error_In; eassumption.
    + left. now rewrite Hu.
  - intros n. induction n as [|n IH]; simpl; [reflexivity | now f_equal].
Qed.

(** C10. [detectInstruction] never returns ["refund"]: every text that
    includes "refund" includes "fund", and the 'fund' list is tried first. *)
Theorem detectInstruction_never_refund (logs : list string) :
  Parser.detectInstruction logs <> "refund".
Proof.
  unfold Parser.detectInstruction, Parser.patterns, Parser.scan, Js.some.
  cbn [Parser.match_ Parser.name existsb].
  set (t := Js.toLowerCase (Js.join " " logs)).
  assert (Hfund : Js.includes t "refund" = true -> Js.includes t "fund" = true).
  { intros E. apply includes_tail in E. now apply includes_tail in E. }
  repeat match goal with
         | |- context [Js.includes t ?m] =>
             let E := fresh "E" in destruct (Js.includes t m) eqn:E; cbn [orb]
         end; try discriminate.
  specialize (Hfund eq_refl). discriminate.
Qed.

(** ** The stream client *)
Section StreamFacts.
Import Yellowstone StreamRun.

Lemma stopStreaming_stopped (s : YellowstoneUnifiedStream) :
  stopStreaming (fst (stopStreaming s)) = (fst (stopStreaming s), []).
Proof. reflexivity. Qed.

Lemma frameHash_truthy (b : option BlockFrame) (h : string) :
  frameHash b = Some h -> truthyStr (Some h) = true.
Proof.
  unfold frameHash. destruct b as [b|]; [|discriminate].
  destruct (truthyStr (b_blockhash b)) eqn:E; [|discriminate].
  intros H. now rewrite H in E.
Qed.

(** The client state after a frame does not depend on the transaction
    part of the frame. *)
Lemma onData_state (bs58 : string -> string) (t : Z) (data : Frame)
    (s : YellowstoneUnifiedStream) :
  fst (fst (onData bs58 t data s)) = onBlockMeta t data (onBlock t data s).
Proof. unfold onData. now destruct (f_transaction data) as [[tf|]|]. Qed.

(** One frame: an anchor it carries replaces the stored one, whatever
    the stored height is. *)
Lemma onData_anchor (bs58 : string -> string) (t : Z) (data : Frame)
    (s : YellowstoneUnifiedStream) (a : string * Height) :
  anchorOf data = Some a ->
  getLatestBlockhash (fst (fst (onData bs58 t data s))) = Some a
  /\ blockhashLastUpdate (fst (fst (onData bs58 t data s))) = t.
Proof.
  rewrite ?onData_state. unfold anchorOf, onBlockMeta, onBlock.
  destruct (f_blockMeta data) as [bm|] eqn:Em.
  - destruct (frameHash (Some bm)) as [hm|] eqn:Ehm.
    + intros [= <-]. unfold getLatestBlockhash.
      destruct (f_block data) as [b|]; [destruct (frameHash (Some b))|];
        cbn; pose proof (frameHash_truthy _ _ Ehm) as Ht; cbn in Ht; now rewrite Ht.
    + destruct (f_block data) as [b|]; [|discriminate].
      destruct (frameHash (Some b)) as [h|] eqn:Eh; [|discriminate].
      intros [= <-]. unfold getLatestBlockhash. cbn.
      pose proof (frameHash_truthy _ _ Eh) as Ht; cbn in Ht; now rewrite Ht.
  - destruct (f_block data) as [b|]; [|discriminate].
    destruct (frameHash (Some b)) as [h|] eqn:Eh; [|discriminate].
    intros [= <-]. unfold getLatestBlockhash. cbn.
    pose proof (frameHash_truthy _ _ Eh) as Ht; cbn in Ht; now rewrite Ht.
Qed.

Lemma feed_app bs58 (xs ys : list (Z * Frame)) (s : YellowstoneUnifiedStream) :
  feed bs58 (xs ++ ys) s = feed bs58 ys (feed bs58 xs s).
Proof. unfold feed. apply fold_left_app. Qed.

End StreamFacts.

(** The same through the singleton: once [stopStreaming] has returned,
    a second call returns in the same world. *)
Lemma stopStreaming_twice (env : Env) (w w1 : World) :
  stopStreaming env w = (Ret tt, w1) -> stopStreaming env w1 = (Ret tt, w1).
Proof.
  unfold stopStreaming, bind, modify, getYellowstoneStream.
  destruct (yellowstoneStream w) as [s|].
  - intros [= <-]. cbn. now rewrite app_nil_r.
  - destruct (geyserRpcUrl w) as [u|]; [destruct (String.eqb u "")|];
      try discriminate.
    intros [= <-]. cbn. now rewrite app_nil_r.
Qed.

(** C9. Stopping ends the subscription when one is open, with one call
    to [stream.end()], and none otherwise; it drops the handle, clears
    the listeners and leaves the client inactive, while the endpoint,
    the token and the cached blockhash stay as they were.  Stopping
    twice leaves the client as stopping once does, and the second call
    closes nothing: over the two calls an open subscription is ended
    exactly once. *)
Theorem stopStreaming_idempotent (s : Yellowstone.YellowstoneUnifiedStream) :
  let once := fst (Yellowstone.stopStreaming s) in
  let twice := fst (Yellowstone.stopStreaming once) in
  twice = once
  /\ snd (Yellowstone.stopStreaming once) = []
  /\ Yellowstone.stream once = None
  /\ Yellowstone.txCallbacks once = ∅
  /\ Yellowstone.isStreaming once = false
  /\ Yellowstone.isActive once = false
  /\ snd (Yellowstone.stopStreaming s)
     = match Yellowstone.stream s with Some _ => [CStreamEnd] | None => [] end
  /\ snd (Yellowstone.stopStreaming s) ++ snd (Yellowstone.stopStreaming once)
     = match Yellowstone.stream s with Some _ => [CStreamEnd] | None => [] end
  /\ Yellowstone.endpoint once = Yellowstone.endpoint s
  /\ Yellowstone.xToken once = Yellowstone.xToken s
  /\ Yellowstone.latestBlockhash once = Yellowstone.latestBlockhash s
  /\ Yellowstone.latestBlockHeight once = Yellowstone.latestBlockHeight s
  /\ Yellowstone.getLatestBlockhash once = Yellowstone.getLatestBlockhash s
  /\ Yellowstone.blockhashLastUpdate once = Yellowstone.blockhashLastUpdate s.
Proof.
  cbv zeta. repeat split; try reflexivity.
  cbn. now destruct (Yellowstone.stream s).
Qed.

(** C2, as the code has it.  The cache is last-writer-wins by arrival:
    whatever frames came before and whatever height is stored, a frame
    that carries an anchor makes [getLatestBlockhash] return that anchor,
    captured at the frame's arrival time. *)
Theorem freshness_cache_last_writer_wins
    (bs58 : string -> string) (s : Yellowstone.YellowstoneUnifiedStream)
    (frames : list (Z * Yellowstone.Frame)) (t : Z) (data : Yellowstone.Frame)
    (a : string * Yellowstone.Height) :
  StreamRun.anchorOf data = Some a ->
  Yellowstone.getLatestBlockhash (StreamRun.feed bs58 (frames ++ [(t, data)]) s) = Some a
  /\ Yellowstone.blockhashLastUpdate (StreamRun.feed bs58 (frames ++ [(t, data)]) s) = t.
Proof.
  intros Ha. rewrite feed_app. cbn [StreamRun.feed fold_left fst snd].
  now apply onData_anchor.
Qed.

(** The ceilings 10, 7, 15 and then 12: the cache holds 12. *)
Lemma freshness_cache_last_writer_wins_witness :
  Yellowstone.getLatestBlockhash
    (StreamRun.feed (fun x => x)
       (List.app [(1, StreamRun.blockOnly "h10" 10); (2, StreamRun.blockOnly "h7" 7);
                  (3, StreamRun.blockOnly "h15" 15)]
                 [(4, StreamRun.blockOnly "h12" 12)])%Z
       (Yellowstone.newStream "grpc.example:443" None))
  = Some ("h12", Yellowstone.HNum 12)
  /\ Yellowstone.blockhashLastUpdate
       (StreamRun.feed (fun x => x)
          (List.app [(1, StreamRun.blockOnly "h10" 10); (2, StreamRun.blockOnly "h7" 7);
                     (3, StreamRun.blockOnly "h15" 15)]
                    [(4, StreamRun.blockOnly "h12" 12)])%Z
          (Yellowstone.newStream "grpc.example:443" None))
     = 4%Z.
Proof.
  apply (freshness_cache_last_writer_wins (fun x => x)
           (Yellowstone.newStream "grpc.example:443" None)
           [(1, StreamRun.blockOnly "h10" 10); (2, StreamRun.blockOnly "h7" 7);
            (3, StreamRun.blockOnly "h15" 15)]%Z
           4%Z (StreamRun.blockOnly "h12" 12) ("h12", Yellowstone.HNum 12)).
  reflexivity.
Defined.

(** C2 as stated fails: after the ceilings 10, 7, 15, 12 the cache does
    not hold the anchor with ceiling 15. *)
Lemma freshness_cache_regresses :
  Yellowstone.getLatestBlockhash
    (StreamRun.feed (fun x => x)
       [(1, StreamRun.blockOnly "h10" 10); (2, StreamRun.blockOnly "h7" 7);
        (3, StreamRun.blockOnly "h15" 15); (4, StreamRun.blockOnly "h12" 12)]%Z
       (Yellowstone.newStream "grpc.example:443" None))
  <> Some ("h15", Yellowstone.HNum 15).
Proof. vm_compute. discriminate. Qed.

(** ** The transaction executor *)
Section ExecutorFacts.
Import Executor.

Lemma sends_app (t u : list Call) : sends (t ++ u) = sends t ++ sends u.
Proof. unfold sends. apply flat_map_app. Qed.

Lemma fetchBlockhash_run (env : Env) (w : World) :
  fetchBlockhash env w
  = (match rpc_getLatestBlockhash env (List.length (trace w)) with
     | Ok r => Ret (fst r)
     | Throw e => Raise e
     end,
     withTrace (trace w ++ [CGetLatestBlockhash]) w).
Proof.
  unfold fetchBlockhash, bind, call, ret.
  now destruct (rpc_getLatestBlockhash env (List.length (trace w))).
Qed.

(** [getBlockhash] sends nothing. *)
Lemma getBlockhash_sends (config : TxExecutorConfig) (env : Env) (w : World) :
  sends (trace (snd (getBlockhash config env w))) = sends (trace w).
Proof.
  assert (F : forall w0, sends (trace (snd (fetchBlockhash env w0))) = sends (trace w0)).
  { intros w0. rewrite fetchBlockhash_run. cbn. rewrite sends_app. cbn.
    apply app_nil_r. }
  unfold getBlockhash.
  assert (G : sends (trace (snd
              ((do yellowstone <- getYellowstoneStream ;;
                match Yellowstone.getLatestBlockhash yellowstone with
                | Some cached =>
                    if Yellowstone.isActive yellowstone then ret (fst cached)
                    else fetchBlockhash
                | None => fetchBlockhash
                end) env w))) = sends (trace w)).
  { unfold bind, getYellowstoneStream.
    destruct (yellowstoneStream w) as [s|].
    - destruct (Yellowstone.getLatestBlockhash s); [destruct (Yellowstone.isActive s)|];
        try apply F; reflexivity.
    - destruct (geyserRpcUrl w) as [u|]; [destruct (String.eqb u "")|]; try reflexivity.
      destruct (Yellowstone.getLatestBlockhash _);
        [destruct (Yellowstone.isActive _)|]; try (rewrite F); reflexivity. }
  destruct (useGrpcBlockhash config) as [[|]|]; try exact G. apply F.
Qed.

(** Signing and serializing leave the world as it is. *)
Lemma signing_cases (tx : Transaction) (signers : list Keypair) (env : Env) (w : World) :
  (exists e, signing tx signers env w = (Raise e, w))
  \/ signing tx signers env w = (Ret (sign tx signers), w).
Proof.
  unfold signing. destruct signers as [|k ks]; [left; eauto|].
  destruct (tx_sign env tx (k :: ks)); [now right | left; eauto].
Qed.

Lemma serialize_cases (tx : Transaction) (env : Env) (w : World) :
  (exists e, serialize tx env w = (Raise e, w))
  \/ serialize tx env w = (Ret tt, w).
Proof. unfold serialize. destruct (tx_serialize env tx) as [[]|e]; [now right | left; eauto]. Qed.

(** A send with fixed options: exactly one transaction goes out, with
    the options the call names, when a blockhash is at hand and the
    transaction signs and serializes; otherwise nothing goes out.  The
    executor's own configuration plays no part. *)
Lemma sendAndSign_options (config : TxExecutorConfig) (tx : Transaction)
    (signers : list Keypair) (sp : bool) (mr : Z) (env : Env) (w : World) :
  exists sent,
    sends (trace (snd (sendAndSign config tx signers
                         (Some {| o_skipPreflight := Some sp; o_maxRetries := Some mr |})
                         env w)))
    = sends (trace w) ++ sent
    /\ (sent = [] \/ sent = [{| skipPreflight := sp; maxRetries := mr |}])
    /\ (sent <> []
        <-> exists h w1 tx',
              getBlockhash config env w = (Ret h, w1)
              /\ signing (stamp h tx) signers env w1 = (Ret tx', w1)
              /\ serialize tx' env w1 = (Ret tt, w1)).
Proof.
  unfold sendAndSign. unfold bind at 1.
  pose proof (getBlockhash_sends config env w) as Hs.
  destruct (getBlockhash config env w) as [[h|e|c] w1] eqn:E; cbn [snd] in *.
  - unfold bind at 1.
    destruct (signing_cases (stamp h tx) signers env w1) as [[e He]|He]; rewrite He.
    + exists []. rewrite app_nil_r. split; [exact Hs|]. split; [now left|].
      split; [congruence|]. intros (h' & w' & tx' & [= <- <-] & H & _). congruence.
    + unfold bind at 1.
      destruct (serialize_cases (sign (stamp h tx) signers) env w1) as [[e He']|He'];
        rewrite He'.
      * exists []. rewrite app_nil_r. split; [exact Hs|]. split; [now left|].
        split; [congruence|].
        intros (h' & w' & tx' & [= <- <-] & H & H'). rewrite He in H.
        injection H as <-. congruence.
      * exists [{| skipPreflight := sp; maxRetries := mr |}].
        unfold call, nullish. cbn.
        split; [|split].
        -- destruct (rpc_sendRawTransaction env _ _ _); cbn;
             rewrite sends_app, Hs; reflexivity.
        -- now right.
        -- split; [|discriminate]. intros _. exists h, w1, (sign (stamp h tx) signers).
           now repeat split.
  - exists []. rewrite app_nil_r. split; [exact Hs|]. split; [now left|].
    split; [congruence|]. intros (h' & w' & tx' & H & _). discriminate.
  - exists []. rewrite app_nil_r. split; [exact Hs|]. split; [now left|].
    split; [congruence|]. intros (h' & w' & tx' & H & _). discriminate.
Qed.

End ExecutorFacts.

(** C6. Whatever the executor's configuration, a claim goes out with
    pre-flight validation on and two retries, and a pool creation with
    pre-flight skipped and no retry.  Each is at most one send, and it is
    made exactly when a blockhash is at hand and the transaction, stamped
    with it, is signed and serialized without an error: a transaction
    that web3.js refuses to sign or to serialize is never sent. *)
Theorem executor_per_kind_policy (config : Executor.TxExecutorConfig)
    (tx : Transaction) (wallet positionNft : Keypair) (env : Env) (w : World) :
  (exists sent,
      sends (trace (snd (Executor.sendClaim config tx wallet env w)))
      = sends (trace w) ++ sent
      /\ (sent = [] \/ sent = [{| skipPreflight := false; maxRetries := 2 |}])
      /\ (sent <> []
          <-> exists h w1 tx',
                Executor.getBlockhash config env w = (Ret h, w1)
                /\ Executor.signing (Executor.stamp h tx) [wallet] env w1 = (Ret tx', w1)
                /\ Executor.serialize tx' env w1 = (Ret tt, w1)))
  /\ (exists sent,
      sends (trace (snd (Executor.sendPoolCreation config tx wallet positionNft env w)))
      = sends (trace w) ++ sent
      /\ (sent = [] \/ sent = [{| skipPreflight := true; maxRetries := 0 |}])
      /\ (sent <> []
          <-> exists h w1 tx',
                Executor.getBlockhash config env w = (Ret h, w1)
                /\ Executor.signing (Executor.stamp h tx) [wallet; positionNft] env w1
                   = (Ret tx', w1)
                /\ Executor.serialize tx' env w1 = (Ret tt, w1))).
Proof.
  split; [apply (sendAndSign_options config tx [wallet] false 2)
         | apply (sendAndSign_options config tx [wallet; positionNft] true 0)].
Qed.

(** A transaction that cannot be signed is not sent, although a
    blockhash is at hand; neither is one that comes without signers. *)
Example unsigned_transaction_is_not_sent :
  let wallet := {| publicKey := "Wallet" |} in
  let r := Executor.sendPoolCreation PoolCreator.txExecutor
             (Scenario.builtTx "createPool") wallet {| publicKey := "Nft" |}
             Scenario.unknownNft Scenario.monitoring in
  fst (Executor.getBlockhash PoolCreator.txExecutor Scenario.unknownNft
         Scenario.monitoring) = Ret "CachedHash"
  /\ fst r = Raise (mkError "unknown signer: Nft")
  /\ sends (trace (snd r)) = []
  /\ sends (trace (snd (Executor.sendClaim PoolCreator.txExecutor
                          (Scenario.builtTx "claim") wallet
                          Scenario.unknownNft Scenario.monitoring)))
     = [{| skipPreflight := false; maxRetries := 2 |}].
Proof. vm_compute. repeat split; reflexivity. Qed.

Example no_signers_is_not_sent :
  let r := Executor.sendAndSign PoolCreator.txExecutor (Scenario.builtTx "claim") []
             None Scenario.calm Scenario.monitoring in
  fst r = Raise (mkError "No signers") /\ sends (trace (snd r)) = [].
Proof. vm_compute. split; reflexivity. Qed.

Section BlockhashFacts.
Import Executor.

Lemma getBlockhash_with_stream (config : TxExecutorConfig) (env : Env) (w : World)
    (s : Yellowstone.YellowstoneUnifiedStream) :
  yellowstoneStream w = Some s ->
  getBlockhash config env w
  = match useGrpcBlockhash config with
    | Some false => fetchBlockhash env w
    | _ => if Yellowstone.isActive s
           then (Ret (match Yellowstone.latestBlockhash s with
                      | Some h => h
                      | None => ""
                      end), w)
           else fetchBlockhash env w
    end.
Proof.
  intros Hs. unfold getBlockhash.
  assert (G : (do yellowstone <- getYellowstoneStream ;;
               match Yellowstone.getLatestBlockhash yellowstone with
               | Some cached =>
                   if Yellowstone.isActive yellowstone then ret (fst cached)
                   else fetchBlockhash
               | None => fetchBlockhash
               end) env w
              = if Yellowstone.isActive s
                then (Ret (match Yellowstone.latestBlockhash s with
                           | Some h => h
                           | None => ""
                           end), w)
                else fetchBlockhash env w).
  { unfold bind, getYellowstoneStream. rewrite Hs.
    unfold Yellowstone.getLatestBlockhash, Yellowstone.isActive.
    destruct (Yellowstone.latestBlockhash s) as [h|]; cbn.
    - destruct (negb (h =? "")%string); cbn.
      + now destruct (Yellowstone.isStreaming s).
      + now rewrite andb_false_r.
    - now rewrite andb_false_r. }
  destruct (useGrpcBlockhash config) as [[|]|]; auto.
Qed.

End BlockhashFacts.

(** C3, as the code has it.  With the stream singleton in place,
    [getBlockhash] returns the cached blockhash whenever the stream is
    active and the executor was not built with [useGrpcBlockhash: false],
    without any call and whatever the age of the cache; otherwise it makes
    one [getLatestBlockhash] call and returns (or throws) its answer. *)
Theorem getBlockhash_reuses_at_any_age (config : Executor.TxExecutorConfig)
    (env : Env) (w : World) (s : Yellowstone.YellowstoneUnifiedStream) :
  yellowstoneStream w = Some s ->
  (Executor.useGrpcBlockhash config <> Some false ->
   Yellowstone.isActive s = true ->
   exists h, Yellowstone.latestBlockhash s = Some h
             /\ Executor.getBlockhash config env w = (Ret h, w))
  /\ (Executor.useGrpcBlockhash config = Some false
      \/ Yellowstone.isActive s = false ->
      Executor.getBlockhash config env w
      = (match rpc_getLatestBlockhash env (List.length (trace w)) with
         | Ok r => Ret (fst r)
         | Throw e => Raise e
         end,
         withTrace (trace w ++ [CGetLatestBlockhash]) w)).
Proof.
  intros Hs. rewrite (getBlockhash_with_stream config env w s Hs). split.
  - intros Hcfg Hact. rewrite Hact.
    unfold Yellowstone.isActive in Hact. apply andb_true_iff in Hact as [_ Ht].
    destruct (Yellowstone.latestBlockhash s) as [h|]; [|discriminate].
    exists h. split; [reflexivity|].
    destruct (Executor.useGrpcBlockhash config) as [[|]|]; congruence.
  - rewrite <- fetchBlockhash_run. intros [Hcfg|Hact].
    + now rewrite Hcfg.
    + rewrite Hact. now destruct (Executor.useGrpcBlockhash config) as [[|]|].
Qed.

Lemma getBlockhash_reuses_at_any_age_witness :
  (exists h, Yellowstone.latestBlockhash Scenario.activeStream = Some h
             /\ Executor.getBlockhash PoolCreator.txExecutor Scenario.calm
                  Scenario.monitoring = (Ret h, Scenario.monitoring))
  /\ Executor.getBlockhash
       {| Executor.cfg_skipPreflight := None; Executor.cfg_maxRetries := None;
          Executor.useGrpcBlockhash := Some false |}
       Scenario.calm Scenario.monitoring
     = (Ret "FreshHash",
        withTrace [CGetLatestBlockhash] Scenario.monitoring).
Proof.
  split.
  - apply (getBlockhash_reuses_at_any_age PoolCreator.txExecutor Scenario.calm
             Scenario.monitoring Scenario.activeStream); [reflexivity | discriminate | reflexivity].
  - apply (getBlockhash_reuses_at_any_age
             {| Executor.cfg_skipPreflight := None; Executor.cfg_maxRetries := None;
                Executor.useGrpcBlockhash := Some false |}
             Scenario.calm Scenario.monitoring Scenario.activeStream);
      [reflexivity | now left].
Defined.

(** C3 as stated fails: the cache is ten seconds old, the bound is five,
    the stream is active, and [getBlockhash] still hands out the cached
    value without fetching. *)
Lemma getBlockhash_stale_reuse :
  Yellowstone.getBlockhashAge (now Scenario.monitoring) Scenario.activeStream = 10000%Z
  /\ (5000 < 10000)%Z
  /\ Yellowstone.isActive Scenario.activeStream = true
  /\ Executor.getBlockhash PoolCreator.txExecutor Scenario.calm Scenario.monitoring
     = (Ret "CachedHash", Scenario.monitoring)
  /\ ~ In CGetLatestBlockhash
         (trace (snd (Executor.getBlockhash PoolCreator.txExecutor Scenario.calm
                        Scenario.monitoring))).
Proof.
  split; [reflexivity|]. split; [lia|]. split; [reflexivity|].
  split; [reflexivity|]. intros [].
Qed.

(** ** The reentrancy guard *)
Section SchedulerFacts.
Import Run.
Variable Event : Type.
Variable accepts : Event -> bool.
Variable body : M unit.

Lemma enter_guarded (e : Event) (w : World) :
  isExecuting w || hasExecuted w = true -> enter accepts e w = (w, false).
Proof. unfold enter. now intros ->. Qed.

Lemma enter_accepts (e : Event) (w : World) :
  isExecuting w = false -> hasExecuted w = false -> accepts e = true ->
  enter accepts e w = (withIsExecuting true w, true).
Proof. unfold enter. now intros -> -> ->. Qed.

Lemma step_guardInv (env : Env) (rs : RunState) (a : Action Event) :
  guardInv rs -> guardInv (step accepts body env rs a).
Proof.
  intros H. pose proof H as (Hp & Hflag & Hs). unfold step.
  destruct (exited rs); [exact H|].
  destruct a as [e|].
  - unfold enter.
    destruct (isExecuting (world rs) || hasExecuted (world rs)) eqn:Hg.
    + unfold guardInv; cbn. rewrite Hg, !Nat.add_0_r. now repeat split.
    + destruct (negb (accepts e)).
      * unfold guardInv; cbn. rewrite Hg, !Nat.add_0_r.
        repeat split; [assumption | assumption | lia].
      * assert (pending rs = 0)%nat as Hz.
        { apply orb_false_iff in Hg as [Hg _].
          destruct (pending rs) as [|[|n]]; [reflexivity| |lia].
          specialize (Hflag eq_refl). congruence. }
        unfold guardInv; cbn. rewrite Hz. repeat split; lia.
  - destruct (pending rs) as [|p] eqn:Hpe; [exact H|].
    destruct (body env (world rs)) as [out w'].
    unfold guardInv, flagsClear; cbn.
    assert (started rs <= recovered rs + 1)%nat
      by (destruct (isExecuting (world rs) || hasExecuted (world rs)); lia).
    destruct (isExecuting w') eqn:Hx, (hasExecuted w'); cbn;
      repeat split; try lia; congruence.
Qed.

Lemma run_guardInv (env : Env) (actions : list (Action Event)) (rs : RunState) :
  guardInv rs -> guardInv (run accepts body env actions rs).
Proof.
  revert rs. induction actions as [|a actions IH]; intros rs H; [exact H|].
  apply IH. now apply step_guardInv.
Qed.

(** Starts never outnumber the recoveries by more than one. *)
Lemma run_started_bound (env : Env) (actions : list (Action Event)) (w : World) :
  (started (run accepts body env actions (start w))
   <= 1 + recovered (run accepts body env actions (start w)))%nat.
Proof.
  assert (H : guardInv (start w)) by (unfold guardInv; cbn; repeat split; lia).
  apply (run_guardInv env actions) in H. destruct H as (_ & _ & H).
  destruct (_ || _) in H; lia.
Qed.

Lemma run_cons (env : Env) (a : Action Event) (actions : list (Action Event))
    (rs : RunState) :
  run accepts body env (a :: actions) rs
  = run accepts body env actions (step accepts body env rs a).
Proof. reflexivity. Qed.

(** While the flag is up, deliveries change nothing. *)
Lemma run_deliveries_guarded (env : Env) (events : list Event) (rs : RunState) :
  isExecuting (world rs) = true ->
  run accepts body env (List.map Deliver events) rs = rs.
Proof.
  intros Hx. induction events as [|e events IH]; [reflexivity|].
  cbn [List.map]. rewrite run_cons.
  replace (step accepts body env rs (Deliver e)) with rs; [exact IH|].
  unfold step. destruct (exited rs) eqn:Hex; [reflexivity|].
  rewrite enter_guarded by now rewrite Hx.
  destruct rs; cbn in *. rewrite !Nat.add_0_r. now subst.
Qed.

(** A burst of accepted events starts exactly one execution: the first. *)
Lemma run_burst (env : Env) (e : Event) (events : list Event) (w : World) :
  isExecuting w = false -> hasExecuted w = false -> accepts e = true ->
  run accepts body env (List.map Deliver (e :: events)) (start w)
  = {| world := withIsExecuting true w; pending := 1; exited := None;
       started := 1; recovered := 0 |}.
Proof.
  intros Hx Hh He. cbn [List.map]. rewrite run_cons.
  replace (step accepts body env (start w) (Deliver e))
    with {| world := withIsExecuting true w; pending := 1; exited := None;
            started := 1; recovered := 0 |}.
  - now apply run_deliveries_guarded.
  - unfold step, start. cbn [exited world pending started recovered].
    now rewrite (enter_accepts e w Hx Hh He).
Qed.

End SchedulerFacts.

Section HandlerFacts.

(** The two handlers are the guard, the acceptance test and the body. *)
Lemma AutoPool_handle_split (pc : PoolCreator.MetaDAOPoolCreator)
    (txData : Yellowstone.YellowstoneTransactionData) (env : Env) (w : World) :
  AutoPool.handleTransaction pc txData env w
  = let '(w', st) := Run.enter AutoPool.accepts txData w in
    if st then AutoPool.executeBody pc env w' else (Ret tt, w').
Proof.
  unfold AutoPool.handleTransaction, Run.enter.
  destruct (isExecuting w || hasExecuted w); [reflexivity|].
  now destruct (negb (AutoPool.accepts txData)).
Qed.

Lemma AutoLoyalPool_handle_split (target : string) (logData : AutoLoyalPool.LogData)
    (env : Env) (w : World) :
  AutoLoyalPool.handleTransaction target logData env w
  = let '(w', st) := Run.enter (AutoLoyalPool.accepts target) logData w in
    if st then AutoLoyalPool.executeBody env w' else (Ret tt, w').
Proof.
  unfold AutoLoyalPool.handleTransaction, Run.enter, AutoLoyalPool.accepts.
  destruct (isExecuting w || hasExecuted w); [reflexivity|].
  destruct (negb (Geyser.isCompleteLaunchTransaction _)); [reflexivity|].
  destruct (AutoLoyalPool.ld_err logData); [reflexivity|].
  now destruct (AutoLoyalPool.truthyStr _ && _).
Qed.

End HandlerFacts.

(** C1, as the code has it.  In both orchestrators an event delivered
    while [isExecuting] or [hasExecuted] is set changes nothing; of a
    burst of accepted events delivered to a monitoring orchestrator
    before the execution settles, the first starts the execution and the
    others are ignored; over a whole run, with executions settling in
    between, the executions started exceed by at most one those that
    ended with both flags cleared again. *)
Theorem one_execution_per_arming
    (pc : PoolCreator.MetaDAOPoolCreator) (target : string) (env : Env) :
  (forall w txData logData,
      isExecuting w || hasExecuted w = true ->
      AutoPool.handleTransaction pc txData env w = (Ret tt, w)
      /\ AutoLoyalPool.handleTransaction target logData env w = (Ret tt, w))
  /\ (forall w txData more,
         isExecuting w = false -> hasExecuted w = false ->
         AutoPool.accepts txData = true ->
         Run.run AutoPool.accepts (AutoPool.executeBody pc) env
           (List.map Run.Deliver (txData :: more)) (Run.start w)
         = {| Run.world := withIsExecuting true w; Run.pending := 1;
              Run.exited := None; Run.started := 1; Run.recovered := 0 |})
  /\ (forall w logData more,
         isExecuting w = false -> hasExecuted w = false ->
         AutoLoyalPool.accepts target logData = true ->
         Run.run (AutoLoyalPool.accepts target) AutoLoyalPool.executeBody env
           (List.map Run.Deliver (logData :: more)) (Run.start w)
         = {| Run.world := withIsExecuting true w; Run.pending := 1;
              Run.exited := None; Run.started := 1; Run.recovered := 0 |})
  /\ (forall w actions,
         let rs := Run.run AutoPool.accepts (AutoPool.executeBody pc) env actions
                     (Run.start w) in
         (Run.started rs <= 1 + Run.recovered rs)%nat)
  /\ (forall w actions,
         let rs := Run.run (AutoLoyalPool.accepts target) AutoLoyalPool.executeBody
                     env actions (Run.start w) in
         (Run.started rs <= 1 + Run.recovered rs)%nat).
Proof.
  split; [|split; [|split; [|split]]].
  - intros w txData logData Hg.
    rewrite AutoPool_handle_split, AutoLoyalPool_handle_split.
    now rewrite !enter_guarded.
  - intros w txData more. apply run_burst.
  - intros w logData more. apply run_burst.
  - intros w actions. apply run_started_bound.
  - intros w actions. apply run_started_bound.
Qed.

Lemma one_execution_per_arming_witness :
  AutoPool.handleTransaction Scenario.creator Scenario.completeLaunchTx Scenario.calm
    (withIsExecuting true Scenario.monitoring)
  = (Ret tt, withIsExecuting true Scenario.monitoring)
  /\ Run.started
       (Run.run AutoPool.accepts (AutoPool.executeBody Scenario.creator) Scenario.calm
          (List.map Run.Deliver
             [Scenario.completeLaunchTx; Scenario.completeLaunchTx;
              Scenario.completeLaunchTx])
          (Run.start Scenario.monitoring)) = 1%nat.
Proof.
  destruct (one_execution_per_arming Scenario.creator Scenario.target Scenario.calm)
    as (Hguard & Hburst & _).
  split.
  - apply (Hguard (withIsExecuting true Scenario.monitoring)
             Scenario.completeLaunchTx Scenario.completeLaunchLog). reflexivity.
  - rewrite (Hburst Scenario.monitoring Scenario.completeLaunchTx
               [Scenario.completeLaunchTx; Scenario.completeLaunchTx]);
      reflexivity.
Defined.

(** C1 as stated fails: when the first attempt ends in an error that is
    neither of the two fatal ones, the flag is lowered and the next
    accepted event starts a second execution. *)
Lemma second_execution_after_recovery :
  Run.started
    (Run.run AutoPool.accepts (AutoPool.executeBody Scenario.creator) Scenario.offline
       [Run.Deliver Scenario.completeLaunchTx; Run.Settle;
        Run.Deliver Scenario.completeLaunchTx]
       (Run.start Scenario.monitoring))
  = 2%nat.
Proof. vm_compute. reflexivity. Qed.

(** ** Correlation ids *)
Section CorrelationFacts.
Import Geyser.

Lemma capture_nonempty (ci : bool) (s c : string) :
  capture ci s = Some c -> c <> EmptyString.
Proof.
  unfold capture.
  generalize (takeUpTo 44 (if ci then isBase58_i else isBase58) (fst (run isSpace s))).
  intros c0. destruct (32 <=? String.length c0)%nat eqn:E; [|discriminate].
  intros H Hc. inversion H; subst. discriminate.
Qed.

Lemma obind_some {A B} (o : option A) (k : A -> option B) (b : B) :
  obind o k = Some b -> exists a, o = Some a /\ k a = Some b.
Proof. destruct o as [a|]; [|discriminate]. intros H. now exists a. Qed.

Lemma patterns_nonempty (re : string -> option string) (s c : string) :
  In re launchPatterns -> re s = Some c -> c <> EmptyString.
Proof.
  intros [<-|[<-|[<-|[]]]] H;
    unfold reLaunch, reLaunchAccount, reAccountN in H;
    repeat (apply obind_some in H as (? & _ & H));
    now apply capture_nonempty in H.
Qed.

Lemma search_nonempty (re : string -> option string) (s c : string) :
  In re launchPatterns -> search re s = Some c -> c <> EmptyString.
Proof.
  intros Hin. induction s as [|x s IH]; cbn [search].
  - destruct (re EmptyString) eqn:E; [|discriminate].
    intros [= <-]. now apply (patterns_nonempty re EmptyString).
  - destruct (re (String x s)) eqn:E; [|exact IH].
    intros [= <-]. now apply (patterns_nonempty re (String x s)).
Qed.

Lemma firstPattern_nonempty (ps : list (string -> option string)) (log c : string) :
  (forall re, In re ps -> In re launchPatterns) ->
  firstPattern ps log = Some c -> c <> EmptyString.
Proof.
  induction ps as [|re ps IH]; intros Hsub; cbn [firstPattern]; [discriminate|].
  destruct (search re log) eqn:E.
  - intros [= <-]. apply (search_nonempty re log); [apply Hsub; now left | exact E].
  - apply IH. intros r Hr. apply Hsub. now right.
Qed.

(** An extracted id is never the empty string, so it is always truthy. *)
Lemma extractLaunchPubkey_nonempty (logs : list string) (id : string) :
  extractLaunchPubkey logs = Some id -> id <> EmptyString.
Proof.
  induction logs as [|log logs IH]; cbn [extractLaunchPubkey]; [discriminate|].
  destruct (firstPattern launchPatterns log) eqn:E; [|exact IH].
  intros [= <-]. now apply (firstPattern_nonempty launchPatterns log).
Qed.

End CorrelationFacts.

(** C8. A monitoring orchestrator that sees a successful completeLaunch
    event goes on to execute when no launch id can be read from the logs
    (and when the id read is the target); when an id is read and differs
    from the target, the event is ignored. *)
Theorem correlation_id_fails_open (target : string)
    (logData : AutoLoyalPool.LogData) (env : Env) (w : World) :
  isExecuting w = false -> hasExecuted w = false ->
  Geyser.isCompleteLaunchTransaction (AutoLoyalPool.ld_logs logData) = true ->
  AutoLoyalPool.ld_err logData = None ->
  (Geyser.extractLaunchPubkey (AutoLoyalPool.ld_logs logData) = None
   \/ Geyser.extractLaunchPubkey (AutoLoyalPool.ld_logs logData) = Some target ->
   AutoLoyalPool.handleTransaction target logData env w
   = AutoLoyalPool.executeClaimAndPoolCreation env w
   /\ Run.enter (AutoLoyalPool.accepts target) logData w
      = (withIsExecuting true w, true))
  /\ (forall id,
         Geyser.extractLaunchPubkey (AutoLoyalPool.ld_logs logData) = Some id ->
         id <> target ->
         AutoLoyalPool.handleTransaction target logData env w = (Ret tt, w)
         /\ Run.enter (AutoLoyalPool.accepts target) logData w = (w, false)).
Proof.
  intros Hx Hh Hc He.
  unfold AutoLoyalPool.handleTransaction, Run.enter, AutoLoyalPool.accepts.
  rewrite Hx, Hh, Hc, He. cbn [orb negb]. split.
  - intros [Hn|Hs].
    + rewrite Hn. now cbn.
    + rewrite Hs. cbn. rewrite String.eqb_refl, andb_false_r. now cbn.
  - intros id Hid Hne. rewrite Hid.
    pose proof (extractLaunchPubkey_nonempty _ _ Hid) as Hnz.
    apply String.eqb_neq in Hne, Hnz.
    unfold AutoLoyalPool.truthyStr, Yellowstone.truthyStr.
    rewrite Hne, Hnz. now cbn.
Qed.

Lemma correlation_id_fails_open_witness :
  (AutoLoyalPool.handleTransaction Scenario.target Scenario.completeLaunchLog
     Scenario.calm Scenario.monitoring
   = AutoLoyalPool.executeClaimAndPoolCreation Scenario.calm Scenario.monitoring
   /\ Run.enter (AutoLoyalPool.accepts Scenario.target) Scenario.completeLaunchLog
        Scenario.monitoring
      = (withIsExecuting true Scenario.monitoring, true))
  /\ (AutoLoyalPool.handleTransaction Scenario.target Scenario.otherLaunchLog
        Scenario.calm Scenario.monitoring
      = (Ret tt, Scenario.monitoring)
      /\ Run.enter (AutoLoyalPool.accepts Scenario.target) Scenario.otherLaunchLog
           Scenario.monitoring
         = (Scenario.monitoring, false)).
Proof.
  split.
  - apply (correlation_id_fails_open Scenario.target Scenario.completeLaunchLog
             Scenario.calm Scenario.monitoring); try reflexivity.
    left. reflexivity.
  - apply (correlation_id_fails_open Scenario.target Scenario.otherLaunchLog
             Scenario.calm Scenario.monitoring eq_refl eq_refl eq_refl eq_refl)
      with (id := "So11111111111111111111111111111111111111112"%string);
      [reflexivity | discriminate].
Defined.

(** ** The execution paths *)

(** On a run that returns, signing and serializing went through. *)
Ltac pass_signing :=
  unfold bind at 1;
  match goal with
  | |- context [Executor.signing ?t ?sg ?env ?w] =>
      let e := fresh "e" in
      let Hsg := fresh "Hsg" in
      destruct (signing_cases t sg env w) as [[e Hsg]|Hsg]; rewrite Hsg;
      [discriminate|]
  end;
  unfold bind at 1;
  match goal with
  | |- context [Executor.serialize ?t ?env ?w] =>
      let e := fresh "e" in
      let Hsz := fresh "Hsz" in
      destruct (serialize_cases t env w) as [[e Hsz]|Hsz]; rewrite Hsz;
      [discriminate|]
  end.

Section ExecutionFacts.

Lemma call_run {A} (c : Call) (answer : Env -> nat -> Res A) (env : Env) (w : World) :
  call c answer env w
  = (match answer env (List.length (trace w)) with
     | Ok a => Ret a
     | Throw e => Raise e
     end,
     withTrace (trace w ++ [c]) w).
Proof. unfold call. now destruct (answer env (List.length (trace w))). Qed.

(** With the executor the pool creator builds, a blockhash is only had
    through the stream singleton, which is there afterwards. *)
Lemma getBlockhash_ret (env : Env) (w w' : World) (h : string) :
  Executor.getBlockhash PoolCreator.txExecutor env w = (Ret h, w') ->
  (exists s, yellowstoneStream w' = Some s)
  /\ exists mid, trace w' = trace w ++ mid /\ (mid = [] \/ mid = [CGetLatestBlockhash]).
Proof.
  unfold Executor.getBlockhash, PoolCreator.txExecutor. cbn [Executor.useGrpcBlockhash].
  unfold bind, getYellowstoneStream.
  assert (F : forall w0 s, yellowstoneStream w0 = Some s -> trace w0 = trace w ->
              Executor.fetchBlockhash env w0 = (Ret h, w') ->
              (exists s, yellowstoneStream w' = Some s)
              /\ exists mid, trace w' = trace w ++ mid
                             /\ (mid = [] \/ mid = [CGetLatestBlockhash])).
  { intros w0 s Hs Ht. rewrite fetchBlockhash_run. intros [= _ <-]. cbn. split.
    - now exists s.
    - exists [CGetLatestBlockhash]. rewrite Ht. now split; [|right]. }
  destruct (yellowstoneStream w) as [s|] eqn:Hs.
  - destruct (Yellowstone.getLatestBlockhash s);
      [destruct (Yellowstone.isActive s)|]; try (apply (F w s Hs eq_refl)).
    unfold ret. intros [= _ <-]. split; [now exists s|].
    exists []. rewrite app_nil_r. now split; [|left].
  - destruct (geyserRpcUrl w) as [u|]; [destruct (String.eqb u "")|];
      try discriminate.
    destruct (Yellowstone.getLatestBlockhash _);
      [destruct (Yellowstone.isActive _)|];
      try (apply (F (withStream _ w) _ eq_refl eq_refl)).
    unfold ret. intros [= _ <-]. cbn. split; [eauto|].
    exists []. rewrite app_nil_r. now split; [|left].
Qed.

Lemma AutoPool_finish_run (code : Z) (env : Env) (w : World)
    (s : Yellowstone.YellowstoneUnifiedStream) :
  yellowstoneStream w = Some s ->
  @AutoPool.finish unit code env w
  = (Exit code,
     withTrace (trace w ++ snd (Yellowstone.stopStreaming s))
       (withStream (Some (fst (Yellowstone.stopStreaming s)))
          (withHasExecuted true w))).
Proof.
  intros Hs. unfold AutoPool.finish, stopStreaming, bind, modify, exit,
    getYellowstoneStream. cbn. now rewrite Hs.
Qed.

Lemma executeBody_on_error (pc : PoolCreator.MetaDAOPoolCreator) (env : Env)
    (w w1 : World) (error : Error) :
  AutoPool.primary pc env w = (Raise error, w1) ->
  AutoPool.executeBody pc env w = AutoPool.onError pc error env w1.
Proof.
  intros H. unfold AutoPool.executeBody, tryCatch, bind. now rewrite H.
Qed.

(** What a successful add-liquidity fallback has done. *)
Lemma addLiquidity_ret (pc : PoolCreator.MetaDAOPoolCreator) (env : Env)
    (w1 w2 : World) (r : PoolCreationResult) :
  PoolCreator.addLiquidityToExistingPool pc env w1 = (Ret r, w2) ->
  exists s c poolState tx mid h,
    yellowstoneStream w2 = Some s
    /\ PoolCreator.cache pc = Some c
    /\ let pool := PoolCreator.existingPoolPda env pc (PoolCreator.baseMint c) in
       let nft := keypair_generate env (S (List.length (trace w1))) in
       let isTokenA := String.eqb (tokenAMint poolState) (PoolCreator.baseMint c) in
       let quote := getDepositQuote env (PoolCreator.depositParams pc poolState isTokenA) in
       let params := PoolCreator.addLiquidityParams pc pool poolState isTokenA quote nft in
       amm_fetchPoolState env (List.length (trace w1)) pool = Ok poolState
       /\ amm_createPositionAndAddLiquidity env (S (S (List.length (trace w1)))) params
          = Ok tx
       /\ trace w2
          = trace w1
            ++ [CFetchPoolState pool; CKeypairGenerate;
                CCreatePositionAndAddLiquidity params]
            ++ mid
            ++ [CSendRawTransaction
                  (Executor.sign
                     (Executor.stamp h
                        (PoolCreator.withFeePayer (publicKey (PoolCreator.wallet pc)) tx))
                     [PoolCreator.wallet pc; nft])
                  {| skipPreflight := false; maxRetries := 2 |};
                CConfirmTransaction (signature r)]
       /\ (mid = [] \/ mid = [CGetLatestBlockhash]).
Proof.
  unfold PoolCreator.addLiquidityToExistingPool, bind at 1, unwrap.
  destruct (PoolCreator.cache pc) as [c|] eqn:Hc; [|discriminate].
  unfold ret at 1. unfold bind at 1. rewrite call_run.
  destruct (amm_fetchPoolState env _ _) as [poolState|e] eqn:Hfetch; [|discriminate].
  unfold bind at 1. rewrite call_run. cbn [trace withTrace].
  unfold bind at 1. rewrite call_run. cbn [trace withTrace].
  rewrite !length_app. cbn [List.length]. rewrite !Nat.add_1_r.
  destruct (amm_createPositionAndAddLiquidity env _ _) as [tx|e] eqn:Hcreate;
    [|discriminate].
  unfold bind at 1, Executor.sendAddLiquidity, bind at 1, Executor.sendAndSign,
    bind at 1.
  match goal with
  | |- context [Executor.getBlockhash PoolCreator.txExecutor env ?w0] =>
      destruct (Executor.getBlockhash PoolCreator.txExecutor env w0)
        as [[h|e|n] wb] eqn:Hb; [|discriminate..]
  end.
  apply getBlockhash_ret in Hb as ([s Hs] & mid & Hmid & Hcase).
  cbn [trace withTrace] in Hmid.
  pass_signing. rewrite call_run.
  destruct (rpc_sendRawTransaction env _ _ _) as [sig|e]; [|discriminate].
  unfold bind at 1. rewrite call_run.
  destruct (rpc_confirmTransaction env _ _); [|discriminate].
  unfold ret. intros [= <- <-].
  exists s, c, poolState, tx, mid, h. cbn [trace withTrace yellowstoneStream signature].
  repeat split; try assumption.
  rewrite Hmid, <- !app_assoc. reflexivity.
Qed.

End ExecutionFacts.

(** C4, as the code has it.  When the error that ends the primary path
    (the cached payloads, tried twice) reports an address already in use,
    the orchestrator runs the add-liquidity fallback.  If the fallback
    returns, it has fetched the state of the pool derived from the two
    mints, taken a deposit quote on that state, built a position
    transaction from the quote under a fresh position key, sent it with
    pre-flight on and confirmed it; the run is then completed: the flag
    [hasExecuted] is set, the stream is stopped and the process exits
    with 0.  If the fallback throws and the error is not one of the two
    fatal ones, the orchestrator is back to monitoring instead. *)
Theorem conflict_fallback (pc : PoolCreator.MetaDAOPoolCreator) (env : Env)
    (w w1 : World) (error : Error) :
  AutoPool.primary pc env w = (Raise error, w1) ->
  AutoPool.alreadyInUse error = true ->
  (forall r w2,
      PoolCreator.addLiquidityToExistingPool pc env w1 = (Ret r, w2) ->
      exists s c poolState tx mid h,
        yellowstoneStream w2 = Some s
        /\ AutoPool.executeBody pc env w
           = (Exit 0,
              withTrace (trace w2 ++ snd (Yellowstone.stopStreaming s))
                (withStream (Some (fst (Yellowstone.stopStreaming s)))
                   (withHasExecuted true w2)))
        /\ PoolCreator.cache pc = Some c
        /\ let pool := PoolCreator.existingPoolPda env pc (PoolCreator.baseMint c) in
           let nft := keypair_generate env (S (List.length (trace w1))) in
           let isTokenA := String.eqb (tokenAMint poolState) (PoolCreator.baseMint c) in
           let quote :=
             getDepositQuote env (PoolCreator.depositParams pc poolState isTokenA) in
           let params :=
             PoolCreator.addLiquidityParams pc pool poolState isTokenA quote nft in
           amm_fetchPoolState env (List.length (trace w1)) pool = Ok poolState
           /\ amm_createPositionAndAddLiquidity env (S (S (List.length (trace w1)))) params
              = Ok tx
           /\ trace w2
              = trace w1
                ++ [CFetchPoolState pool; CKeypairGenerate;
                    CCreatePositionAndAddLiquidity params]
                ++ mid
                ++ [CSendRawTransaction
                      (Executor.sign
                         (Executor.stamp h
                            (PoolCreator.withFeePayer
                               (publicKey (PoolCreator.wallet pc)) tx))
                         [PoolCreator.wallet pc; nft])
                      {| skipPreflight := false; maxRetries := 2 |};
                    CConfirmTransaction (signature r)]
           /\ (mid = [] \/ mid = [CGetLatestBlockhash]))
  /\ (forall e2 w2,
         PoolCreator.addLiquidityToExistingPool pc env w1 = (Raise e2, w2) ->
         AutoPool.cannotProceed error = false ->
         AutoPool.executeBody pc env w = (Ret tt, withIsExecuting false w2)).
Proof.
  intros Hprim Huse. rewrite (executeBody_on_error pc env w w1 error Hprim).
  unfold AutoPool.onError. rewrite Huse. split.
  - intros r w2 Hadd.
    destruct (addLiquidity_ret pc env w1 w2 r Hadd)
      as (s & c & poolState & tx & mid & h & Hs & Hc & Hrest).
    exists s, c, poolState, tx, mid, h.
    split; [exact Hs|]. split; [|split; [exact Hc | exact Hrest]].
    unfold bind at 1, tryCatch, bind at 1. rewrite Hadd.
    now rewrite (AutoPool_finish_run 0 env w2 s Hs).
  - intros e2 w2 Hadd Hfatal.
    unfold bind at 1, tryCatch, bind at 1. rewrite Hadd, Hfatal. reflexivity.
Qed.

Lemma conflict_fallback_witness :
  AutoPool.primary Scenario.creator Scenario.poolTaken Scenario.executing
  = (Raise Scenario.inUse,
     snd (AutoPool.primary Scenario.creator Scenario.poolTaken Scenario.executing))
  /\ AutoPool.alreadyInUse Scenario.inUse = true
  /\ fst (AutoPool.executeBody Scenario.creator Scenario.poolTaken Scenario.executing)
     = Exit 0
  /\ hasExecuted
       (snd (AutoPool.executeBody Scenario.creator Scenario.poolTaken Scenario.executing))
     = true.
Proof.
  assert (H1 : AutoPool.primary Scenario.creator Scenario.poolTaken Scenario.executing
               = (Raise Scenario.inUse,
                  snd (AutoPool.primary Scenario.creator Scenario.poolTaken
                         Scenario.executing)))
    by (vm_compute; reflexivity).
  assert (H2 : AutoPool.alreadyInUse Scenario.inUse = true) by reflexivity.
  split; [exact H1|]. split; [exact H2|].
  destruct (conflict_fallback Scenario.creator Scenario.poolTaken Scenario.executing
              _ Scenario.inUse H1 H2) as [Hok _].
  destruct (PoolCreator.addLiquidityToExistingPool Scenario.creator Scenario.poolTaken
              (snd (AutoPool.primary Scenario.creator Scenario.poolTaken
                      Scenario.executing)))
    as [[r|e|c] w2] eqn:E; [|vm_compute in E; discriminate..].
  destruct (Hok r w2 eq_refl) as (s & c & ps & tx & mid & h & _ & Hexec & _).
  rewrite Hexec. split; reflexivity.
Defined.

(** C4 as stated fails: the pool creation finds the address taken and the
    fallback is sent, but confirming it times out; the run is not
    completed, the orchestrator is monitoring again. *)
Lemma conflict_fallback_may_fail :
  let r := AutoPool.executeBody Scenario.creator Scenario.poolTakenConfirmTimeout
             Scenario.executing in
  AutoPool.alreadyInUse Scenario.inUse = true
  /\ fst (AutoPool.primary Scenario.creator Scenario.poolTakenConfirmTimeout
            Scenario.executing) = Raise Scenario.inUse
  /\ fst r = Ret tt
  /\ isExecuting (snd r) = false
  /\ hasExecuted (snd r) = false.
Proof. vm_compute. repeat split; reflexivity. Qed.

(** The first pool creation finds the address taken, the second try is
    refused at the claim: the fallback is never run and the run fails. *)
Lemma retry_hides_conflict :
  let r := AutoPool.executeBody Scenario.creator Scenario.poolTakenClaimGone
             Scenario.executing in
  fst r = Exit 1
  /\ In (CSendRawTransaction
           (Executor.sign (Executor.stamp "CachedHash" (Scenario.builtTx "createPool"))
              [{| publicKey := "Wallet" |}; {| publicKey := "Nft" |}])
           {| skipPreflight := true; maxRetries := 0 |}) (trace (snd r))
  /\ forall pool, ~ In (CFetchPoolState pool) (trace (snd r)).
Proof.
  vm_compute. split; [reflexivity|]. split.
  - right; right; left; reflexivity.
  - intros pool H. repeat (destruct H as [H|H]; [discriminate|]). exact H.
Qed.

Section LoyalFacts.

Lemma removeAll_run (ids : list Z) (env : Env) (w : World) :
  AutoLoyalPool.removeAll ids env w
  = (Ret tt, withTrace (trace w ++ List.map CRemoveListener ids) w).
Proof.
  revert w. induction ids as [|id ids IH]; intros w.
  - cbn. rewrite app_nil_r. now destruct w.
  - cbn [AutoLoyalPool.removeAll List.map]. unfold bind at 1, tryCatch, call.
    destruct (rpc_removeListener env _ id) as [[]|e]; cbn;
      rewrite IH; cbn; now rewrite <- app_assoc.
Qed.

Lemma AutoLoyalPool_finish_run (code : Z) (env : Env) (w : World) :
  @AutoLoyalPool.finish unit code env w
  = (Exit code,
     withSubscriptions ∅
       (withTrace
          (trace w ++ List.map CRemoveListener (List.map snd (map_to_list (subscriptions w))))
          (withHasExecuted true w))).
Proof.
  unfold AutoLoyalPool.finish, AutoLoyalPool.unsubscribeAll, bind, modify, exit.
  cbn. now rewrite removeAll_run.
Qed.

End LoyalFacts.

(** C5, as the code has it.  An error whose message contains "already
    claimed" or "No funding record" ends the run: [hasExecuted] is set,
    the subscriptions are released and the process exits with 1.  In the
    Loyal orchestrator nothing else is tried.  In the pool orchestrator
    nothing else is tried unless the same error also reports an address
    already in use; then the add-liquidity fallback runs first, and the
    run fails in the same way once that fallback has thrown. *)
Theorem fatal_error_fails_run (env : Env) (error : Error) :
  AutoPool.cannotProceed error = true ->
  (forall w,
      loyal_executeInSingleSlot env (List.length (trace w)) = Throw error ->
      AutoLoyalPool.executeBody env w
      = (Exit 1,
         withSubscriptions ∅
           (withTrace
              (trace w
               ++ CLoyalExecuteInSingleSlot
                  :: List.map CRemoveListener
                       (List.map snd (map_to_list (subscriptions w))))
              (withHasExecuted true w))))
  /\ (forall pc w w1 s,
         AutoPool.primary pc env w = (Raise error, w1) ->
         AutoPool.alreadyInUse error = false ->
         yellowstoneStream w1 = Some s ->
         AutoPool.executeBody pc env w
         = (Exit 1,
            withTrace (trace w1 ++ snd (Yellowstone.stopStreaming s))
              (withStream (Some (fst (Yellowstone.stopStreaming s)))
                 (withHasExecuted true w1))))
  /\ (forall pc w w1 e2 w2 s,
         AutoPool.primary pc env w = (Raise error, w1) ->
         AutoPool.alreadyInUse error = true ->
         PoolCreator.addLiquidityToExistingPool pc env w1 = (Raise e2, w2) ->
         yellowstoneStream w2 = Some s ->
         AutoPool.executeBody pc env w
         = (Exit 1,
            withTrace (trace w2 ++ snd (Yellowstone.stopStreaming s))
              (withStream (Some (fst (Yellowstone.stopStreaming s)))
                 (withHasExecuted true w2)))).
Proof.
  intros Hfatal. split; [|split].
  - intros w Hthrow.
    unfold AutoLoyalPool.executeBody, tryCatch, bind at 1. rewrite call_run, Hthrow.
    unfold bind at 1.
    change (AutoLoyalPool.cannotProceed error) with (AutoPool.cannotProceed error).
    rewrite Hfatal, AutoLoyalPool_finish_run. cbn. now rewrite <- app_assoc.
  - intros pc w w1 s Hprim Huse Hs.
    rewrite (executeBody_on_error pc env w w1 error Hprim).
    unfold AutoPool.onError. rewrite Huse, Hfatal.
    unfold bind at 1, ret at 1, bind at 1.
    now rewrite (AutoPool_finish_run 1 env w1 s Hs).
  - intros pc w w1 e2 w2 s Hprim Huse Hadd Hs.
    rewrite (executeBody_on_error pc env w w1 error Hprim).
    unfold AutoPool.onError. rewrite Huse, Hfatal.
    unfold bind at 1, tryCatch, bind at 1. rewrite Hadd.
    unfold ret at 1, bind at 1.
    now rewrite (AutoPool_finish_run 1 env w2 s Hs).
Qed.

Lemma fatal_error_fails_run_witness :
  AutoPool.cannotProceed (mkError "Tokens already claimed!") = true
  /\ fst (AutoLoyalPool.executeBody Scenario.loyalClaimed Scenario.executing) = Exit 1
  /\ trace (snd (AutoLoyalPool.executeBody Scenario.loyalClaimed Scenario.executing))
     = [CLoyalExecuteInSingleSlot; CRemoveListener 7]
  /\ fst (AutoPool.executeBody Scenario.creator Scenario.poolTakenClaimGone
            Scenario.executing) = Exit 1.
Proof.
  assert (H1 : AutoPool.cannotProceed (mkError "Tokens already claimed!") = true)
    by reflexivity.
  assert (H2 : AutoPool.cannotProceed
                 (mkError "Transaction simulation failed: Tokens already claimed") = true)
    by reflexivity.
  split; [exact H1|].
  destruct (fatal_error_fails_run Scenario.loyalClaimed _ H1) as (Hloyal & _ & _).
  destruct (fatal_error_fails_run Scenario.poolTakenClaimGone _ H2) as (_ & Hpool & _).
  rewrite (Hloyal Scenario.executing eq_refl).
  split; [reflexivity|]. split; [vm_compute; reflexivity|].
  rewrite (Hpool Scenario.creator Scenario.executing
             (snd (AutoPool.primary Scenario.creator Scenario.poolTakenClaimGone
                     Scenario.executing))
             Scenario.activeStream);
    [reflexivity | vm_compute; reflexivity | reflexivity | vm_compute; reflexivity].
Defined.

(** C5 as stated fails: the claim is refused with "already claimed" in
    the message and an address in use in the logs; the orchestrator runs
    the add-liquidity fallback, which goes through, and exits with 0. *)
Lemma fatal_error_with_fallback :
  let r := AutoPool.executeBody Scenario.creator Scenario.claimRefused
             Scenario.executing in
  fst (AutoPool.primary Scenario.creator Scenario.claimRefused Scenario.executing)
  = Raise Scenario.claimedAndInUse
  /\ AutoPool.cannotProceed Scenario.claimedAndInUse = true
  /\ fst r = Exit 0
  /\ In (CFetchPoolState "Damm/cpool/TokenMint/So11") (trace (snd r))
  /\ In (CConfirmTransaction "sig") (trace (snd r)).
Proof.
  vm_compute. repeat split; try reflexivity.
  - right; right; left; reflexivity.
  - do 6 right; left; reflexivity.
Qed.

(** * Further properties of the modelled code *)

(** String append, unfolded on constructors. *)
Ltac unfold_append := cbv [String.append]; fold String.append.

(** ** Log lines and the joined text *)
Section JoinFacts.
Import Js.

Lemma append_empty_r (s : string) : s +:+ EmptyString = s.
Proof. induction s as [|c s IH]; unfold_append; [reflexivity | now rewrite IH]. Qed.

Lemma join_cons (sep x y : string) (rest : list string) :
  join sep (x :: y :: rest) = x +:+ sep +:+ join sep (y :: rest).
Proof. reflexivity. Qed.

(** Every line is a stretch of the joined text. *)
Lemma join_In (sep log : string) (logs : list string) :
  In log logs -> exists a b, join sep logs = a +:+ log +:+ b.
Proof.
  induction logs as [|x rest IH]; [intros []|].
  intros [->|Hin].
  - destruct rest as [|y rest].
    + exists EmptyString, EmptyString. cbn [join]. now rewrite append_empty_r.
    + exists EmptyString, (sep +:+ join sep (y :: rest)). now rewrite join_cons.
  - destruct rest as [|y rest]; [destruct Hin|].
    destruct (IH Hin) as (a & b & E).
    exists (x +:+ sep +:+ a), b. rewrite join_cons, E.
    now rewrite !app_assoc_str.
Qed.

(** Two neighbouring lines meet in the joined text with one separator
    between them. *)
Lemma join_adjacent (sep x y : string) (before after : list string) :
  exists a b, join sep (before ++ x :: y :: after) = a +:+ x +:+ sep +:+ y +:+ b.
Proof.
  induction before as [|z before IH].
  - cbn [List.app]. destruct after as [|u after].
    + exists EmptyString, EmptyString. rewrite join_cons. cbn [join].
      now rewrite append_empty_r.
    + exists EmptyString, (sep +:+ join sep (u :: after)).
      now rewrite !join_cons.
  - destruct IH as (a & b & E).
    exists (z +:+ sep +:+ a), b.
    destruct before as [|v before]; cbn [List.app] in *;
      rewrite join_cons, E; now rewrite !app_assoc_str.
Qed.

Lemma includes_inside (a s b m : string) :
  includes s m = true -> includes (a +:+ s +:+ b) m = true.
Proof.
  rewrite !includes_split. intros (pre & post & ->).
  exists (a +:+ pre), (post +:+ b). now rewrite !app_assoc_str.
Qed.

Lemma includes_lowered (s m : string) :
  includes s m = true -> includes (toLowerCase s) (toLowerCase m) = true.
Proof.
  rewrite !includes_split. intros (pre & post & ->).
  exists (toLowerCase pre), (toLowerCase post). now rewrite !toLowerCase_app.
Qed.

Lemma detect_completelaunch (logs : list string) :
  includes (toLowerCase (join " " logs)) "completelaunch" = true
  \/ includes (toLowerCase (join " " logs)) "complete launch" = true ->
  Parser.detectInstruction logs = "completeLaunch".
Proof.
  unfold Parser.detectInstruction, Parser.patterns. cbn [Parser.scan].
  unfold some. cbn [Parser.match_ Parser.name existsb].
  intros [->| ->]; [reflexivity|]. now rewrite orb_true_r.
Qed.

Lemma detect_completelaunch_line (logs : list string) (log : string) :
  In log logs ->
  includes (toLowerCase log) "completelaunch" = true ->
  Parser.detectInstruction logs = "completeLaunch".
Proof.
  intros Hin Hinc. apply detect_completelaunch. left.
  destruct (join_In " " log logs Hin) as (a & b & ->).
  rewrite !toLowerCase_app. now apply includes_inside.
Qed.

End JoinFacts.

(** X1. A line that mentions "completelaunch" in any letter case makes
    the classification [completeLaunch], whatever else the lines say. *)
Theorem completeLaunch_has_priority (logs : list string) (log : string) :
  In log logs ->
  Js.includes (Js.toLowerCase log) "completelaunch" = true ->
  Parser.detectInstruction logs = "completeLaunch".
Proof. exact (detect_completelaunch_line logs log). Qed.

Lemma completeLaunch_has_priority_witness :
  Parser.detectInstruction
    ["Program log: Instruction: Claim"; "Program log: refund of COMPLETELAUNCH fee"]
  = "completeLaunch".
Proof.
  apply (completeLaunch_has_priority _ "Program log: refund of COMPLETELAUNCH fee");
    [right; left; reflexivity | reflexivity].
Defined.

(** X2. The lines are joined with a space before they are searched: a
    line that ends in "complete" followed by a line that starts with
    "launch" (in any letter case) is classified [completeLaunch]. *)
Theorem completeLaunch_across_lines (before after : list string) (x y a b : string) :
  Js.toLowerCase x = a +:+ "complete" ->
  Js.toLowerCase y = "launch" +:+ b ->
  Parser.detectInstruction (before ++ x :: y :: after) = "completeLaunch".
Proof.
  intros Hx Hy. apply detect_completelaunch. right.
  destruct (join_adjacent " " x y before after) as (p & q & ->).
  rewrite !toLowerCase_app, Hx, Hy. apply includes_split.
  exists (Js.toLowerCase p +:+ a), (b +:+ Js.toLowerCase q).
  rewrite !app_assoc_str. reflexivity.
Qed.

Lemma completeLaunch_across_lines_witness :
  Parser.detectInstruction
    (["Program log: start"] ++ "Program log: transfer Complete"
                            :: "Launch pad fee paid" :: ["Program log: done"])
  = "completeLaunch".
Proof.
  apply (completeLaunch_across_lines ["Program log: start"] ["Program log: done"]
           "Program log: transfer Complete" "Launch pad fee paid"
           "program log: transfer " " pad fee paid"); reflexivity.
Defined.

(** X3. A log line that contains "CompleteLaunch" is accepted by both
    detectors: the per-line test of the WebSocket client and the
    classifier of the gRPC orchestrator. *)
Theorem detectors_agree_on_CompleteLaunch (logs : list string) (log : string) :
  In log logs ->
  Js.includes log "CompleteLaunch" = true ->
  Geyser.isCompleteLaunchTransaction logs = true
  /\ Parser.isCompleteLaunchTransaction (Parser.parseMetaDAOTransaction logs) = true.
Proof.
  intros Hin Hinc. split.
  - unfold Geyser.isCompleteLaunchTransaction, Js.some. apply existsb_exists.
    exists log. split; [exact Hin|]. rewrite Hinc. now rewrite orb_true_r.
  - unfold Parser.isCompleteLaunchTransaction, Parser.parseMetaDAOTransaction.
    cbn [Parser.instructionType].
    rewrite (detect_completelaunch_line logs log Hin); [reflexivity|].
    now apply (includes_lowered log "CompleteLaunch").
Qed.

Lemma detectors_agree_on_CompleteLaunch_witness :
  Geyser.isCompleteLaunchTransaction ["Program log: Instruction: CompleteLaunch"] = true
  /\ Parser.isCompleteLaunchTransaction
       (Parser.parseMetaDAOTransaction ["Program log: Instruction: CompleteLaunch"])
     = true.
Proof.
  apply (detectors_agree_on_CompleteLaunch _ "Program log: Instruction: CompleteLaunch");
    [left; reflexivity | reflexivity].
Defined.

(** The snake-case spelling is accepted by the per-line test only. *)
Example snake_case_divides_the_detectors :
  Geyser.isCompleteLaunchTransaction ["Program log: complete_launch"] = true
  /\ Parser.detectInstruction ["Program log: complete_launch"] = "unknown".
Proof. split; reflexivity. Qed.

(** ** Extracted launch ids *)
Section ExtractionFacts.
Import Geyser.

Lemma takeUpTo_length (n : nat) (f : ascii -> bool) (s : string) :
  (String.length (takeUpTo n f s) <= n)%nat.
Proof.
  revert s. induction n as [|n IH]; intros s; [destruct s; cbn; lia|].
  destruct s as [|c s]; cbn; [lia|].
  destruct (f c); cbn; [specialize (IH s); lia | lia].
Qed.

Lemma takeUpTo_all (n : nat) (f : ascii -> bool) (s : string) :
  allChars f (takeUpTo n f s) = true.
Proof.
  revert s. induction n as [|n IH]; intros s; [now destruct s|].
  destruct s as [|c s]; cbn; [reflexivity|].
  destruct (f c) eqn:E; cbn; [now rewrite E, IH | reflexivity].
Qed.

Lemma isBase58_i_of_isBase58 (c : ascii) : isBase58 c = true -> isBase58_i c = true.
Proof. destruct c as [[] [] [] [] [] [] [] []]; vm_compute; congruence. Qed.

Lemma allChars_weaken (f g : ascii -> bool) (s : string) :
  (forall c, f c = true -> g c = true) -> allChars f s = true -> allChars g s = true.
Proof.
  intros Hfg. induction s as [|c s IH]; cbn; [reflexivity|].
  intros H. apply andb_true_iff in H as [Hc Hs]. now rewrite (Hfg c Hc), IH.
Qed.

Lemma capture_wellFormed (ci : bool) (s c : string) :
  capture ci s = Some c -> wellFormedId c.
Proof.
  unfold capture, wellFormedId.
  pose proof (takeUpTo_length 44 (if ci then isBase58_i else isBase58) (fst (run isSpace s))) as Hlen.
  pose proof (takeUpTo_all 44 (if ci then isBase58_i else isBase58) (fst (run isSpace s))) as Hall.
  revert Hlen Hall.
  generalize (takeUpTo 44 (if ci then isBase58_i else isBase58) (fst (run isSpace s))).
  intros c0 Hlen Hall. destruct (32 <=? String.length c0)%nat eqn:E; [|discriminate].
  intros [= <-]. apply Nat.leb_le in E. split; [lia|].
  destruct ci; [exact Hall|].
  apply (allChars_weaken isBase58 isBase58_i); [exact isBase58_i_of_isBase58 | exact Hall].
Qed.

Lemma pattern_wellFormed (re : string -> option string) (s c : string) :
  In re launchPatterns -> re s = Some c -> wellFormedId c.
Proof.
  intros [<-|[<-|[<-|[]]]] H;
    unfold reLaunch, reLaunchAccount, reAccountN in H;
    repeat (apply obind_some in H as (? & _ & H));
    now apply capture_wellFormed in H.
Qed.

Lemma search_wellFormed (re : string -> option string) (s c : string) :
  In re launchPatterns -> search re s = Some c -> wellFormedId c.
Proof.
  intros Hin. induction s as [|x s IH]; cbn [search].
  - destruct (re EmptyString) eqn:E; [|discriminate].
    intros [= <-]. now apply (pattern_wellFormed re EmptyString).
  - destruct (re (String x s)) eqn:E; [|exact IH].
    intros [= <-]. now apply (pattern_wellFormed re (String x s)).
Qed.

Lemma firstPattern_wellFormed (ps : list (string -> option string)) (log c : string) :
  (forall re, In re ps -> In re launchPatterns) ->
  firstPattern ps log = Some c -> wellFormedId c.
Proof.
  induction ps as [|re ps IH]; intros Hsub; cbn [firstPattern]; [discriminate|].
  destruct (search re log) eqn:E.
  - intros [= <-]. apply (search_wellFormed re log); [apply Hsub; now left | exact E].
  - apply IH. intros r Hr. apply Hsub. now right.
Qed.

(** A line on which no pattern matches is a line on which the first one
    does not. *)
Lemma firstPattern_none_reLaunch (log : string) :
  firstPattern launchPatterns log = None -> search reLaunch log = None.
Proof.
  unfold launchPatterns. cbn [firstPattern].
  now destruct (search reLaunch log).
Qed.

Lemma findLaunch_extract (logs : list string) (p : string) :
  GeyserClient.findLaunch logs = Some p ->
  exists q, extractLaunchPubkey logs = Some q.
Proof.
  induction logs as [|log logs IH]; cbn [GeyserClient.findLaunch extractLaunchPubkey];
    [discriminate|].
  destruct (firstPattern launchPatterns log) as [q|] eqn:E; [now exists q|].
  rewrite (firstPattern_none_reLaunch log E). exact IH.
Qed.

End ExtractionFacts.

(** X4. Whatever [extractLaunchPubkey] returns has between 32 and 44
    characters, each a digit 1-9 or an ASCII letter. *)
Theorem extractLaunchPubkey_shape (logs : list string) (id : string) :
  Geyser.extractLaunchPubkey logs = Some id ->
  (32 <= String.length id <= 44)%nat /\ allChars Geyser.isBase58_i id = true.
Proof.
  induction logs as [|log logs IH]; cbn [Geyser.extractLaunchPubkey]; [discriminate|].
  destruct (Geyser.firstPattern Geyser.launchPatterns log) eqn:E; [|exact IH].
  intros [= <-]. now apply (firstPattern_wellFormed Geyser.launchPatterns log).
Qed.

Lemma extractLaunchPubkey_shape_witness :
  (32 <= String.length "So11111111111111111111111111111111111111112" <= 44)%nat
  /\ allChars Geyser.isBase58_i "So11111111111111111111111111111111111111112" = true.
Proof.
  apply (extractLaunchPubkey_shape
           ["Program log: Launch: So11111111111111111111111111111111111111112"]).
  reflexivity.
Defined.

(** X5. Lines are searched in order: the id of a list of lines followed
    by more lines is the id of the first list when it has one, and the id
    of the added lines otherwise. *)
Theorem extractLaunchPubkey_app (logs more : list string) :
  Geyser.extractLaunchPubkey (logs ++ more)
  = match Geyser.extractLaunchPubkey logs with
    | Some id => Some id
    | None => Geyser.extractLaunchPubkey more
    end.
Proof.
  induction logs as [|log logs IH]; [reflexivity|].
  cbn [List.app Geyser.extractLaunchPubkey].
  now destruct (Geyser.firstPattern Geyser.launchPatterns log).
Qed.

(** X6. The WebSocket client's [parseMetaDAOTransaction] reports a launch
    id only for a transaction it flags as completeLaunch, and whenever it
    reports one [extractLaunchPubkey] finds an id in the same lines. *)
Theorem parseMetaDAOTransaction_launchPubkey (logs : list string)
    (fields : GeyserClient.ParsedFields) (p : string) :
  GeyserClient.parsed (GeyserClient.parseMetaDAOTransaction logs) = Some fields ->
  GeyserClient.pf_launchPubkey fields = Some p ->
  GeyserClient.pf_isCompleteLaunch fields = true
  /\ Geyser.isCompleteLaunchTransaction logs = true
  /\ (32 <= String.length p <= 44)%nat
  /\ exists q, Geyser.extractLaunchPubkey logs = Some q.
Proof.
  unfold GeyserClient.parseMetaDAOTransaction. cbn [GeyserClient.parsed].
  intros [= <-]. cbn [GeyserClient.pf_launchPubkey GeyserClient.pf_isCompleteLaunch].
  fold (Geyser.isCompleteLaunchTransaction logs).
  destruct (Geyser.isCompleteLaunchTransaction logs); [|discriminate].
  intros Hp. split; [reflexivity|]. split; [reflexivity|]. split.
  - clear -Hp. induction logs as [|log logs IH]; cbn [GeyserClient.findLaunch] in Hp;
      [discriminate|].
    destruct (Geyser.search Geyser.reLaunch log) eqn:E; [|now apply IH].
    inversion Hp; subst.
    apply (search_wellFormed Geyser.reLaunch log); [now left | exact E].
  - now apply (findLaunch_extract logs p).
Qed.

Lemma parseMetaDAOTransaction_launchPubkey_witness :
  GeyserClient.pf_isCompleteLaunch
    {| GeyserClient.pf_isCompleteLaunch := true;
       GeyserClient.pf_launchPubkey := Some "So11111111111111111111111111111111111111112" |}
  = true
  /\ Geyser.isCompleteLaunchTransaction (AutoLoyalPool.ld_logs Scenario.otherLaunchLog) = true
  /\ (32 <= String.length "So11111111111111111111111111111111111111112" <= 44)%nat
  /\ exists q, Geyser.extractLaunchPubkey (AutoLoyalPool.ld_logs Scenario.otherLaunchLog)
               = Some q.
Proof.
  apply (parseMetaDAOTransaction_launchPubkey
           (AutoLoyalPool.ld_logs Scenario.otherLaunchLog)); reflexivity.
Defined.

(** ** Listeners and frames *)
(** ** The insertion-ordered map *)
Section JsMapFacts.
Context {V : Type}.
Implicit Types (m : JsMap.t V) (k : string) (v : V).

Lemma JsMap_get_none_has k m : JsMap.get k m = None <-> JsMap.has k m = false.
Proof.
  unfold JsMap.get, JsMap.has.
  induction (JsMap.entries m) as [|[k0 v0] l IH]; cbn; [tauto|].
  destruct (String.eqb k0 k); cbn; [split; discriminate | exact IH].
Qed.

Lemma JsMap_map_fresh k v (l : list (string * V)) :
  existsb (fun kv => String.eqb (fst kv) k) l = false ->
  List.map (fun kv => if String.eqb (fst kv) k then (k, v) else kv) l = l.
Proof.
  induction l as [|[k0 v0] l IH]; cbn; [reflexivity|].
  destruct (String.eqb k0 k); cbn; [discriminate|]. intros H. now rewrite IH.
Qed.

Lemma JsMap_filter_fresh k (l : list (string * V)) :
  existsb (fun kv => String.eqb (fst kv) k) l = false ->
  List.filter (fun kv => negb (String.eqb (fst kv) k)) l = l.
Proof.
  induction l as [|[k0 v0] l IH]; cbn; [reflexivity|].
  destruct (String.eqb k0 k); cbn; [discriminate|]. intros H. now rewrite IH.
Qed.

Lemma JsMap_set_fresh k v m :
  JsMap.has k m = false ->
  JsMap.entries (JsMap.set k v m) = JsMap.entries m ++ [(k, v)].
Proof. unfold JsMap.set. now intros ->. Qed.

Lemma JsMap_get_set_eq k v m : JsMap.get k (JsMap.set k v m) = Some v.
Proof.
  unfold JsMap.set. destruct (JsMap.has k m) eqn:H; unfold JsMap.has in H;
    unfold JsMap.get; cbn [JsMap.entries].
  - induction (JsMap.entries m) as [|[k0 v0] l IH]; cbn in *; [discriminate|].
    destruct (String.eqb k0 k) eqn:E; cbn.
    + now rewrite String.eqb_refl.
    + rewrite E. now apply IH.
  - induction (JsMap.entries m) as [|[k0 v0] l IH]; cbn in *.
    + now rewrite String.eqb_refl.
    + destruct (String.eqb k0 k); [discriminate | now apply IH].
Qed.

Lemma JsMap_get_set_ne k k' v m :
  k' <> k -> JsMap.get k' (JsMap.set k v m) = JsMap.get k' m.
Proof.
  intros Hne. apply String.eqb_neq in Hne.
  unfold JsMap.set. destruct (JsMap.has k m); unfold JsMap.get; cbn [JsMap.entries].
  - induction (JsMap.entries m) as [|[k0 v0] l IH]; cbn; [reflexivity|].
    destruct (String.eqb k0 k) eqn:E; cbn.
    + apply String.eqb_eq in E. subst k0. rewrite String.eqb_sym, Hne. exact IH.
    + destruct (String.eqb k0 k'); [reflexivity | exact IH].
  - induction (JsMap.entries m) as [|[k0 v0] l IH]; cbn.
    + now rewrite String.eqb_sym, Hne.
    + destruct (String.eqb k0 k'); [reflexivity | exact IH].
Qed.

Lemma JsMap_has_set k v m : JsMap.has k (JsMap.set k v m) = true.
Proof.
  pose proof (JsMap_get_set_eq k v m) as H.
  destruct (JsMap.has k (JsMap.set k v m)) eqn:E; [reflexivity|].
  apply JsMap_get_none_has in E. congruence.
Qed.

Lemma JsMap_set_set k v v' m : JsMap.set k v' (JsMap.set k v m) = JsMap.set k v' m.
Proof.
  unfold JsMap.set at 1. rewrite JsMap_has_set.
  unfold JsMap.set. destruct (JsMap.has k m) eqn:H; cbn [JsMap.entries]; f_equal.
  - rewrite map_map. apply map_ext. intros [k0 v0]. cbn.
    destruct (String.eqb k0 k) eqn:E; cbn; [now rewrite String.eqb_refl | now rewrite E].
  - rewrite List.map_app. cbn. rewrite String.eqb_refl.
    now rewrite (JsMap_map_fresh k v' _ H).
Qed.

Lemma JsMap_get_delete k m : JsMap.get k (JsMap.delete k m) = None.
Proof.
  unfold JsMap.get, JsMap.delete. cbn [JsMap.entries].
  induction (JsMap.entries m) as [|[k0 v0] l IH]; cbn; [reflexivity|].
  destruct (String.eqb k0 k) eqn:E; cbn; [exact IH | now rewrite E].
Qed.

Lemma JsMap_delete_set k v m :
  JsMap.get k m = None -> JsMap.delete k (JsMap.set k v m) = m.
Proof.
  intros H. apply JsMap_get_none_has in H.
  unfold JsMap.delete. rewrite (JsMap_set_fresh k v m H).
  rewrite List.filter_app. cbn. rewrite String.eqb_refl. cbn.
  unfold JsMap.has in H. rewrite (JsMap_filter_fresh k _ H), app_nil_r.
  now destruct m.
Qed.

End JsMapFacts.

Section ListenerFacts.
Import Yellowstone StreamRun.

Lemma onData_callbacks (bs58 : string -> string) (now : Z) (data : Frame)
    (s : YellowstoneUnifiedStream) :
  txCallbacks (onBlockMeta now data (onBlock now data s)) = txCallbacks s.
Proof.
  unfold onBlockMeta, onBlock.
  destruct (f_blockMeta data) as [bm|]; [destruct (frameHash (Some bm))|];
    (destruct (f_block data) as [b|]; [destruct (frameHash (Some b))|]);
    reflexivity.
Qed.



(** The calls of a frame with a transaction update: one per entry of
    the registry, in the order of the entries. *)
Lemma onData_calls (bs58 : string -> string) (now : Z) (data : Frame)
    (tf : TransactionFrame) (s : YellowstoneUnifiedStream) :
  f_transaction data = Some (TxUpdate tf) ->
  snd (fst (onData bs58 now data s))
  = List.map (fun kv => (snd kv, decode bs58 tf)) (JsMap.entries (txCallbacks s)).
Proof.
  intros H. unfold onData. rewrite H. cbn [fst snd].
  rewrite (onData_callbacks bs58). unfold JsMap.values. now rewrite map_map.
Qed.

Lemma register_cons (reg : string * Callback) (regs : list (string * Callback))
    (s : YellowstoneUnifiedStream) :
  register (reg :: regs) s = register regs (onTransaction (fst reg) (snd reg) s).
Proof. reflexivity. Qed.

(** Registrations under fresh, distinct ids are appended in their order. *)
Lemma register_entries (regs : list (string * Callback)) (s : YellowstoneUnifiedStream) :
  List.NoDup (List.map fst regs) ->
  (forall id, In id (List.map fst regs) -> JsMap.get id (txCallbacks s) = None) ->
  JsMap.entries (txCallbacks (register regs s))
  = JsMap.entries (txCallbacks s) ++ regs.
Proof.
  revert s. induction regs as [|[id cb] regs IH]; intros s Hnd Hfresh.
  - cbn. now rewrite app_nil_r.
  - rewrite register_cons. cbn [fst snd List.map] in *.
    apply List.NoDup_cons_iff in Hnd as [Hnotin Hnd].
    rewrite IH; [|exact Hnd|].
    + cbn [txCallbacks onTransaction].
      rewrite JsMap_set_fresh by (apply JsMap_get_none_has, Hfresh; now left).
      now rewrite <- app_assoc.
    + intros id' Hin. cbn [txCallbacks onTransaction].
      rewrite JsMap_get_set_ne by (intros ->; contradiction).
      apply Hfresh. now right.
Qed.

Lemma fresh_entries (regs : list (string * Callback)) (s : YellowstoneUnifiedStream)
    (id : string) :
  (forall id, In id (List.map fst regs) -> JsMap.get id (txCallbacks s) = None) ->
  In id (List.map fst regs) ->
  existsb (fun kv => String.eqb (fst kv) id) (JsMap.entries (txCallbacks s)) = false.
Proof. intros Hfresh Hin. now apply JsMap_get_none_has, Hfresh. Qed.

End ListenerFacts.

(** X7. The listener registry: a registered callback is found under its
    id and replaces an earlier one under that id, other ids are not
    touched, and removing a listener whose id was free before it was
    registered gives back the client as it was. *)
Theorem listener_registry (id : string) (cb cb' : Yellowstone.Callback)
    (s : Yellowstone.YellowstoneUnifiedStream) :
  Yellowstone.txCallbacks (Yellowstone.onTransaction id cb s) !! id = Some cb
  /\ (forall other, other <> id ->
        Yellowstone.txCallbacks (Yellowstone.onTransaction id cb s) !! other
        = Yellowstone.txCallbacks s !! other)
  /\ Yellowstone.onTransaction id cb' (Yellowstone.onTransaction id cb s)
     = Yellowstone.onTransaction id cb' s
  /\ Yellowstone.txCallbacks (Yellowstone.offTransaction id s) !! id = None
  /\ (Yellowstone.txCallbacks s !! id = None ->
      Yellowstone.offTransaction id (Yellowstone.onTransaction id cb s) = s).
Proof.
  split; [|split; [|split; [|split]]].
  - cbn. apply JsMap_get_set_eq.
  - intros other Hne. cbn. now apply JsMap_get_set_ne.
  - unfold Yellowstone.onTransaction. cbn. now rewrite JsMap_set_set.
  - cbn. apply JsMap_get_delete.
  - intros Hfree. destruct s. unfold Yellowstone.offTransaction, Yellowstone.onTransaction.
    cbn in *. now rewrite JsMap_delete_set.
Qed.

Lemma listener_registry_witness :
  Yellowstone.offTransaction "mint_trigger"
    (Yellowstone.onTransaction "mint_trigger" Yellowstone.CbMintTrigger
       Scenario.activeStream)
  = Scenario.activeStream.
Proof.
  apply (listener_registry "mint_trigger" Yellowstone.CbMintTrigger
           Yellowstone.CbMintTrigger Scenario.activeStream).
  reflexivity.
Defined.

(** X8. Listeners are called in the order of their registration.  On a
    frame with a transaction update, the listeners that were there are
    called first and then those registered since under fresh ids, in the
    order they were registered, each with the same decoded event;
    registering again under one of these ids changes which callback is
    called, not its place, and a listener that was removed is left out.
    An update without its nested transaction makes the handler throw
    before any listener is called, the blockhash of the same frame being
    stored all the same.  A frame without an update calls nobody. *)
Theorem onData_dispatch (bs58 : string -> string) (now : Z)
    (data : Yellowstone.Frame) (s : Yellowstone.YellowstoneUnifiedStream)
    (regs : list (string * Yellowstone.Callback)) :
  List.NoDup (List.map fst regs) ->
  (forall id, In id (List.map fst regs) -> Yellowstone.txCallbacks s !! id = None) ->
  let calls := fun c => snd (fst (Yellowstone.onData bs58 now data c)) in
  let s' := StreamRun.register regs s in
  match Yellowstone.f_transaction data with
  | Some (Yellowstone.TxUpdate tf) =>
      calls s'
      = calls s ++ List.map (fun reg => (snd reg, Yellowstone.decode bs58 tf)) regs
      /\ (forall id cb', In id (List.map fst regs) ->
            calls (Yellowstone.onTransaction id cb' s')
            = calls s
              ++ List.map (fun reg => (if String.eqb (fst reg) id then cb' else snd reg,
                                       Yellowstone.decode bs58 tf)) regs)
      /\ (forall id, In id (List.map fst regs) ->
            calls (Yellowstone.offTransaction id s')
            = calls s
              ++ List.map (fun reg => (snd reg, Yellowstone.decode bs58 tf))
                   (List.filter (fun reg => negb (String.eqb (fst reg) id)) regs))
      /\ exists fetch, snd (Yellowstone.onData bs58 now data s') = Ok fetch
  | Some Yellowstone.TxNoInner =>
      calls s' = []
      /\ (exists e, snd (Yellowstone.onData bs58 now data s') = Throw e)
      /\ forall a, StreamRun.anchorOf data = Some a ->
           Yellowstone.getLatestBlockhash
             (fst (fst (Yellowstone.onData bs58 now data s'))) = Some a
  | None =>
      calls s' = []
      /\ exists fetch, snd (Yellowstone.onData bs58 now data s') = Ok fetch
  end.
Proof.
  intros Hnd Hfresh. cbv zeta.
  destruct (Yellowstone.f_transaction data) as [[tf|]|] eqn:Ht.
  - pose proof (register_entries regs s Hnd Hfresh) as He.
    rewrite !(onData_calls bs58 now data tf _ Ht), He, List.map_app.
    split; [reflexivity|]. split; [|split].
    + intros id cb' Hin. rewrite (onData_calls bs58 now data tf _ Ht).
      cbn [Yellowstone.txCallbacks Yellowstone.onTransaction].
      unfold JsMap.set.
      assert (Hhas : JsMap.has id
                       (Yellowstone.txCallbacks (StreamRun.register regs s)) = true).
      { unfold JsMap.has. rewrite He, existsb_app. apply orb_true_iff. right.
        apply existsb_exists. apply in_map_iff in Hin as (reg & <- & Hin).
        exists reg. split; [exact Hin | apply String.eqb_refl]. }
      rewrite Hhas. cbn [JsMap.entries]. rewrite He, !List.map_app.
      rewrite (JsMap_map_fresh id cb' _ (fresh_entries regs s id Hfresh Hin)).
      f_equal. rewrite map_map. apply map_ext. intros [k c]. cbn.
      now destruct (String.eqb k id).
    + intros id Hin. rewrite (onData_calls bs58 now data tf _ Ht).
      cbn [Yellowstone.txCallbacks Yellowstone.offTransaction].
      unfold JsMap.delete. cbn [JsMap.entries].
      rewrite He, List.filter_app, List.map_app.
      now rewrite (JsMap_filter_fresh id _ (fresh_entries regs s id Hfresh Hin)).
    + unfold Yellowstone.onData. rewrite Ht. cbn. eauto.
  - split; [|split].
    + unfold Yellowstone.onData. now rewrite Ht.
    + unfold Yellowstone.onData. rewrite Ht. cbn. eauto.
    + intros a Ha. now apply onData_anchor.
  - split.
    + unfold Yellowstone.onData. now rewrite Ht.
    + unfold Yellowstone.onData. rewrite Ht. cbn. eauto.
Qed.

Lemma onData_dispatch_witness :
  let event :=
    {| Yellowstone.tf_signature := Some "sig1"; Yellowstone.tf_accountKeys := None;
       Yellowstone.tf_logMessages := Some ["Program log: Instruction: CompleteLaunch"];
       Yellowstone.tf_err := None; Yellowstone.tf_slot := Some 42%Z |} in
  let data :=
    {| Yellowstone.f_block := None; Yellowstone.f_blockMeta := None;
       Yellowstone.f_transaction := Some (Yellowstone.TxUpdate event);
       Yellowstone.f_slot := false |} in
  snd (fst (Yellowstone.onData (fun x => x) 5 data
              (StreamRun.register
                 [("zeta", Yellowstone.CbMintTrigger);
                  ("alpha", Yellowstone.CbHandleTransaction)]
                 (Yellowstone.newStream "grpc.example:443" None))))
  = [(Yellowstone.CbMintTrigger, Yellowstone.decode (fun x => x) event);
     (Yellowstone.CbHandleTransaction, Yellowstone.decode (fun x => x) event)].
Proof.
  cbv zeta.
  apply (onData_dispatch (fun x => x) 5
           {| Yellowstone.f_block := None; Yellowstone.f_blockMeta := None;
              Yellowstone.f_transaction :=
                Some (Yellowstone.TxUpdate
                        {| Yellowstone.tf_signature := Some "sig1";
                           Yellowstone.tf_accountKeys := None;
                           Yellowstone.tf_logMessages :=
                             Some ["Program log: Instruction: CompleteLaunch"];
                           Yellowstone.tf_err := None;
                           Yellowstone.tf_slot := Some 42%Z |});
              Yellowstone.f_slot := false |}
           (Yellowstone.newStream "grpc.example:443" None)
           [("zeta", Yellowstone.CbMintTrigger);
            ("alpha", Yellowstone.CbHandleTransaction)]).
  - repeat constructor; cbn; intuition discriminate.
  - intros id _. reflexivity.
Defined.


(** X10. The account list of a decoded event never holds an empty
    string and is no longer than the list of keys in the frame. *)
Theorem decode_accounts (bs58 : string -> string) (tf : Yellowstone.TransactionFrame) :
  (forall a, In a (Yellowstone.td_accounts (Yellowstone.decode bs58 tf)) ->
             a <> EmptyString)
  /\ (List.length (Yellowstone.td_accounts (Yellowstone.decode bs58 tf))
      <= List.length (match Yellowstone.tf_accountKeys tf with
                      | Some ks => ks
                      | None => []
                      end))%nat.
Proof.
  unfold Yellowstone.decode. cbn [Yellowstone.td_accounts]. split.
  - intros a Ha. apply filter_In in Ha as [_ Ha].
    intros ->. discriminate.
  - etransitivity; [apply filter_length_le|]. now rewrite length_map.
Qed.

(** ** Starting the stream and what the executor makes of it *)
Section StartFacts.
Import Yellowstone StreamStart.

Lemma refreshes_isStreaming (ticks : list (Z * Res (string * Z)))
    (s : YellowstoneUnifiedStream) :
  isStreaming (refreshes ticks s) = isStreaming s.
Proof.
  revert s. induction ticks as [|[t r] ticks IH]; intros s; [reflexivity|].
  cbn [refreshes fold_left]. fold (refreshes ticks). rewrite IH.
  unfold blockhashRefresh, onRpcBlockhash. cbn [fst snd].
  destruct r as [[h height]|e]; cbn; [apply orb_false_r | reflexivity].
Qed.

Lemma stripTrailingSlash_split (e : string) :
  e = stripTrailingSlash e \/ e = stripTrailingSlash e +:+ "/".
Proof.
  induction e as [|c rest IH]; [now left|].
  cbn [stripTrailingSlash]. destruct rest as [|d rest].
  - destruct (Ascii.eqb_spec c "/") as [->|Hne]; [now right | now left].
  - destruct IH as [IH|IH]; [left | right]; unfold_append; now rewrite <- IH.
Qed.

Lemma lit_split (p s r : string) : Geyser.lit false p s = Some r -> s = p +:+ r.
Proof.
  revert s. induction p as [|a p IH]; intros s; cbn [Geyser.lit].
  - now intros [= ->].
  - destruct s as [|c s]; [discriminate|]. unfold Geyser.charEq.
    destruct (Ascii.eqb_spec a c) as [->|Hne]; [|discriminate].
    intros H. unfold_append. now rewrite (IH s H).
Qed.

Lemma stripProtocol_split (ps : list string) (e : string) :
  exists p, (p = EmptyString \/ In p ps) /\ e = p +:+ stripProtocol ps e.
Proof.
  induction ps as [|p ps IH]; cbn [stripProtocol].
  - exists EmptyString. split; [now left | reflexivity].
  - destruct (Geyser.lit false p e) as [r|] eqn:E.
    + exists p. split; [right; now left | now apply lit_split].
    + destruct IH as (q & [->|Hq] & Heq).
      * exists EmptyString. split; [now left | exact Heq].
      * exists q. split; [right; now right | exact Heq].
Qed.

End StartFacts.

(** X11. [startUnifiedStream] does nothing on a client that is already
    streaming, and throws without a change when no endpoint is set or
    the subscription cannot be opened.  Otherwise it returns with the
    subscription in place and the listeners kept; the client is active
    exactly when a non-empty blockhash came back, from the gRPC client or,
    that call having failed, from the RPC fallback; and a refresh timer
    is started exactly when the client ends up streaming. *)
Theorem startUnifiedStream_outcome (now : Z) (subscribe : Res nat)
    (grpc : Res (option (string * Z))) (rpc : Res (string * Z))
    (s : Yellowstone.YellowstoneUnifiedStream) :
  match StreamStart.startUnifiedStream now subscribe grpc rpc s with
  | Throw error =>
      Yellowstone.isStreaming s = false
      /\ ((Yellowstone.endpoint s = EmptyString
           /\ error = mkError "GEYSER_RPC_URL required for gRPC streaming")
          \/ subscribe = Throw error)
  | Ok (s', timer) =>
      Yellowstone.txCallbacks s' = Yellowstone.txCallbacks s
      /\ if Yellowstone.isStreaming s then s' = s /\ timer = false
         else exists handle,
             subscribe = Ok handle
             /\ Yellowstone.stream s' = Some handle
             /\ timer = Yellowstone.isStreaming s'
             /\ (Yellowstone.isActive s' = true
                 <-> exists hash height,
                       hash <> EmptyString
                       /\ (grpc = Ok (Some (hash, height))
                           \/ (exists e, grpc = Throw e) /\ rpc = Ok (hash, height)))
  end.
Proof.
  unfold StreamStart.startUnifiedStream.
  destruct (Yellowstone.isStreaming s) eqn:Hst.
  { try rewrite Hst. now repeat split. }
  destruct (String.eqb_spec (Yellowstone.endpoint s) "") as [He|He].
  { split; [reflexivity|]. now left. }
  destruct subscribe as [handle|error]; [|split; [reflexivity | now right]].
  destruct grpc as [[[hash height]|]|e].
  - destruct (Yellowstone.truthyStr (Some hash)) eqn:Ht; cbn [Yellowstone.truthyStr] in Ht.
    + split; [reflexivity|]. try rewrite Hst. exists handle.
      split; [reflexivity|]. split; [reflexivity|]. split; [reflexivity|].
      unfold Yellowstone.isActive. cbn. rewrite Ht. split; [|reflexivity].
      intros _. exists hash, height. split; [|now left].
      intros ->. discriminate.
    + split; [reflexivity|]. try rewrite Hst. exists handle.
      split; [reflexivity|]. split; [reflexivity|]. split; [now cbn|].
      unfold Yellowstone.isActive. cbn. try rewrite Hst. cbn. split; [discriminate|].
      intros (h & ht & Hne & [[= -> ->]|[[e [=]] _]]).
      apply String.eqb_neq in Hne. rewrite Hne in Ht. discriminate.
  - split; [reflexivity|]. try rewrite Hst. exists handle.
    split; [reflexivity|]. split; [reflexivity|]. split; [now cbn|].
    unfold Yellowstone.isActive. cbn. try rewrite Hst. cbn. split; [discriminate|].
    intros (h & ht & _ & [[=]|[[e' [=]] _]]).
  - unfold Yellowstone.fetchBlockhashFromSlot, Yellowstone.onRpcBlockhash.
    destruct rpc as [[hash height]|e'].
    + split; [reflexivity|]. try rewrite Hst. exists handle.
      split; [reflexivity|]. split; [reflexivity|].
      split; [cbn; try rewrite Hst; reflexivity|].
      unfold Yellowstone.isActive. cbn. split.
      * intros Ht. exists hash, height. split.
        -- intros ->. discriminate.
        -- right. split; [now exists e | reflexivity].
      * intros (h & ht & Hne & [[=]|[_ [= -> ->]]]).
        apply String.eqb_neq in Hne. now rewrite Hne.
    + split; [reflexivity|]. try rewrite Hst. exists handle.
      split; [reflexivity|]. split; [reflexivity|]. split; [now cbn|].
      unfold Yellowstone.isActive. cbn. try rewrite Hst. cbn. split; [discriminate|].
      intros (h & ht & _ & [[=]|[_ [=]]]).
Qed.

(** X12. After a stream error or end the 5-second timer goes on writing
    fresh blockhashes into the cache, yet the client stays inactive, so
    every [getBlockhash] of the executor makes its own RPC call. *)
Theorem getBlockhash_after_stream_error (config : Executor.TxExecutorConfig)
    (env : Env) (w : World) (s : Yellowstone.YellowstoneUnifiedStream)
    (ticks : list (Z * Res (string * Z))) :
  yellowstoneStream w
  = Some (StreamStart.refreshes ticks (Yellowstone.onErrorOrEnd s)) ->
  Executor.getBlockhash config env w
  = (match rpc_getLatestBlockhash env (List.length (trace w)) with
     | Ok r => Ret (fst r)
     | Throw e => Raise e
     end,
     withTrace (trace w ++ [CGetLatestBlockhash]) w).
Proof.
  intros Hs. rewrite (getBlockhash_with_stream config env w _ Hs).
  unfold Yellowstone.isActive. rewrite refreshes_isStreaming. cbn [Yellowstone.onErrorOrEnd
    Yellowstone.isStreaming andb].
  rewrite <- fetchBlockhash_run.
  now destruct (Executor.useGrpcBlockhash config) as [[|]|].
Qed.

Lemma getBlockhash_after_stream_error_witness :
  Yellowstone.latestBlockhash
    (StreamStart.refreshes [(9000%Z, Ok ("TimerHash", 300%Z))]
       (Yellowstone.onErrorOrEnd Scenario.activeStream)) = Some "TimerHash"
  /\ Executor.getBlockhash PoolCreator.txExecutor Scenario.calm
       (withStream
          (Some (StreamStart.refreshes [(9000%Z, Ok ("TimerHash", 300%Z))]
                   (Yellowstone.onErrorOrEnd Scenario.activeStream)))
          Scenario.monitoring)
     = (Ret "FreshHash",
        withTrace [CGetLatestBlockhash]
          (withStream
             (Some (StreamStart.refreshes [(9000%Z, Ok ("TimerHash", 300%Z))]
                      (Yellowstone.onErrorOrEnd Scenario.activeStream)))
             Scenario.monitoring)).
Proof.
  split; [reflexivity|].
  rewrite (getBlockhash_after_stream_error PoolCreator.txExecutor Scenario.calm
             (withStream
                (Some (StreamStart.refreshes [(9000%Z, Ok ("TimerHash", 300%Z))]
                         (Yellowstone.onErrorOrEnd Scenario.activeStream)))
                Scenario.monitoring)
             Scenario.activeStream [(9000%Z, Ok ("TimerHash", 300%Z))] eq_refl).
  reflexivity.
Defined.

(** X13. Before the stream singleton exists, [getBlockhash] does not fall
    back to the RPC call when the gRPC endpoint is not configured: it
    throws, without any call.  When the endpoint is configured it creates
    the singleton, which is inactive, and makes the RPC call. *)
Theorem getBlockhash_without_singleton (config : Executor.TxExecutorConfig)
    (env : Env) (w : World) :
  yellowstoneStream w = None ->
  Executor.useGrpcBlockhash config <> Some false ->
  (Yellowstone.truthyStr (geyserRpcUrl w) = false ->
   Executor.getBlockhash config env w
   = (Raise (mkError "GEYSER_RPC_URL is not configured"), w))
  /\ (forall url,
         geyserRpcUrl w = Some url -> url <> EmptyString ->
         Executor.getBlockhash config env w
         = Executor.fetchBlockhash env
             (withStream (Some (Yellowstone.newStream url (geyserXToken w))) w)).
Proof.
  intros Hnone Hcfg.
  assert (E : Executor.getBlockhash config env w
              = (do yellowstone <- getYellowstoneStream ;;
                 match Yellowstone.getLatestBlockhash yellowstone with
                 | Some cached =>
                     if Yellowstone.isActive yellowstone then ret (fst cached)
                     else Executor.fetchBlockhash
                 | None => Executor.fetchBlockhash
                 end) env w).
  { unfold Executor.getBlockhash.
    destruct (Executor.useGrpcBlockhash config) as [[|]|]; congruence. }
  rewrite E. unfold bind, getYellowstoneStream. rewrite Hnone. split.
  - intros Ht. destruct (geyserRpcUrl w) as [u|]; [|reflexivity].
    cbn in Ht. apply negb_false_iff in Ht. now rewrite Ht.
  - intros url -> Hne. apply String.eqb_neq in Hne. now rewrite Hne.
Qed.

Lemma getBlockhash_without_singleton_witness :
  Executor.getBlockhash PoolCreator.txExecutor Scenario.calm
    {| now := 0; geyserRpcUrl := None; geyserXToken := None;
       yellowstoneStream := None; subscriptions := ∅;
       isExecuting := false; hasExecuted := false; trace := [] |}
  = (Raise (mkError "GEYSER_RPC_URL is not configured"),
     {| now := 0; geyserRpcUrl := None; geyserXToken := None;
        yellowstoneStream := None; subscriptions := ∅;
        isExecuting := false; hasExecuted := false; trace := [] |})
  /\ fst (Executor.getBlockhash PoolCreator.txExecutor Scenario.calm
            (withStream None Scenario.monitoring))
     = Ret "FreshHash".
Proof.
  split.
  - apply (getBlockhash_without_singleton PoolCreator.txExecutor Scenario.calm);
      [reflexivity | discriminate | reflexivity].
  - destruct (getBlockhash_without_singleton PoolCreator.txExecutor Scenario.calm
                (withStream None Scenario.monitoring) eq_refl) as [_ H];
      [discriminate|].
    rewrite (H "grpc.example:443"%string eq_refl); [reflexivity | discriminate].
Defined.

(** X14. [parseGrpcEndpoint] removes at most one of the three protocol
    prefixes from the front and at most one slash from the end, and
    nothing else. *)
Theorem parseGrpcEndpoint_split (endpoint : string) :
  exists prefix suffix,
    endpoint = prefix +:+ StreamStart.parseGrpcEndpoint endpoint +:+ suffix
    /\ (prefix = EmptyString \/ In prefix StreamStart.protocols)
    /\ (suffix = EmptyString \/ suffix = "/"%string).
Proof.
  unfold StreamStart.parseGrpcEndpoint.
  destruct (String.eqb_spec endpoint "") as [->|Hne].
  - exists EmptyString, EmptyString. repeat split; now left.
  - destruct (stripProtocol_split StreamStart.protocols endpoint) as (p & Hp & Hsplit).
    destruct (stripTrailingSlash_split (StreamStart.stripProtocol StreamStart.protocols endpoint))
      as [H|H].
    + exists p, EmptyString. rewrite append_empty_r, <- H.
      split; [exact Hsplit|]. split; [exact Hp | now left].
    + exists p, "/"%string. rewrite <- H.
      split; [exact Hsplit|]. split; [exact Hp | now right].
Qed.

Example parseGrpcEndpoint_full :
  StreamStart.parseGrpcEndpoint "https://grpc.triton.one:443/" = "grpc.triton.one:443".
Proof. reflexivity. Qed.

(** One pass only: a second prefix and a second slash stay. *)
Example parseGrpcEndpoint_once :
  StreamStart.parseGrpcEndpoint "http://grpc://host//" = "grpc://host/".
Proof. reflexivity. Qed.

(** ** What the submission paths leave alone *)
Section QuietFacts.
Variable env : Env.

Lemma quiet_ret {A} (a : A) : quiet env (ret a).
Proof. intros w out w' [= <- <-]. now repeat split. Qed.

Lemma quiet_throw {A} (e : Error) : quiet env (@throw A e).
Proof. intros w out w' [= <- <-]. now repeat split. Qed.

Lemma quiet_call {A} (c : Call) (answer : Env -> nat -> Res A) :
  quiet env (call c answer).
Proof.
  intros w out w'. rewrite call_run. intros [= <- <-].
  split; [|now repeat split]. intros code. now destruct (answer env _).
Qed.

Lemma quiet_bind {A B} (c : M A) (k : A -> M B) :
  quiet env c -> (forall a, quiet env (k a)) -> quiet env (bind c k).
Proof.
  intros Hc Hk w out w'. unfold bind.
  destruct (c env w) as [[a|e|n] w1] eqn:E;
    destruct (Hc w _ w1 E) as (Hex & Hx & Hh & Hsub & Hs).
  - intros H. destruct (Hk a w1 out w' H) as (Hex' & Hx' & Hh' & Hsub' & Hs').
    split; [exact Hex'|]. split; [congruence|]. split; [congruence|].
    split; [congruence|]. intros s Hw. apply Hs'. now apply Hs.
  - intros [= <- <-]. now repeat split.
  - now destruct (Hex n).
Qed.

Lemma quiet_tryCatch {A} (c : M A) (h : Error -> M A) :
  quiet env c -> (forall e, quiet env (h e)) -> quiet env (tryCatch c h).
Proof.
  intros Hc Hh w out w'. unfold tryCatch.
  destruct (c env w) as [[a|e|n] w1] eqn:E;
    destruct (Hc w _ w1 E) as (Hex & Hx & Hhe & Hsub & Hs).
  - intros [= <- <-]. now repeat split.
  - intros H. destruct (Hh e w1 out w' H) as (Hex' & Hx' & Hh' & Hsub' & Hs').
    split; [exact Hex'|]. split; [congruence|]. split; [congruence|].
    split; [congruence|]. intros s Hw. apply Hs'. now apply Hs.
  - now destruct (Hex n).
Qed.

Lemma quiet_getYellowstoneStream : quiet env getYellowstoneStream.
Proof.
  intros w out w'. unfold getYellowstoneStream.
  destruct (yellowstoneStream w) as [s|] eqn:Hs.
  - intros [= <- <-]. repeat split; try discriminate. intros s0 H. congruence.
  - destruct (geyserRpcUrl w) as [u|]; [destruct (String.eqb u "")|];
      intros [= <- <-]; repeat split; try discriminate; cbn; congruence.
Qed.

Lemma quiet_fetchBlockhash : quiet env Executor.fetchBlockhash.
Proof.
  apply quiet_bind; [apply quiet_call | intros r; apply quiet_ret].
Qed.

Lemma quiet_getBlockhash (config : Executor.TxExecutorConfig) :
  quiet env (Executor.getBlockhash config).
Proof.
  assert (G : quiet env
                (do yellowstone <- getYellowstoneStream ;;
                 match Yellowstone.getLatestBlockhash yellowstone with
                 | Some cached =>
                     if Yellowstone.isActive yellowstone then ret (fst cached)
                     else Executor.fetchBlockhash
                 | None => Executor.fetchBlockhash
                 end)).
  { apply quiet_bind; [apply quiet_getYellowstoneStream|]. intros ys.
    destruct (Yellowstone.getLatestBlockhash ys); [destruct (Yellowstone.isActive ys)|];
      try apply quiet_fetchBlockhash. apply quiet_ret. }
  unfold Executor.getBlockhash.
  destruct (Executor.useGrpcBlockhash config) as [[|]|]; try exact G.
  apply quiet_fetchBlockhash.
Qed.

Lemma quiet_signing tx signers : quiet env (Executor.signing tx signers).
Proof.
  intros w out w' H.
  destruct (signing_cases tx signers env w) as [[e He]|He]; rewrite He in H;
    injection H as <- <-; now repeat split.
Qed.

Lemma quiet_serialize tx : quiet env (Executor.serialize tx).
Proof.
  intros w out w' H.
  destruct (serialize_cases tx env w) as [[e He]|He]; rewrite He in H;
    injection H as <- <-; now repeat split.
Qed.

Lemma quiet_sendAndSign config tx signers options :
  quiet env (Executor.sendAndSign config tx signers options).
Proof.
  apply quiet_bind; [apply quiet_getBlockhash | intros h].
  apply quiet_bind; [apply quiet_signing | intros tx'].
  apply quiet_bind; [apply quiet_serialize | intros _; apply quiet_call].
Qed.

Lemma quiet_sendAddLiquidity config tx wallet nft :
  quiet env (Executor.sendAddLiquidity config tx wallet nft).
Proof.
  apply quiet_bind; [apply quiet_sendAndSign|]. intros sig.
  apply quiet_bind; [apply quiet_call | intros u; apply quiet_ret].
Qed.

Lemma quiet_addLiquidity (pc : PoolCreator.MetaDAOPoolCreator) :
  quiet env (PoolCreator.addLiquidityToExistingPool pc).
Proof.
  unfold PoolCreator.addLiquidityToExistingPool.
  apply quiet_bind.
  { unfold unwrap. destruct (PoolCreator.cache pc); [apply quiet_ret | apply quiet_throw]. }
  intros c w out w' H.
  revert w out w' H.
  change (quiet env
            (do poolState <- call (CFetchPoolState (PoolCreator.existingPoolPda env pc (PoolCreator.baseMint c)))
                               (fun env n => amm_fetchPoolState env n
                                               (PoolCreator.existingPoolPda env pc (PoolCreator.baseMint c))) ;;
             let isTokenA := String.eqb (tokenAMint poolState) (PoolCreator.baseMint c) in
             let depositQuote := getDepositQuote env (PoolCreator.depositParams pc poolState isTokenA) in
             do positionNft <- call CKeypairGenerate (fun env n => Ok (keypair_generate env n)) ;;
             let params := PoolCreator.addLiquidityParams pc
                             (PoolCreator.existingPoolPda env pc (PoolCreator.baseMint c))
                             poolState isTokenA depositQuote positionNft in
             do tx <- call (CCreatePositionAndAddLiquidity params)
                        (fun env n => amm_createPositionAndAddLiquidity env n params) ;;
             do signature <- Executor.sendAddLiquidity PoolCreator.txExecutor
                               (PoolCreator.withFeePayer (publicKey (PoolCreator.wallet pc)) tx)
                               (PoolCreator.wallet pc) positionNft ;;
             let positionPda :=
               findProgramAddressSync env ["position"; publicKey positionNft]
                 (PoolCreator.dammV2ProgramId (PoolCreator.config pc)) in
             ret {| signature := signature;
                    res_poolPda := PoolCreator.existingPoolPda env pc (PoolCreator.baseMint c);
                    res_positionPda := positionPda;
                    res_tokenAccount := Some (PoolCreator.tokenAccount c);
                    res_baseMint := PoolCreator.baseMint c |})).
  apply quiet_bind; [apply quiet_call|]. intros poolState. cbv zeta.
  apply quiet_bind; [apply quiet_call|]. intros nft.
  apply quiet_bind; [apply quiet_call|]. intros tx.
  apply quiet_bind; [apply quiet_sendAddLiquidity|]. intros sig. apply quiet_ret.
Qed.

Lemma quiet_executeInstantFire (pc : PoolCreator.MetaDAOPoolCreator) :
  quiet env (PoolCreator.executeInstantFire pc).
Proof.
  unfold PoolCreator.executeInstantFire.
  destruct (PoolCreator.cache pc) as [c|] eqn:Hc; [|apply quiet_throw].
  apply quiet_bind; [apply quiet_sendAndSign|]. intros claimSig.
  apply quiet_bind; [apply quiet_call|]. intros poolExists.
  destruct (negb poolExists).
  - apply quiet_bind; [apply quiet_sendAndSign | intros sig; apply quiet_ret].
  - apply quiet_addLiquidity.
Qed.

Lemma quiet_primary (pc : PoolCreator.MetaDAOPoolCreator) :
  quiet env (AutoPool.primary pc).
Proof.
  apply quiet_tryCatch; [|intros e]; apply quiet_executeInstantFire.
Qed.

End QuietFacts.

(** ** What the submission paths send *)

Ltac tidy :=
  unfold ret, throw, returned, threw, sentBy; cbn [fst snd trace withTrace];
  rewrite ?sends_app; cbn [sends flat_map List.app];
  rewrite ?app_nil_r, <- ?app_assoc; cbn [List.app].

Ltac tidy_in H :=
  cbv zeta in H; unfold returned, threw, sentBy in H;
  cbn [fst snd trace withTrace] in H;
  rewrite ?sends_app in H; cbn [sends flat_map List.app] in H;
  rewrite ?app_nil_r, <- ?app_assoc in H; cbn [List.app] in H.

Section SendFacts.
Variable env : Env.

Lemma call_sends {A} (c : Call) (answer : Env -> nat -> Res A) (w : World) :
  sends (trace (snd (call c answer env w))) = sends (trace w) ++ sends [c].
Proof. rewrite call_run. cbn [snd trace withTrace]. apply sends_app. Qed.

(** A send either returns having sent once, or throws having sent
    nothing (no blockhash), or throws having sent once. *)
Lemma sendAndSign_cases (config : Executor.TxExecutorConfig) (tx : Transaction)
    (signers : list Keypair) (options : option Executor.Options) (w : World) :
  let r := Executor.sendAndSign config tx signers options env w in
  (returned r /\ sentBy w r [sendOptionsOf config options])
  \/ (threw r /\ sentBy w r [])
  \/ (threw r /\ sentBy w r [sendOptionsOf config options]).
Proof.
  cbv zeta.
  remember (Executor.sendAndSign config tx signers options env w) as r eqn:Hr.
  unfold sentBy, returned, threw. unfold Executor.sendAndSign in Hr.
  unfold bind at 1 in Hr.
  pose proof (getBlockhash_sends config env w) as Hs.
  destruct (Executor.getBlockhash config env w) as [[h|e|n] w1] eqn:E; cbn [snd] in Hs.
  - unfold bind at 1 in Hr.
    destruct (signing_cases (Executor.stamp h tx) signers env w1) as [[e He]|He];
      rewrite He in Hr.
    { subst r. right; left. cbn. rewrite app_nil_r. eauto. }
    unfold bind at 1 in Hr.
    destruct (serialize_cases (Executor.sign (Executor.stamp h tx) signers) env w1)
      as [[e He']|He']; rewrite He' in Hr.
    { subst r. right; left. cbn. rewrite app_nil_r. eauto. }
    fold (sendOptionsOf config options) in Hr. rewrite call_run in Hr. subst r.
    cbn [fst snd trace withTrace].
    rewrite sends_app, Hs. cbn [sends flat_map List.app].
    destruct (rpc_sendRawTransaction env _ _ _); [left | right; right]; eauto.
  - subst r. right; left. cbn. rewrite app_nil_r. eauto.
  - destruct (quiet_getBlockhash env config w _ w1 E) as [Hex _]. now destruct (Hex n).
Qed.

Lemma addLiquidity_cases (pc : PoolCreator.MetaDAOPoolCreator) (w : World)
    (r : Out PoolCreationResult * World) :
  PoolCreator.addLiquidityToExistingPool pc env w = r ->
  (returned r /\ sentBy w r [claimOptions])
  \/ (threw r /\ sentBy w r [])
  \/ (threw r /\ sentBy w r [claimOptions]).
Proof.
  unfold PoolCreator.addLiquidityToExistingPool, bind at 1, unwrap.
  destruct (PoolCreator.cache pc) as [c|] eqn:Hc;
    [|intros <-; right; left; tidy; eauto].
  unfold ret at 1. unfold bind at 1. rewrite call_run.
  destruct (amm_fetchPoolState env _ _) as [poolState|e];
    [|intros <-; right; left; tidy; eauto].
  unfold bind at 1. rewrite call_run.
  unfold bind at 1. rewrite call_run.
  destruct (amm_createPositionAndAddLiquidity env _ _) as [tx|e];
    [|intros <-; right; left; tidy; eauto].
  unfold bind at 1, Executor.sendAddLiquidity, bind at 1.
  match goal with
  | |- context [Executor.sendAndSign ?cfg ?t ?sg ?o env ?w0] =>
      pose proof (sendAndSign_cases cfg t sg o w0) as Hsend;
      destruct (Executor.sendAndSign cfg t sg o env w0) as [[sig|e|n] w1] eqn:E
  end; tidy_in Hsend.
  - destruct Hsend as [[_ Hs]|[[[e [=]] _]|[[e [=]] _]]].
    unfold bind at 1. rewrite call_run.
    destruct (rpc_confirmTransaction env _ _); intros <-; [left | right; right];
      tidy; rewrite Hs; eauto.
  - intros <-.
    destruct Hsend as [[[a [=]] _]|[[_ Hs]|[_ Hs]]];
      [right; left | right; right]; tidy; rewrite Hs; eauto.
  - destruct Hsend as [[[a [=]] _]|[[[e [=]] _]|[[e [=]] _]]].
Qed.

Lemma executeInstantFire_cases (pc : PoolCreator.MetaDAOPoolCreator) (w : World)
    (r : Out PoolCreationResult * World) :
  PoolCreator.executeInstantFire pc env w = r ->
  exists sent,
    sentBy w r sent
    /\ (sent = [] \/ sent = [claimOptions]
        \/ sent = [claimOptions; poolOptions]
        \/ sent = [claimOptions; {| skipPreflight := false; maxRetries := 2 |}])
    /\ (returned r -> List.length sent = 2%nat).
Proof.
  unfold PoolCreator.executeInstantFire.
  destruct (PoolCreator.cache pc) as [c|] eqn:Hc.
  2:{ intros <-. exists []. tidy.
      split; [reflexivity|]. split; [now left|]. intros [a [=]]. }
  unfold bind at 1, Executor.sendClaim.
  match goal with
  | |- context [Executor.sendAndSign ?cfg ?t ?sg ?o env w] =>
      pose proof (sendAndSign_cases cfg t sg o w) as Hclaim;
      destruct (Executor.sendAndSign cfg t sg o env w) as [[sig|e|n] w1] eqn:E1
  end; tidy_in Hclaim.
  - destruct Hclaim as [[_ Hs1]|[[[e [=]] _]|[[e [=]] _]]].
    change (sendOptionsOf PoolCreator.txExecutor _) with claimOptions in Hs1.
    unfold bind at 1. rewrite call_run.
    destruct (rpc_getAccountInfo env _ _) as [poolExists|e].
    2:{ intros <-. exists [claimOptions]. tidy. split; [exact Hs1|].
        split; [right; now left|]. intros [a [=]]. }
    destruct poolExists; cbn [negb].
    + intros Hr. pose proof (addLiquidity_cases pc _ r Hr) as Hadd.
      tidy_in Hadd. rewrite Hs1 in Hadd. tidy_in Hadd. tidy.
      destruct Hadd as [[_ Hs]|[[[e He] Hs]|[[e He] Hs]]].
      * exists [claimOptions; claimOptions]. split; [exact Hs|].
        split; [now right; right; right | reflexivity].
      * exists [claimOptions]. split; [exact Hs|]. split; [right; now left|].
        intros [a Ha]. congruence.
      * exists [claimOptions; claimOptions]. split; [exact Hs|].
        split; [now right; right; right | reflexivity].
    + unfold bind at 1, Executor.sendPoolCreation.
      match goal with
      | |- context [Executor.sendAndSign ?cfg ?t ?sg ?o env ?w0] =>
          pose proof (sendAndSign_cases cfg t sg o w0) as Hpool;
          destruct (Executor.sendAndSign cfg t sg o env w0) as [[sig2|e|n] w2] eqn:E2
      end; tidy_in Hpool;
        change (sendOptionsOf PoolCreator.txExecutor _) with poolOptions in Hpool;
        rewrite Hs1 in Hpool; tidy_in Hpool; intros <-; tidy.
      * destruct Hpool as [[_ Hs]|[[[e [=]] _]|[[e [=]] _]]].
        exists [claimOptions; poolOptions]. split; [exact Hs|].
        split; [now right; right; left | reflexivity].
      * destruct Hpool as [[[a [=]] _]|[[_ Hs]|[_ Hs]]].
        -- exists [claimOptions]. split; [exact Hs|]. split; [right; now left|].
           intros [a [=]].
        -- exists [claimOptions; poolOptions]. split; [exact Hs|].
           split; [now right; right; left | reflexivity].
      * destruct Hpool as [[[a [=]] _]|[[[e [=]] _]|[[e [=]] _]]].
  - intros <-. destruct Hclaim as [[[a [=]] _]|[[_ Hs]|[_ Hs]]].
    + exists []. tidy. split; [exact Hs|]. split; [now left|]. intros [a [=]].
    + exists [claimOptions]. tidy. split; [exact Hs|].
      split; [right; now left|]. intros [a [=]].
  - destruct Hclaim as [[[a [=]] _]|[[[e [=]] _]|[[e [=]] _]]].
Qed.

End SendFacts.

(** X15. [executeInstantFire] sends the claim before anything else and
    then at most one more transaction: the cached pool creation or the
    add-liquidity transaction, never both.  When it returns it has sent
    exactly two transactions. *)
Theorem executeInstantFire_sends (pc : PoolCreator.MetaDAOPoolCreator)
    (env : Env) (w : World) :
  let r := PoolCreator.executeInstantFire pc env w in
  exists sent,
    sentBy w r sent
    /\ (sent = [] \/ sent = [claimOptions]
        \/ sent = [claimOptions; poolOptions]
        \/ sent = [claimOptions; {| skipPreflight := false; maxRetries := 2 |}])
    /\ (returned r -> List.length sent = 2%nat).
Proof. cbv zeta. apply (executeInstantFire_cases env pc w _ eq_refl). Qed.

(** X16. [sendAddLiquidity] returns a signature only when the send was
    accepted under that signature and the confirmation of the same
    signature came back; the transaction went out with pre-flight on. *)
Theorem sendAddLiquidity_confirmed (config : Executor.TxExecutorConfig)
    (tx : Transaction) (wallet positionNft : Keypair) (env : Env) (w w' : World)
    (sig : string) :
  Executor.sendAddLiquidity config tx wallet positionNft env w = (Ret sig, w') ->
  exists h wb,
    Executor.getBlockhash config env w = (Ret h, wb)
    /\ let sent := Executor.sign (Executor.stamp h tx) [wallet; positionNft] in
       let opts := {| skipPreflight := false;
                      maxRetries := Executor.nullish (Executor.cfg_maxRetries config) 2%Z |} in
       rpc_sendRawTransaction env (List.length (trace wb)) sent opts = Ok sig
       /\ rpc_confirmTransaction env (S (List.length (trace wb))) sig = Ok tt
       /\ w' = withTrace (trace wb ++ [CSendRawTransaction sent opts;
                                       CConfirmTransaction sig]) wb.
Proof.
  unfold Executor.sendAddLiquidity, bind at 1, Executor.sendAndSign, bind at 1.
  destruct (Executor.getBlockhash config env w) as [[h|e|n] wb] eqn:E; [|discriminate..].
  pass_signing.
  rewrite call_run. cbn [Executor.nullish Executor.o_skipPreflight Executor.o_maxRetries].
  destruct (rpc_sendRawTransaction env _ _ _) as [sig0|e] eqn:Es; [|discriminate].
  unfold bind at 1. rewrite call_run. cbn [trace withTrace].
  rewrite length_app. cbn [List.length]. rewrite Nat.add_1_r.
  destruct (rpc_confirmTransaction env _ _) as [[]|e] eqn:Ec; [|discriminate].
  unfold ret. intros [= <- <-]. exists h, wb. split; [reflexivity|].
  cbv zeta. split; [exact Es|]. split; [exact Ec|].
  cbn. now rewrite <- app_assoc.
Qed.

Lemma sendAddLiquidity_confirmed_witness :
  exists h wb,
    Executor.getBlockhash PoolCreator.txExecutor Scenario.calm Scenario.monitoring
    = (Ret h, wb)
    /\ let sent := Executor.sign (Executor.stamp h (Scenario.builtTx "addLiquidity"))
                     [{| publicKey := "Wallet" |}; {| publicKey := "FreshNft" |}] in
       let opts := {| skipPreflight := false;
                      maxRetries := Executor.nullish
                                      (Executor.cfg_maxRetries PoolCreator.txExecutor) 2%Z |} in
       rpc_sendRawTransaction Scenario.calm (List.length (trace wb)) sent opts = Ok "sig"
       /\ rpc_confirmTransaction Scenario.calm (S (List.length (trace wb))) "sig" = Ok tt
       /\ snd (Executor.sendAddLiquidity PoolCreator.txExecutor
                 (Scenario.builtTx "addLiquidity") {| publicKey := "Wallet" |}
                 {| publicKey := "FreshNft" |} Scenario.calm Scenario.monitoring)
          = withTrace (trace wb ++ [CSendRawTransaction sent opts;
                                    CConfirmTransaction "sig"]) wb.
Proof.
  apply (sendAddLiquidity_confirmed PoolCreator.txExecutor
           (Scenario.builtTx "addLiquidity") {| publicKey := "Wallet" |}
           {| publicKey := "FreshNft" |} Scenario.calm Scenario.monitoring).
  reflexivity.
Defined.

(** X17. [sendToMultipleRPCs] never fails: it returns, in the order of
    the endpoints, the non-empty signatures of the endpoints whose send
    (pre-flight skipped, no retry) went through, and nothing else. *)
Theorem sendToMultipleRPCs_successes
    (send : string -> string -> SendOptions -> Res string) (rawTx : string)
    (endpoints more : list string) :
  (List.length (FanOut.sendToMultipleRPCs send rawTx endpoints)
   <= List.length endpoints)%nat
  /\ (forall sig,
         In sig (FanOut.sendToMultipleRPCs send rawTx endpoints)
         <-> sig <> EmptyString
             /\ exists endpoint,
                 In endpoint endpoints
                 /\ send endpoint rawTx poolOptions = Ok sig)
  /\ FanOut.sendToMultipleRPCs send rawTx (endpoints ++ more)
     = FanOut.sendToMultipleRPCs send rawTx endpoints
       ++ FanOut.sendToMultipleRPCs send rawTx more.
Proof.
  unfold FanOut.sendToMultipleRPCs. split; [|split].
  - rewrite length_map. etransitivity; [apply filter_length_le|].
    now rewrite length_map.
  - intros sig. rewrite in_map_iff. split.
    + intros (v & Hv & Hin). apply filter_In in Hin as [Hin Ht].
      apply in_map_iff in Hin as (ep & Hep & Hin).
      destruct v as [s0|]; [|discriminate]. subst sig.
      cbn in Ht. apply negb_true_iff, String.eqb_neq in Ht. split; [exact Ht|].
      exists ep. split; [exact Hin|].
      unfold FanOut.sendOne in Hep. fold poolOptions in Hep.
      destruct (send ep rawTx poolOptions); [now inversion Hep | discriminate].
    + intros (Hne & ep & Hin & Hsend). exists (Some sig). split; [reflexivity|].
      apply filter_In. split.
      * apply in_map_iff. exists ep. split; [|exact Hin].
        unfold FanOut.sendOne. fold poolOptions. now rewrite Hsend.
      * cbn. now apply negb_true_iff, String.eqb_neq.
  - now rewrite List.map_app, List.filter_app, List.map_app.
Qed.

(** X18. The pool address of the fallback depends on the two mints as a
    pair, not on which of them is the base mint. *)
Theorem existingPoolPda_symmetric (env : Env) (pc pc' : PoolCreator.MetaDAOPoolCreator)
    (a b : PublicKey) :
  PoolCreator.solMint (PoolCreator.config pc) = b ->
  PoolCreator.solMint (PoolCreator.config pc') = a ->
  PoolCreator.dammV2ProgramId (PoolCreator.config pc)
  = PoolCreator.dammV2ProgramId (PoolCreator.config pc') ->
  PoolCreator.existingPoolPda env pc a = PoolCreator.existingPoolPda env pc' b.
Proof.
  intros Hb Ha Hprog. unfold PoolCreator.existingPoolPda, PoolCreator.bufferGreater.
  rewrite Hb, Ha, Hprog. rewrite (String.compare_antisym b a).
  destruct (String.compare a b) eqn:E; cbn [CompOpp]; try reflexivity.
  apply String.compare_eq_iff in E. rewrite E. reflexivity.
Qed.

Lemma existingPoolPda_symmetric_witness :
  PoolCreator.existingPoolPda Scenario.calm Scenario.creator "TokenMint"
  = PoolCreator.existingPoolPda Scenario.calm
      {| PoolCreator.config :=
           {| PoolCreator.tokenAmount := 5; PoolCreator.solAmount := 7;
              PoolCreator.solMint := "TokenMint"; PoolCreator.dammV2ProgramId := "Damm" |};
         PoolCreator.wallet := {| publicKey := "Other" |};
         PoolCreator.cache := None |}
      "So11".
Proof.
  apply (existingPoolPda_symmetric Scenario.calm Scenario.creator); reflexivity.
Defined.

(** ** The outcomes of an execution *)

Section OutcomeFacts.
Variable env : Env.

(** What follows the fallback in the outer [catch]. *)
Lemma onError_tail (error : Error) (w : World)
    (s : Yellowstone.YellowstoneUnifiedStream) :
  yellowstoneStream w = Some s ->
  (do _ <- (if AutoPool.cannotProceed error then AutoPool.finish 1 else ret tt) ;;
   modify (withIsExecuting false)) env w
  = if AutoPool.cannotProceed error
    then (Exit 1,
          withTrace (trace w ++ snd (Yellowstone.stopStreaming s))
            (withStream (Some (fst (Yellowstone.stopStreaming s)))
               (withHasExecuted true w)))
    else (Ret tt, withIsExecuting false w).
Proof.
  intros Hs. unfold bind at 1.
  destruct (AutoPool.cannotProceed error).
  - now rewrite (AutoPool_finish_run 1 env w s Hs).
  - reflexivity.
Qed.

Lemma executeInstantFire_no_cache (pc : PoolCreator.MetaDAOPoolCreator) (w : World) :
  PoolCreator.cache pc = None ->
  AutoPool.primary pc env w = (Raise (mkError "Call preBuildTransaction() first"), w).
Proof.
  intros Hc.
  unfold AutoPool.primary, tryCatch, PoolCreator.executeInSingleSlot,
    PoolCreator.executeInstantFire.
  now rewrite Hc.
Qed.

End OutcomeFacts.

(** X19. Without pre-built payloads nothing is sent: both attempts throw
    before any call, the error is neither a conflict nor fatal, and an
    accepted trigger leaves the orchestrator exactly as it was. *)
Theorem missing_prebuild_is_recoverable (pc : PoolCreator.MetaDAOPoolCreator)
    (txData : Yellowstone.YellowstoneTransactionData) (env : Env) (w : World) :
  PoolCreator.cache pc = None ->
  AutoPool.executeBody pc env w = (Ret tt, withIsExecuting false w)
  /\ (AutoPool.accepts txData = true ->
      isExecuting w = false -> hasExecuted w = false ->
      AutoPool.handleTransaction pc txData env w = (Ret tt, w)).
Proof.
  intros Hc.
  assert (Hb : AutoPool.executeBody pc env (withIsExecuting true w)
               = (Ret tt, withIsExecuting false (withIsExecuting true w))
               /\ AutoPool.executeBody pc env w = (Ret tt, withIsExecuting false w)).
  { split; (rewrite (executeBody_on_error pc env _ _ _ (executeInstantFire_no_cache env pc _ Hc));
            reflexivity). }
  destruct Hb as [Hb1 Hb2]. split; [exact Hb2|].
  intros Ha Hi Hh. rewrite AutoPool_handle_split. unfold Run.enter.
  rewrite Hi, Hh, Ha. cbn [orb negb]. rewrite Hb1.
  destruct w; cbn in *; now subst.
Qed.

Lemma missing_prebuild_is_recoverable_witness :
  let pc := {| PoolCreator.config := PoolCreator.config Scenario.creator;
               PoolCreator.wallet := PoolCreator.wallet Scenario.creator;
               PoolCreator.cache := None |} in
  AutoPool.executeBody pc Scenario.calm Scenario.monitoring
  = (Ret tt, withIsExecuting false Scenario.monitoring)
  /\ AutoPool.handleTransaction pc Scenario.completeLaunchTx Scenario.calm
       Scenario.monitoring
     = (Ret tt, Scenario.monitoring).
Proof.
  cbv zeta.
  destruct (missing_prebuild_is_recoverable
              {| PoolCreator.config := PoolCreator.config Scenario.creator;
                 PoolCreator.wallet := PoolCreator.wallet Scenario.creator;
                 PoolCreator.cache := None |}
              Scenario.completeLaunchTx Scenario.calm Scenario.monitoring eq_refl)
    as [H1 H2].
  split; [exact H1|]. apply H2; reflexivity.
Defined.

Lemma onError_outcome (pc : PoolCreator.MetaDAOPoolCreator) (env : Env)
    (error : Error) (w : World) (s : Yellowstone.YellowstoneUnifiedStream)
    (r : Out unit * World) :
  yellowstoneStream w = Some s ->
  AutoPool.onError pc error env w = r ->
  exitedOrReturned s w r.
Proof.
  intros Hs H. unfold AutoPool.onError in H. unfold bind at 1 in H.
  assert (Htail : forall w2, yellowstoneStream w2 = Some s ->
            hasExecuted w2 = hasExecuted w ->
            exitedOrReturned s w
              ((do _ <- (if AutoPool.cannotProceed error then AutoPool.finish 1 else ret tt) ;;
                modify (withIsExecuting false)) env w2)).
  { intros w2 Hs2 Hh2. rewrite (onError_tail env error w2 s Hs2).
    destruct (AutoPool.cannotProceed error); [left; cbn; auto|].
    right. cbn. auto. }
  destruct (AutoPool.alreadyInUse error).
  - unfold tryCatch at 1 in H. unfold bind at 1 in H.
    destruct (PoolCreator.addLiquidityToExistingPool pc env w)
      as [[r2|e2|n2] w2] eqn:Ea;
      destruct (quiet_addLiquidity env pc w _ _ Ea) as (Hx2 & Hi2 & Hh2 & _ & Hst2);
      specialize (Hst2 s Hs).
    + rewrite (AutoPool_finish_run 0 env w2 s Hst2) in H. subst r. left; cbn; auto.
    + unfold ret at 1 in H. subst r. now apply Htail.
    + now destruct (Hx2 n2).
  - unfold ret at 1 in H. subst r. now apply Htail.
Qed.

(** X20. With the stream singleton in place an execution of the pool
    sniper ends in one of two ways and never throws: the process exits
    with code 0 or 1, marked as executed and with the stream stopped; or
    the handler returns with the executing flag down, the executed flag
    and the stream untouched.  A primary path that returned always gives
    exit code 0. *)
Theorem AutoPool_executeBody_outcome (pc : PoolCreator.MetaDAOPoolCreator)
    (env : Env) (w : World) (s : Yellowstone.YellowstoneUnifiedStream) :
  yellowstoneStream w = Some s ->
  let r := AutoPool.executeBody pc env w in
  (((fst r = Exit 0 \/ fst r = Exit 1)
    /\ hasExecuted (snd r) = true
    /\ yellowstoneStream (snd r) = Some (fst (Yellowstone.stopStreaming s)))
   \/ (fst r = Ret tt
       /\ isExecuting (snd r) = false
       /\ hasExecuted (snd r) = hasExecuted w
       /\ yellowstoneStream (snd r) = Some s))
  /\ (forall res w1, AutoPool.primary pc env w = (Ret res, w1) -> fst r = Exit 0).
Proof.
  intros Hs. cbv zeta.
  destruct (AutoPool.primary pc env w) as [[res|err|n] w1] eqn:Ep;
    destruct (quiet_primary env pc w _ _ Ep) as (Hx & Hi & Hh & _ & Hst);
    specialize (Hst s Hs).
  - assert (E : AutoPool.executeBody pc env w
                = (Exit 0,
                   withTrace (trace w1 ++ snd (Yellowstone.stopStreaming s))
                     (withStream (Some (fst (Yellowstone.stopStreaming s)))
                        (withHasExecuted true w1)))).
    { unfold AutoPool.executeBody, tryCatch, bind. rewrite Ep.
      now rewrite (AutoPool_finish_run 0 env w1 s Hst). }
    rewrite E. split; [left; cbn; auto | intros; reflexivity].
  - split; [|intros; discriminate].
    rewrite (executeBody_on_error pc env w w1 err Ep).
    pose proof (onError_outcome pc env err w1 s _ Hst eq_refl) as H.
    unfold exitedOrReturned in H. now rewrite Hh in H.
  - now destruct (Hx n).
Qed.

Lemma AutoPool_executeBody_outcome_witness :
  let r := AutoPool.executeBody Scenario.creator Scenario.poolTakenConfirmTimeout
             Scenario.executing in
  (((fst r = Exit 0 \/ fst r = Exit 1)
    /\ hasExecuted (snd r) = true
    /\ yellowstoneStream (snd r)
       = Some (fst (Yellowstone.stopStreaming Scenario.activeStream)))
   \/ (fst r = Ret tt
       /\ isExecuting (snd r) = false
       /\ hasExecuted (snd r) = hasExecuted Scenario.executing
       /\ yellowstoneStream (snd r) = Some Scenario.activeStream))
  /\ (forall res w1,
         AutoPool.primary Scenario.creator Scenario.poolTakenConfirmTimeout
           Scenario.executing = (Ret res, w1) -> fst r = Exit 0).
Proof.
  apply (AutoPool_executeBody_outcome Scenario.creator Scenario.poolTakenConfirmTimeout
           Scenario.executing Scenario.activeStream).
  reflexivity.
Defined.

(** X21. An execution of the Loyal orchestrator makes one call to the
    pool creator and ends by its answer: a result gives exit code 0, an
    error that says the tokens are claimed or the funding record is
    missing gives exit code 1, both after every subscription is removed;
    any other error returns to monitoring with the flag down and the
    subscriptions kept.  It never throws. *)
Theorem AutoLoyalPool_executeBody_outcome (env : Env) (w : World) :
  let w1 := withTrace (trace w ++ [CLoyalExecuteInSingleSlot]) w in
  let released :=
    withSubscriptions ∅
      (withTrace
         (trace w1 ++ List.map CRemoveListener
                        (List.map snd (map_to_list (subscriptions w))))
         (withHasExecuted true w1)) in
  AutoLoyalPool.executeBody env w
  = match loyal_executeInSingleSlot env (List.length (trace w)) with
    | Ok _ => (Exit 0, released)
    | Throw error =>
        if AutoLoyalPool.cannotProceed error then (Exit 1, released)
        else (Ret tt, withIsExecuting false w1)
    end.
Proof.
  cbv zeta. unfold AutoLoyalPool.executeBody, tryCatch. unfold bind at 1.
  rewrite call_run.
  destruct (loyal_executeInSingleSlot env (List.length (trace w))) as [res|error].
  - now rewrite AutoLoyalPool_finish_run.
  - unfold bind at 1. destruct (AutoLoyalPool.cannotProceed error).
    + now rewrite AutoLoyalPool_finish_run.
    + reflexivity.
Qed.

Section AbsorbingFacts.

(** [finish] has set [hasExecuted] however it ends, and it ends the
    process or throws. *)
Lemma AutoPool_finish_marks (code : Z) (env : Env) (w w' : World) (out : Out unit) :
  AutoPool.finish code env w = (out, w') ->
  hasExecuted w' = true /\ (out = Exit code \/ exists e, out = Raise e).
Proof.
  unfold AutoPool.finish, stopStreaming, bind, modify, exit, getYellowstoneStream.
  cbn. destruct (yellowstoneStream w) as [s|].
  - intros [= <- <-]. cbn. auto.
  - destruct (geyserRpcUrl w) as [u|]; [destruct (String.eqb u "")|];
      intros [= <- <-]; cbn; eauto.
Qed.

Lemma AutoPool_tail_exit (error : Error) (env : Env) (w w' : World) (code : Z) :
  (do _ <- (if AutoPool.cannotProceed error then AutoPool.finish 1 else ret tt) ;;
   modify (withIsExecuting false)) env w = (Exit code, w') ->
  code = 1%Z /\ hasExecuted w' = true.
Proof.
  unfold bind at 1. destruct (AutoPool.cannotProceed error); [|discriminate].
  destruct (AutoPool.finish 1 env w) as [[[]|e|n] w1] eqn:F;
    destruct (AutoPool_finish_marks 1 env w w1 _ F) as [Hh [Ho|[e' Ho]]];
    try discriminate.
  injection Ho as ->. intros [= <- <-]. auto.
Qed.

Lemma AutoPool_onError_exit (pc : PoolCreator.MetaDAOPoolCreator) (error : Error)
    (env : Env) (w w' : World) (code : Z) :
  AutoPool.onError pc error env w = (Exit code, w') ->
  (code = 0%Z \/ code = 1%Z) /\ hasExecuted w' = true.
Proof.
  unfold AutoPool.onError. unfold bind at 1.
  destruct (AutoPool.alreadyInUse error).
  - unfold tryCatch at 1. unfold bind at 1.
    destruct (PoolCreator.addLiquidityToExistingPool pc env w) as [[r|e|n] w2] eqn:Ea.
    + destruct (AutoPool.finish 0 env w2) as [[[]|e|n] w3] eqn:F;
        destruct (AutoPool_finish_marks 0 env w2 w3 _ F) as [Hh [Ho|[e' Ho]]];
        try discriminate.
      * unfold ret at 1. intros H. apply AutoPool_tail_exit in H as [-> H]. auto.
      * injection Ho as ->. intros [= <- <-]. auto.
    + unfold ret at 1. intros H. apply AutoPool_tail_exit in H as [-> H]. auto.
    + destruct (quiet_addLiquidity env pc w _ _ Ea) as [Hx _]. now destruct (Hx n).
  - unfold ret at 1. intros H. apply AutoPool_tail_exit in H as [-> H]. auto.
Qed.

Lemma AutoPool_executeBody_exit (pc : PoolCreator.MetaDAOPoolCreator) (env : Env)
    (w w' : World) (code : Z) :
  AutoPool.executeBody pc env w = (Exit code, w') ->
  (code = 0%Z \/ code = 1%Z) /\ hasExecuted w' = true.
Proof.
  unfold AutoPool.executeBody, tryCatch. unfold bind at 1.
  destruct (AutoPool.primary pc env w) as [[r|e|n] w1] eqn:Ep.
  - destruct (AutoPool.finish 0 env w1) as [[[]|e|n] w2] eqn:F;
      destruct (AutoPool_finish_marks 0 env w1 w2 _ F) as [Hh [Ho|[e' Ho]]];
      try discriminate.
    + apply AutoPool_onError_exit.
    + injection Ho as ->. intros [= <- <-]. auto.
  - apply AutoPool_onError_exit.
  - destruct (quiet_primary env pc w _ _ Ep) as [Hx _]. now destruct (Hx n).
Qed.

Lemma AutoLoyalPool_executeBody_exit (env : Env) (w w' : World) (code : Z) :
  AutoLoyalPool.executeBody env w = (Exit code, w') ->
  (code = 0%Z \/ code = 1%Z) /\ hasExecuted w' = true /\ subscriptions w' = ∅.
Proof.
  unfold AutoLoyalPool.executeBody, tryCatch. unfold bind at 1.
  rewrite call_run.
  destruct (loyal_executeInSingleSlot env (List.length (trace w))) as [res|error].
  - rewrite AutoLoyalPool_finish_run. intros [= <- <-]. auto.
  - unfold bind at 1. destruct (AutoLoyalPool.cannotProceed error); [|discriminate].
    rewrite AutoLoyalPool_finish_run. intros [= <- <-]. auto.
Qed.

End AbsorbingFacts.

(** X22. The completed and the failed state are absorbing through the
    flag itself: every path of either orchestrator that ends the process
    does so with code 0 or 1 and has set [hasExecuted] before (the Loyal
    one has also removed every subscription), so [handleTransaction]
    does nothing on any event delivered to the orchestrator in that
    state, whatever the event and the environment. *)
Theorem exit_marks_executed (env : Env) (w w' : World) (code : Z) :
  (forall pc,
      AutoPool.executeBody pc env w = (Exit code, w') ->
      (code = 0%Z \/ code = 1%Z)
      /\ hasExecuted w' = true
      /\ forall txData env',
           AutoPool.handleTransaction pc txData env' w' = (Ret tt, w'))
  /\ (AutoLoyalPool.executeBody env w = (Exit code, w') ->
      (code = 0%Z \/ code = 1%Z)
      /\ hasExecuted w' = true
      /\ subscriptions w' = ∅
      /\ forall target logData env',
           AutoLoyalPool.handleTransaction target logData env' w' = (Ret tt, w')).
Proof.
  split.
  - intros pc H. destruct (AutoPool_executeBody_exit pc env w w' code H) as [Hc Hh].
    split; [exact Hc|]. split; [exact Hh|].
    intros txData env'. unfold AutoPool.handleTransaction.
    now rewrite Hh, orb_true_r.
  - intros H. destruct (AutoLoyalPool_executeBody_exit env w w' code H) as (Hc & Hh & Hs).
    split; [exact Hc|]. split; [exact Hh|]. split; [exact Hs|].
    intros target logData env'. unfold AutoLoyalPool.handleTransaction.
    now rewrite Hh, orb_true_r.
Qed.

Lemma exit_marks_executed_witness :
  let w' := snd (AutoPool.executeBody Scenario.creator Scenario.calm Scenario.executing) in
  fst (AutoPool.executeBody Scenario.creator Scenario.calm Scenario.executing) = Exit 0
  /\ hasExecuted w' = true
  /\ AutoPool.handleTransaction Scenario.creator Scenario.completeLaunchTx
       Scenario.offline w'
     = (Ret tt, w').
Proof.
  cbv zeta.
  assert (E : AutoPool.executeBody Scenario.creator Scenario.calm Scenario.executing
              = (Exit 0,
                 snd (AutoPool.executeBody Scenario.creator Scenario.calm
                        Scenario.executing))) by (vm_compute; reflexivity).
  destruct (exit_marks_executed Scenario.calm Scenario.executing
              (snd (AutoPool.executeBody Scenario.creator Scenario.calm
                      Scenario.executing)) 0%Z) as [H _].
  destruct (H Scenario.creator E) as (_ & Hh & Hno).
  split; [now rewrite E|]. split; [exact Hh|]. apply Hno.
Defined.

(** ** The subscription registry *)

Section RegistryFacts.

Lemma withSubscriptions_same (w : World) :
  withSubscriptions (subscriptions w) w = w.
Proof. now destruct w. Qed.

Lemma unsubscribeAll_run (env : Env) (w : World) :
  GeyserClient.unsubscribeAll env w
  = (Ret tt,
     withSubscriptions ∅
       (withTrace
          (trace w ++ List.map CRemoveListener (List.map snd (map_to_list (subscriptions w))))
          w)).
Proof.
  unfold GeyserClient.unsubscribeAll, AutoLoyalPool.unsubscribeAll, bind, modify.
  now rewrite removeAll_run.
Qed.

Lemma In_registry_ids (m : gmap string Z) (id : Z) :
  In id (List.map snd (map_to_list m)) <-> exists key, m !! key = Some id.
Proof.
  rewrite in_map_iff. split.
  - intros ([k v] & Hv & Hin). cbn in Hv. subst v. exists k.
    now apply elem_of_map_to_list, list_elem_of_In.
  - intros (k & Hk). exists (k, id). split; [reflexivity|].
    now apply list_elem_of_In, elem_of_map_to_list.
Qed.

Lemma unsubscribe_run (key : string) (env : Env) (w : World) :
  GeyserClient.unsubscribe key env w
  = match subscriptions w !! key with
    | None => (Ret false, w)
    | Some id =>
        match rpc_removeListener env (List.length (trace w)) id with
        | Ok _ => (Ret true,
                   withSubscriptions (delete key (subscriptions w))
                     (withTrace (trace w ++ [CRemoveListener id]) w))
        | Throw e => (Raise e, withTrace (trace w ++ [CRemoveListener id]) w)
        end
    end.
Proof.
  unfold GeyserClient.unsubscribe.
  destruct (subscriptions w !! key) as [id|]; [|reflexivity].
  unfold bind at 1. rewrite call_run.
  now destruct (rpc_removeListener env (List.length (trace w)) id) as [[]|e].
Qed.

End RegistryFacts.

(** X23. [unsubscribe] of a key that is not registered returns false and
    does nothing.  For a registered key it asks once for the removal of
    the stored id; when that is granted the entry goes and the count
    drops by one, when it throws the error is passed on and the entry
    stays. *)
Theorem unsubscribe_outcome (key : string) (env : Env) (w : World) :
  match subscriptions w !! key with
  | None => GeyserClient.unsubscribe key env w = (Ret false, w)
  | Some id =>
      let w1 := withTrace (trace w ++ [CRemoveListener id]) w in
      match rpc_removeListener env (List.length (trace w)) id with
      | Ok _ =>
          GeyserClient.unsubscribe key env w
          = (Ret true, withSubscriptions (delete key (subscriptions w)) w1)
          /\ S (GeyserClient.getActiveSubscriptionsCount
                  (snd (GeyserClient.unsubscribe key env w)))
             = GeyserClient.getActiveSubscriptionsCount w
      | Throw e =>
          GeyserClient.unsubscribe key env w = (Raise e, w1)
          /\ subscriptions (snd (GeyserClient.unsubscribe key env w)) !! key = Some id
      end
  end.
Proof.
  rewrite unsubscribe_run. unfold GeyserClient.getActiveSubscriptionsCount.
  destruct (subscriptions w !! key) as [id|] eqn:Hk; [|reflexivity].
  cbv zeta.
  destruct (rpc_removeListener env (List.length (trace w)) id) as [[]|e].
  - split; [reflexivity|]. cbn.
    rewrite map_size_delete, Hk.
    assert (size (subscriptions w) <> 0%nat).
    { apply map_size_non_empty_iff. intros Hm. rewrite Hm in Hk. discriminate. }
    lia.
  - cbn. split; [reflexivity | exact Hk].
Qed.

(** X24. [unsubscribeAll] always returns, whatever the removals answer:
    afterwards the registry is empty, one removal was asked for each
    entry and for nothing else, and the two flags are as before. *)
Theorem unsubscribeAll_clears (env : Env) (w : World) :
  exists w' removed,
    GeyserClient.unsubscribeAll env w = (Ret tt, w')
    /\ GeyserClient.getActiveSubscriptionsCount w' = 0%nat
    /\ trace w' = trace w ++ List.map CRemoveListener removed
    /\ List.length removed = GeyserClient.getActiveSubscriptionsCount w
    /\ (forall id, In id removed <-> exists key, subscriptions w !! key = Some id)
    /\ isExecuting w' = isExecuting w
    /\ hasExecuted w' = hasExecuted w.
Proof.
  eexists _, (List.map snd (map_to_list (subscriptions w))).
  split; [apply unsubscribeAll_run|].
  unfold GeyserClient.getActiveSubscriptionsCount. cbn.
  repeat split.
  - now rewrite length_map, length_map_to_list.
  - now apply In_registry_ids.
  - now apply In_registry_ids.
Qed.

(** X25. Subscribing again under a key that is in use replaces the
    stored id without removing the first listener: the count does not
    grow, and no later [unsubscribeAll] asks for the removal of the
    first id. *)
Theorem resubscribe_leaks_listener (key : string) (id1 id2 : Z) (env : Env) (w : World) :
  id1 <> id2 ->
  (forall k, subscriptions w !! k <> Some id1) ->
  ~ In (CRemoveListener id1) (trace w) ->
  let w1 := snd (GeyserClient.subscribe key id1 env w) in
  let w2 := snd (GeyserClient.subscribe key id2 env w1) in
  GeyserClient.getActiveSubscriptionsCount w2 = GeyserClient.getActiveSubscriptionsCount w1
  /\ subscriptions w2 !! key = Some id2
  /\ ~ In (CRemoveListener id1) (trace (snd (GeyserClient.unsubscribeAll env w2))).
Proof.
  intros Hne Hfresh Htr. cbv zeta.
  unfold GeyserClient.subscribe, bind, modify, ret,
    GeyserClient.getActiveSubscriptionsCount. cbn [fst snd].
  rewrite unsubscribeAll_run. cbn.
  rewrite insert_insert_eq. split; [|split].
  - rewrite !map_size_insert. reflexivity.
  - apply lookup_insert_eq.
  - intros Hin. apply in_app_or in Hin as [Hin|Hin]; [now apply Htr|].
    apply in_map_iff in Hin as (id & Hid & Hin). injection Hid as ->.
    apply In_registry_ids in Hin as (k & Hk).
    destruct (decide (k = key)) as [->|Hk'].
    + rewrite lookup_insert_eq in Hk. congruence.
    + rewrite lookup_insert_ne in Hk by congruence. now apply (Hfresh k).
Qed.

Lemma resubscribe_leaks_listener_witness :
  let w1 := snd (GeyserClient.subscribe "logs:Launchpad" 8%Z Scenario.calm
                   Scenario.monitoring) in
  let w2 := snd (GeyserClient.subscribe "logs:Launchpad" 9%Z Scenario.calm w1) in
  GeyserClient.getActiveSubscriptionsCount w2 = GeyserClient.getActiveSubscriptionsCount w1
  /\ subscriptions w2 !! "logs:Launchpad" = Some 9%Z
  /\ ~ In (CRemoveListener 8%Z)
         (trace (snd (GeyserClient.unsubscribeAll Scenario.calm w2))).
Proof.
  apply (resubscribe_leaks_listener "logs:Launchpad" 8%Z 9%Z Scenario.calm
           Scenario.monitoring).
  - lia.
  - intros k. cbn. destruct (decide (k = "logs:Launchpad")) as [->|Hk].
    + rewrite lookup_singleton_eq. intros [=].
    + rewrite lookup_singleton_ne by congruence. discriminate.
  - cbn. tauto.
Defined.

(** X26. Subscribing under a key that is free and unsubscribing it again
    gives the registry back as it was, at the cost of one removal. *)
Theorem subscribe_unsubscribe_round_trip (key : string) (id : Z) (env : Env) (w : World) :
  subscriptions w !! key = None ->
  rpc_removeListener env (List.length (trace w)) id = Ok tt ->
  GeyserClient.unsubscribe key env (snd (GeyserClient.subscribe key id env w))
  = (Ret true, withTrace (trace w ++ [CRemoveListener id]) w).
Proof.
  intros Hk Hrm. rewrite unsubscribe_run.
  unfold GeyserClient.subscribe, bind, modify, ret. cbn [fst snd].
  cbn [subscriptions withSubscriptions trace].
  rewrite lookup_insert_eq, Hrm, delete_insert_id by exact Hk.
  now destruct w.
Qed.

Lemma subscribe_unsubscribe_round_trip_witness :
  GeyserClient.unsubscribe "program:Damm" Scenario.calm
    (snd (GeyserClient.subscribe "program:Damm" 8%Z Scenario.calm Scenario.monitoring))
  = (Ret true, withTrace (trace Scenario.monitoring ++ [CRemoveListener 8%Z])
                 Scenario.monitoring).
Proof.
  apply (subscribe_unsubscribe_round_trip "program:Damm" 8%Z Scenario.calm
           Scenario.monitoring); reflexivity.
Defined.

(** X27. [main] never lets an error out: whatever the two commands do,
    it returns or exits.  With the help command it returns without
    looking at the configuration; otherwise a configuration without a
    wallet key exits with code 1 before any command runs, and an error
    of the command exits with code 1 as well. *)
Theorem main_never_throws (command : option string) (config : Main.Config)
    (showInfo startAutoPool : M unit) (env : Env) (w : World) :
  (forall e w', Main.main command config showInfo startAutoPool env w <> (Raise e, w'))
  /\ (command = Some "help" ->
      Main.main command config showInfo startAutoPool env w = (Ret tt, w))
  /\ (command <> Some "help" -> Main.validateConfig config = false ->
      Main.main command config showInfo startAutoPool env w = (Exit 1, w))
  /\ (forall e w', command = None -> Main.validateConfig config = true ->
      startAutoPool env w = (Raise e, w') ->
      Main.main command config showInfo startAutoPool env w = (Exit 1, w')).
Proof.
  unfold Main.main. repeat split.
  - intros e w'.
    destruct (match command with Some c => String.eqb c "help" | None => false end);
      [discriminate|].
    destruct (negb (Main.validateConfig config)); [discriminate|].
    unfold tryCatch.
    destruct ((if match command with Some c => String.eqb c "info" | None => false end
               then showInfo else startAutoPool) env w) as [[[]|e0|n] w0];
      discriminate.
  - intros ->. reflexivity.
  - intros Hc Hv. rewrite Hv.
    destruct command as [c|]; [|reflexivity].
    destruct (String.eqb c "help") eqn:E; [|reflexivity].
    apply String.eqb_eq in E. congruence.
  - intros e w' -> Hv Hs. rewrite Hv. cbn. unfold tryCatch. now rewrite Hs.
Qed.

Lemma main_never_throws_witness :
  Main.main (Some "info") {| Main.walletPrivateKey := Some ""; Main.keypairPath := None |}
    (ret tt) (throw (mkError "unreachable")) Scenario.calm Scenario.monitoring
  = (Exit 1, Scenario.monitoring).
Proof.
  apply (main_never_throws (Some "info")
           {| Main.walletPrivateKey := Some ""; Main.keypairPath := None |}
           (ret tt) (throw (mkError "unreachable")) Scenario.calm Scenario.monitoring);
    [discriminate | reflexivity].
Defined.

(** ** The transaction stream of streamTransactions.ts *)

Section KeyFacts.

Lemma logsKey_inj (a b : string) :
  GeyserClient.logsKey a = GeyserClient.logsKey b -> a = b.
Proof. unfold GeyserClient.logsKey. unfold_append. now intros [=]. Qed.

Lemma programKey_logsKey (a b : string) :
  GeyserClient.programKey a <> GeyserClient.logsKey b.
Proof. unfold GeyserClient.programKey, GeyserClient.logsKey. unfold_append. discriminate. Qed.

End KeyFacts.

(** X28. [streamMetaDAOTransactions] registers the log stream of each of
    the two programs and the account stream of the first, and asks for
    no removal.  Into an empty registry that makes three entries, or two
    when both programs are the same address: then the second log
    registration has taken the place of the first.  The interrupt
    handler that follows always ends the process with code 0. *)
Theorem streamMetaDAOTransactions_registry (metaDAOProgramId dammV2ProgramId : PublicKey)
    (id1 id2 id3 : Z) (env : Env) (w : World) :
  let r := StreamTransactions.streamMetaDAOTransactions metaDAOProgramId dammV2ProgramId
             id1 id2 id3 env w in
  fst r = Ret tt
  /\ trace (snd r) = trace w
  /\ subscriptions (snd r) !! GeyserClient.logsKey dammV2ProgramId = Some id2
  /\ subscriptions (snd r) !! GeyserClient.programKey metaDAOProgramId = Some id3
  /\ subscriptions (snd r) !! GeyserClient.logsKey metaDAOProgramId
     = Some (if String.eqb metaDAOProgramId dammV2ProgramId then id2 else id1)
  /\ (subscriptions w = ∅ ->
      GeyserClient.getActiveSubscriptionsCount (snd r)
      = if String.eqb metaDAOProgramId dammV2ProgramId then 2%nat else 3%nat)
  /\ fst (StreamTransactions.onSigint env (snd r)) = Exit 0.
Proof.
  cbv zeta.
  unfold StreamTransactions.streamMetaDAOTransactions, GeyserClient.subscribeToLogs,
    GeyserClient.subscribeToProgramAccounts, GeyserClient.subscribe,
    GeyserClient.getActiveSubscriptionsCount, bind, modify, ret.
  cbn [fst snd subscriptions withSubscriptions trace].
  pose proof (programKey_logsKey metaDAOProgramId dammV2ProgramId) as Hpd.
  pose proof (programKey_logsKey metaDAOProgramId metaDAOProgramId) as Hpm.
  split; [reflexivity|]. split; [now destruct w|].
  split. { rewrite lookup_insert_ne by exact Hpd. apply lookup_insert_eq. }
  split. { apply lookup_insert_eq. }
  split.
  { rewrite lookup_insert_ne by exact Hpm.
    destruct (String.eqb metaDAOProgramId dammV2ProgramId) eqn:E.
    - apply String.eqb_eq in E. subst. apply lookup_insert_eq.
    - apply String.eqb_neq in E.
      rewrite lookup_insert_ne by (intros H; apply logsKey_inj in H; congruence).
      apply lookup_insert_eq. }
  split.
  { intros ->.
    destruct (String.eqb metaDAOProgramId dammV2ProgramId) eqn:E.
    - apply String.eqb_eq in E. subst. rewrite insert_insert_eq.
      rewrite map_size_insert_None.
      + now rewrite map_size_insert_None by apply lookup_empty.
      + rewrite lookup_insert_ne by (intros H; now apply Hpd). apply lookup_empty.
    - apply String.eqb_neq in E.
      assert (Hne : GeyserClient.logsKey dammV2ProgramId
                    <> GeyserClient.logsKey metaDAOProgramId).
      { intros H. apply logsKey_inj in H. congruence. }
      rewrite map_size_insert_None.
      + rewrite map_size_insert_None.
        * now rewrite map_size_insert_None by apply lookup_empty.
        * rewrite lookup_insert_ne by congruence. apply lookup_empty.
      + rewrite lookup_insert_ne by (intros H; now apply Hpd).
        rewrite lookup_insert_ne by (intros H; now apply Hpm).
        apply lookup_empty. }
  unfold StreamTransactions.onSigint. unfold bind at 1.
  now rewrite unsubscribeAll_run.
Qed.

Lemma streamMetaDAOTransactions_registry_witness :
  let r := StreamTransactions.streamMetaDAOTransactions "Meta" "Meta" 1 2 3
             Scenario.calm (withSubscriptions ∅ Scenario.monitoring) in
  subscriptions (snd r) !! GeyserClient.logsKey "Meta" = Some 2%Z
  /\ GeyserClient.getActiveSubscriptionsCount (snd r) = 2%nat.
Proof.
  cbv zeta.
  destruct (streamMetaDAOTransactions_registry "Meta" "Meta" 1 2 3 Scenario.calm
              (withSubscriptions ∅ Scenario.monitoring))
    as (_ & _ & _ & _ & H1 & H2 & _).
  split; [exact H1 | apply H2; reflexivity].
Defined.

(** X29. [getWallet] fails with "not configured" exactly on the
    configurations [validateConfig] rejects.  On the others it hands the
    key to the decoder and returns what that returns; an error of the
    decoder comes back under a new message and without its logs. *)
Theorem getWallet_follows_validateConfig (fromSecretKey : string -> Res Keypair)
    (config : Main.Config) :
  (Main.validateConfig config = false ->
   Connection.getWallet fromSecretKey config
   = Throw (mkError "Wallet private key not configured"))
  /\ (Main.validateConfig config = true ->
      exists key,
        Main.walletPrivateKey config = Some key /\ key <> EmptyString
        /\ Connection.getWallet fromSecretKey config
           = match fromSecretKey key with
             | Ok keypair => Ok keypair
             | Throw error => Throw (mkError ("Failed to load wallet: " +:+ message error))
             end)
  /\ (forall error, Connection.getWallet fromSecretKey config = Throw error ->
      logs error = None).
Proof.
  unfold Main.validateConfig, Connection.getWallet. repeat split.
  - now intros ->.
  - intros H. rewrite H. destruct (Main.walletPrivateKey config) as [key|]; [|discriminate].
    exists key. repeat split. cbn in H. now apply negb_true_iff, String.eqb_neq in H.
  - intros error.
    destruct (negb (Yellowstone.truthyStr (Main.walletPrivateKey config)));
      [now intros [= <-]|].
    destruct (fromSecretKey _); [discriminate | now intros [= <-]].
Qed.

Lemma getWallet_follows_validateConfig_witness :
  Connection.getWallet (fun _ => Throw Scenario.inUse)
    {| Main.walletPrivateKey := Some "not base58"; Main.keypairPath := None |}
  = Throw (mkError ("Failed to load wallet: " +:+ message Scenario.inUse))
  /\ Connection.getWallet (fun _ => Throw Scenario.inUse)
       {| Main.walletPrivateKey := None; Main.keypairPath := Some "id.json" |}
     = Throw (mkError "Wallet private key not configured").
Proof.
  split.
  - destruct (getWallet_follows_validateConfig (fun _ => Throw Scenario.inUse)
                {| Main.walletPrivateKey := Some "not base58"; Main.keypairPath := None |})
      as (_ & H & _).
    destruct (H eq_refl) as (key & Hk & _ & Hw). exact Hw.
  - reflexivity.
Defined.

Lemma executeInstantFire_sends_witness :
  let r := PoolCreator.executeInstantFire Scenario.creator Scenario.calm
             Scenario.monitoring in
  exists sent,
    sentBy Scenario.monitoring r sent
    /\ (sent = [] \/ sent = [claimOptions] \/ sent = [claimOptions; poolOptions]
        \/ sent = [claimOptions; {| skipPreflight := false; maxRetries := 2 |}])
    /\ (returned r -> List.length sent = 2%nat).
Proof.
  apply (executeInstantFire_sends Scenario.creator Scenario.calm Scenario.monitoring).
Defined.
